(** * ecommerce-analytics: RFM segmentation, cohort retention and the
      synthetic data generator

    Shallow embedding of [src/rfm.analysis.py], [src/cohort_analysis.py] and
    [src/generate_sample_data.py].

    Conventions of the embedding.
    - A pandas [Timestamp] is a whole number of days since 1970-01-01: every
      date of the repository's tables is written as [YYYY-MM-DD].
    - A Python [float] and a numpy [float64] are binary64 numbers, with
      the rounding of every operation; an [int64] column wraps around. The
      retention percentages, which are ratios of two counts, are exact
      rationals ([Q]).
    - A DataFrame lives in a heap and is reached through a reference, so
      that [.copy()] and in-place column assignment can be told apart.
    - A raised Python exception is the [Raise] branch of [result]. *)

From Stdlib Require Import ZArith QArith Qround List Sorted Lia String Bool OrderedTypeEx
  SpecFloat.
From stdpp Require Import gmap pretty.
Import ListNotations.
Local Open Scope Z_scope.

(** ** Exceptions and the state-and-exception monad *)

Inductive key : Type := KInt (k : Z) | KStr (s : string).

Inductive exn : Type :=
| ValueError (msg : string)
| KeyError (k : key)
| IndexError (msg : string)
| NameError (msg : string).

Inductive result (A : Type) : Type :=
| Ok (a : A)
| Raise (e : exn).
Arguments Ok {A} a.
Arguments Raise {A} e.

Definition is_ok {A} (r : result A) : bool :=
  match r with Ok _ => true | Raise _ => false end.

(** [M S A]: a computation over a mutable state [S] that returns an [A] or
    raises; state changes made before a raise persist, as in Python. *)
Definition M (S A : Type) : Type := S → S * result A.

Definition ret {S A} (a : A) : M S A := λ s, (s, Ok a).
Definition raise {S A} (e : exn) : M S A := λ s, (s, Raise e).
Definition bind {S A B} (m : M S A) (k : A → M S B) : M S B :=
  λ s, match m s with
       | (s', Ok a) => k a s'
       | (s', Raise e) => (s', Raise e)
       end.
Definition lift_result {S A} (r : result A) : M S A := λ s, (s, r).

Global Instance M_ret {S} : MRet (M S) := λ A, @ret S A.
Global Instance M_bind {S} : MBind (M S) := λ A B k m, bind m k.

(** ** Binary64 floating point numbers

    Python's [float] and numpy's [float64] are IEEE-754 binary64 numbers;
    the operations round to nearest, ties to even. They are taken from the
    Standard Library's [SpecFloat], which computes them on the mantissa and
    the exponent. *)

Module Float.

Definition t : Type := spec_float.
Definition prec : Z := 53.
Definition emax : Z := 1024.

Definition add : t → t → t := SFadd prec emax.
Definition sub : t → t → t := SFsub prec emax.
Definition mul : t → t → t := SFmul prec emax.
Definition div : t → t → t := SFdiv prec emax.

Definition zero : t := S754_zero false.
Definition nan : t := S754_nan.
Definition is_nan (x : t) : bool :=
  match x with S754_nan => true | _ => false end.

(** [m * 2 ** e], rounded when [m] has more than 53 bits. *)
Definition ldexp (m e : Z) : t := binary_normalize prec emax m e false.

(** [float(z)] for an integer [z]. *)
Definition of_Z (z : Z) : t := ldexp z 0.

(** The decimal literal [n / d] for integers that a float holds exactly,
    such as [0.15] for [15 / 100]: the float nearest to the quotient. *)
Definition decimal (n d : Z) : t := div (of_Z n) (of_Z d).

(** Comparison by value; [None] when a NaN is involved. The mantissas are
    compared at a common exponent [k]. *)
Definition scaled (x : t) (k : Z) : Z :=
  match x with
  | S754_finite s m e => cond_Zopp s (Z.shiftl (Z.pos m) (e - k))
  | _ => 0
  end.

Definition exponent (x : t) (d : Z) : Z :=
  match x with S754_finite _ _ e => e | _ => d end.

Definition compare (x y : t) : option comparison :=
  match x, y with
  | S754_nan, _ | _, S754_nan => None
  | S754_infinity sx, S754_infinity sy =>
      Some (if sx then if sy then Eq else Lt else if sy then Gt else Eq)
  | S754_infinity sx, _ => Some (if sx then Lt else Gt)
  | _, S754_infinity sy => Some (if sy then Gt else Lt)
  | _, _ =>
      let k := Z.min (exponent x (exponent y 0)) (exponent y (exponent x 0)) in
      Some (scaled x k ?= scaled y k)
  end.

Definition eqb (x y : t) : bool :=
  match compare x y with Some Eq => true | _ => false end.
Definition ltb (x y : t) : bool :=
  match compare x y with Some Lt => true | _ => false end.
Definition leb (x y : t) : bool :=
  match compare x y with Some Lt | Some Eq => true | _ => false end.


(** [n / 2 ** k] rounded to the nearest integer, ties to even. *)
Definition rint_div (n k : Z) : Z :=
  let d := Z.shiftl 1 k in
  let q := n / d in
  let r := n mod d in
  match 2 * r ?= d with
  | Lt => q
  | Gt => q + 1
  | Eq => if Z.even q then q else q + 1
  end.

(** [math.floor(x)] of a finite float; 0 stands for the others. *)
Definition floor (x : t) : Z :=
  match x with
  | S754_finite s m e =>
      if 0 <=? e then cond_Zopp s (Z.pos m) * 2 ^ e
      else cond_Zopp s (Z.pos m) / 2 ^ (- e)
  | _ => 0
  end.

(** [np.rint]: to the nearest integer, ties to even, keeping the sign of
    a zero. *)
Definition rint (x : t) : t :=
  match x with
  | S754_finite s m e =>
      if 0 <=? e then x
      else binary_normalize prec emax (cond_Zopp s (rint_div (Z.pos m) (- e))) 0 s
  | _ => x
  end.

(** [np.round(x, d)], which is also [Series.round(d)] and the [round] of a
    numpy scalar: multiply by [10 ** d], [rint], divide. *)
Definition np_round (d : Z) (x : t) : t :=
  let f := of_Z (10 ^ d) in div (rint (mul x f)) f.

(** [round(x, d)] of a Python float: the float nearest to the decimal with
    [d] places that is nearest to the exact value of [x]. *)
Definition py_round (d : Z) (x : t) : t :=
  match x with
  | S754_finite s m e =>
      if 0 <=? e then x
      else match rint_div (Z.pos m * 10 ^ d) (- e) with
           | Z.pos n => div (S754_finite s n 0) (of_Z (10 ^ d))
           | _ => S754_zero s
           end
  | _ => x
  end.

End Float.

(** ** The pandas operations the engines call *)

Module Pandas.

(** Days since 1970-01-01. *)
Definition Timestamp : Type := Z.

(** Proleptic Gregorian calendar, day number to (year, month, day). *)
Definition civil_from_days (t : Timestamp) : Z * Z * Z :=
  let z := t + 719468 in
  let era := z / 146097 in
  let doe := z - era * 146097 in
  let yoe := (doe - doe / 1460 + doe / 36524 - doe / 146096) / 365 in
  let y := yoe + era * 400 in
  let doy := doe - (365 * yoe + yoe / 4 - yoe / 100) in
  let mp := (5 * doy + 2) / 153 in
  let d := doy - (153 * mp + 2) / 5 + 1 in
  let m := if mp <? 10 then mp + 3 else mp - 9 in
  (if m <=? 2 then y + 1 else y, m, d).

(** (year, month, day) to day number: [datetime(y, m, d)]. *)
Definition days_from_civil (y m d : Z) : Timestamp :=
  let y' := if m <=? 2 then y - 1 else y in
  let era := y' / 400 in
  let yoe := y' - era * 400 in
  let doy := (153 * (if 2 <? m then m - 3 else m + 9) + 2) / 5 + d - 1 in
  let doe := yoe * 365 + yoe / 4 - yoe / 100 + doy in
  era * 146097 + doe - 719468.

(** [.dt.to_period('M')]: a monthly period is its ordinal, the number of
    months since 1970-01; [(p1 - p2).n] is the difference of ordinals. *)
Definition to_period_M (t : Timestamp) : Z :=
  let '(y, m, _) := civil_from_days t in (y - 1970) * 12 + (m - 1).

(** The dtype of a date column: text as read from CSV, or datetime64. *)
Inductive dtype : Type := object_ | datetime64.

(** Group keys of [groupby] and the labels of [pivot] come out sorted and
    without repetition. *)
Fixpoint insert_key (k : Z) (l : list Z) : list Z :=
  match l with
  | [] => [k]
  | x :: r =>
      if k <? x then k :: l
      else if k =? x then l
      else x :: insert_key k r
  end.

Definition sorted_keys (l : list Z) : list Z := fold_right insert_key [] l.

(** [Series.nunique]. *)
Definition nunique (l : list Z) : Z := Z.of_nat (length (sorted_keys l)).

(** Ascending sort that keeps repetitions. *)
Fixpoint insert_value (v : Z) (l : list Z) : list Z :=
  match l with
  | [] => [v]
  | x :: r => if v <=? x then v :: l else x :: insert_value v r
  end.

Definition sort_values (l : list Z) : list Z := fold_right insert_value [] l.

(** [Series.max] and [Series.min] of a non-empty column ([d] stands for
    NaT/NaN on an empty one). *)
Definition series_max (d : Z) (l : list Z) : Z :=
  match l with [] => d | x :: r => fold_left Z.max r x end.
Definition series_min (d : Z) (l : list Z) : Z :=
  match l with [] => d | x :: r => fold_left Z.min r x end.

Definition Qsum (l : list Q) : Q := fold_left Qplus l 0%Q.

(** [Series.mean]; NaN entries are skipped by the caller. *)
Definition Qmean (l : list Q) : Q := (Qsum l / inject_Z (Z.of_nat (length l)))%Q.

(** A cell of a numeric column: [int64] or [float64]. A column has one
    dtype: it is [int64] when every cell is an integer, and [float64]
    otherwise, with its integers converted. *)
Inductive number : Type :=
| Int64 (z : Z)
| Float64 (f : Float.t).

Definition is_int (x : number) : bool :=
  match x with Int64 _ => true | Float64 _ => false end.

Definition int_column (col : list number) : bool := forallb is_int col.

Definition to_float (x : number) : Float.t :=
  match x with Int64 z => Float.of_Z z | Float64 f => f end.

Definition to_int (x : number) : Z :=
  match x with Int64 z => z | Float64 _ => 0 end.

Definition number_isna (x : number) : bool :=
  match x with Int64 _ => false | Float64 f => Float.is_nan f end.

Definition number_ltb (x y : number) : bool :=
  match x, y with
  | Int64 a, Int64 b => a <? b
  | _, _ => Float.ltb (to_float x) (to_float y)
  end.

Definition number_eqb (x y : number) : bool :=
  match x, y with
  | Int64 a, Int64 b => a =? b
  | _, _ => Float.eqb (to_float x) (to_float y)
  end.

(** Two's complement [int64] arithmetic wraps around. *)
Definition wrap64 (z : Z) : Z := (z + 2 ^ 63) mod 2 ^ 64 - 2 ^ 63.

(** The group sum of an [int64] column. *)
Definition int_sum (l : list Z) : Z := fold_left (λ acc z, wrap64 (acc + z)) l 0.

(** The group sum of a [float64] column: NaN cells are skipped, and the
    rounding error of each addition is carried along (Kahan summation, as
    in [group_sum] of pandas). *)
Definition kahan_step (st : Float.t * Float.t) (val : Float.t) : Float.t * Float.t :=
  let '(sumx, compensation) := st in
  if Float.is_nan val then st
  else
    let y := Float.sub val compensation in
    let t := Float.add sumx y in
    let c := Float.sub (Float.sub t sumx) y in
    (t, if Float.is_nan c then Float.zero else c).

Definition float_sum (l : list Float.t) : Float.t :=
  fst (fold_left kahan_step l (Float.zero, Float.zero)).

(** [groupby(...)[col].sum()] on one group of a column whose dtype is
    [int64] when [int_dtype] holds. *)
Definition group_sum (int_dtype : bool) (x : list number) : number :=
  if int_dtype then Int64 (int_sum (map to_int x))
  else Float64 (float_sum (map to_float x)).

(** [groupby(...)[col].mean()] on one group: the compensated sum of the
    cells as floats over the number of cells that are not NaN. *)
Definition group_mean (x : list Float.t) : Float.t :=
  let n := length (List.filter (λ v, negb (Float.is_nan v)) x) in
  match n with
  | O => Float.nan
  | _ => Float.div (float_sum x) (Float.of_Z (Z.of_nat n))
  end.

(** [Series.sum()] of fewer than 8 cells (the segment summary has at most
    seven rows): NaN counts as 0, the cells are added from the left. *)
Definition series_sum (int_dtype : bool) (x : list number) : number :=
  if int_dtype then Int64 (int_sum (map to_int x))
  else Float64 (fold_left
                  (λ acc v, Float.add acc (if Float.is_nan v then Float.zero else v))
                  (map to_float x) Float.zero).

(** [.round(2)] on a column: integers are left as they are. *)
Definition round2 (x : number) : number :=
  match x with
  | Int64 z => Int64 z
  | Float64 f => Float64 (Float.np_round 2 f)
  end.

(** [Series.rank(method='first')]: the position in a stable ascending
    sort, counted from 1; equal values are ranked in order of appearance,
    and a NaN has no rank. *)
Section Rank.
Context {A : Type} (isna : A → bool) (ltb eqb : A → A → bool).

Definition count_if (p : A → bool) (l : list A) : Z :=
  Z.of_nat (length (List.filter p l)).

Fixpoint rank_from (before rest all : list A) : list (option Z) :=
  match rest with
  | [] => []
  | x :: r =>
      (if isna x then None
       else Some (1 + count_if (λ y, ltb y x) all + count_if (λ y, eqb y x) before))
        :: rank_from (before ++ [x]) r all
  end.

Definition rank_first (xs : list A) : list (option Z) := rank_from [] xs xs.
End Rank.

(** A rank column is a [float64] column. *)
Definition rank_column (ranks : list (option Z)) : list Float.t :=
  map (λ r, match r with Some k => Float.of_Z k | None => Float.nan end) ranks.

(** [np.linspace(0, 1, q + 1)]: multiples of the step [1 / q], and the end
    point itself. *)
Definition linspace01 (q : nat) : list Float.t :=
  let step := Float.div (Float.of_Z 1) (Float.of_Z (Z.of_nat q)) in
  map (λ k, if (k =? q)%nat then Float.of_Z 1
            else Float.add (Float.mul (Float.of_Z (Z.of_nat k)) step) Float.zero)
      (seq 0 (S q)).

(** [Series.quantile(qs)], which is [np.percentile(values, qs * 100)] with
    linear interpolation, on the sorted values [arr] of a column of
    integers ([sub] wraps) or of floats. *)
Section Quantile.
Context {A : Type} (to_float : A → Float.t) (sub : A → A → A) (d : A).

(** [_lerp(a, b, t)] of numpy. *)
Definition lerp (a b : A) (t : Float.t) : Float.t :=
  let diff_b_a := to_float (sub b a) in
  if Float.leb (Float.decimal 1 2) t
  then Float.sub (to_float b) (Float.mul diff_b_a (Float.sub (Float.of_Z 1) t))
  else Float.add (to_float a) (Float.mul diff_b_a t).

(** [arr[i]], where a negative index counts from the end. *)
Definition item (arr : list A) (i : Z) : A :=
  nth (Z.to_nat (if i <? 0 then Z.of_nat (length arr) + i else i)) arr d.

Definition quantile (arr : list A) (q : Float.t) : Float.t :=
  match arr with
  | [] => Float.nan
  | _ =>
      let n := Z.of_nat (length arr) in
      let q := Float.div (Float.mul q (Float.of_Z 100)) (Float.of_Z 100) in
      let virtual_index := Float.mul (Float.of_Z (n - 1)) q in
      let above := Float.leb (Float.of_Z (n - 1)) virtual_index in
      let below := Float.ltb virtual_index Float.zero in
      let previous :=
        if above then -1 else if below then 0 else Float.floor virtual_index in
      let next := if above then -1 else if below then 0 else previous + 1 in
      let gamma := Float.sub virtual_index (Float.of_Z previous) in
      lerp (item arr previous) (item arr next) gamma
  end.
End Quantile.

(** Ascending sort of floats that are not NaN. *)
Fixpoint insert_float (v : Float.t) (l : list Float.t) : list Float.t :=
  match l with
  | [] => [v]
  | x :: r => if Float.leb v x then v :: l else x :: insert_float v r
  end.

Definition sort_floats (l : list Float.t) : list Float.t :=
  fold_right insert_float [] l.

Definition dropna_floats (l : list Float.t) : list Float.t :=
  List.filter (λ v, negb (Float.is_nan v)) l.

(** The cells of a hash table of floats: NaN is one key, and so are the
    two zeros. *)
Definition same_key (x y : Float.t) : bool :=
  Float.eqb x y || (Float.is_nan x && Float.is_nan y).

(** [algos.unique]: first occurrences, in order. *)
Fixpoint unique (l : list Float.t) : list Float.t :=
  match l with
  | [] => []
  | x :: r => x :: List.filter (λ y, negb (same_key x y)) (unique r)
  end.

Fixpoint nodup_labels (l : list Z) : bool :=
  match l with
  | [] => true
  | x :: r => negb (existsb (Z.eqb x) r) && nodup_labels r
  end.

(** [bins.searchsorted(v, side='left')] on ascending edges: how many edges
    lie strictly below [v]. *)
Definition searchsorted_left (bins : list Float.t) (v : Float.t) : Z :=
  Z.of_nat (length (List.filter (λ b, Float.ltb b v) bins)).

(** [_bins_to_cuts(x, bins, labels=labels, include_lowest=True,
    duplicates='drop')]; a [None] cell is NaN. *)
Definition bins_to_cuts (x : list Float.t) (bins : list Float.t) (labels : list Z)
  : result (list (option Z)) :=
  let unique_bins := unique bins in
  let bins :=
    if (length unique_bins <? length bins)%nat && negb (length bins =? 2)%nat
    then unique_bins else bins in
  let nbins := Z.of_nat (length bins) in
  let cut (v : Float.t) : option Z :=
    let ids := searchsorted_left bins v in
    let ids :=
      match bins with
      | b0 :: _ => if Float.eqb v b0 then 1 else ids
      | [] => ids
      end in
    if Float.is_nan v || (ids =? nbins) || (ids =? 0) then None
    else nth_error labels (Z.to_nat (ids - 1)) in
  if negb (nodup_labels labels) then
    Raise (ValueError "labels must be unique if ordered=True; pass ordered=False for duplicate labels")
  else if negb (Z.of_nat (length labels) =? nbins - 1) then
    Raise (ValueError "Bin labels must be one fewer than the number of bin edges")
  else Ok (map cut x).

(** The edges that [pd.qcut(x, q=q, ...)] computes for an [int64] column
    and for a [float64] column. *)
Definition int_edges (x : list Z) (q : nat) : list Float.t :=
  map (quantile Float.of_Z (λ b a, wrap64 (b - a)) 0 (sort_values x)) (linspace01 q).

Definition float_edges (x : list Float.t) (q : nat) : list Float.t :=
  map (quantile (λ v, v) Float.sub Float.nan (sort_floats (dropna_floats x))) (linspace01 q).

(** [pd.qcut(x, q=q, labels=labels, duplicates='drop')]. *)
Definition qcut_int (x : list Z) (q : nat) (labels : list Z)
  : result (list (option Z)) :=
  bins_to_cuts (map Float.of_Z x) (int_edges x q) labels.

Definition qcut_float (x : list Float.t) (q : nat) (labels : list Z)
  : result (list (option Z)) :=
  bins_to_cuts x (float_edges x q) labels.

(** [.astype(int)] on a categorical of integer labels. *)
Fixpoint astype_int (l : list (option Z)) : result (list Z) :=
  match l with
  | [] => Ok []
  | None :: _ => Raise (ValueError "Cannot convert float NaN to integer")
  | Some v :: r =>
      match astype_int r with
      | Ok vs => Ok (v :: vs)
      | Raise e => Raise e
      end
  end.

End Pandas.

(** ** Tables *)

(** A row of the orders table, with the columns the engines read. *)
Module Order.
Record t : Type := mk {
  order_id : Z;
  customer_id : Z;
  order_date : Pandas.Timestamp;
  total_amount : Pandas.number
}.
End Order.

(** The orders DataFrame. [order_date_dtype] tells whether the date column
    still holds the text read from CSV or was converted by
    [pd.to_datetime]; [order_date] of a row is the day either one denotes. *)
Record OrdersDF : Type := {
  order_date_dtype : Pandas.dtype;
  order_rows : list Order.t
}.

(** A row of the customers table, with the columns the RFM engine joins. *)
Module Customer.
Record t : Type := mk {
  customer_id : Z;
  customer_name : string;
  country : string
}.
End Customer.

(** A row of [rfm_data]; the joined columns are [None] (null) for a
    customer absent from the customers table. *)
Module RfmRow.
Record t : Type := mk {
  customer_id : Z;
  recency : Z;
  frequency : Z;
  monetary : Pandas.number;
  r_score : Z;
  f_score : Z;
  m_score : Z;
  rfm_segment : string;
  customer_name : option string;
  country : option string
}.
End RfmRow.

(** A row of [cohort_data]: an order with its cohort columns. *)
Module CohortRow.
Record t : Type := mk {
  order_id : Z;
  customer_id : Z;
  order_date : Pandas.Timestamp;
  total_amount : Pandas.number;
  cohort_month : Z;
  order_month : Z;
  cohort_index : Z
}.
End CohortRow.

(** ** The heap of DataFrames and the files written by [to_csv] *)

Definition loc : Type := positive.

Inductive csv : Type :=
| RfmCsv (rows : list RfmRow.t)
| CohortCsv (rows : list CohortRow.t).

Record world : Type := {
  orders_frames : gmap loc OrdersDF;
  customers_frames : gmap loc (list Customer.t);
  files : gmap string csv
}.

Definition set_orders_frames (f : gmap loc OrdersDF) (w : world) : world :=
  {| orders_frames := f; customers_frames := customers_frames w; files := files w |}.
Definition set_customers_frames (f : gmap loc (list Customer.t)) (w : world) : world :=
  {| orders_frames := orders_frames w; customers_frames := f; files := files w |}.
Definition set_files (f : gmap string csv) (w : world) : world :=
  {| orders_frames := orders_frames w; customers_frames := customers_frames w; files := f |}.

(** Dereference. A Python name always refers to an object; [NameError]
    stands for a reference to nothing, which no constructor produces. *)
Definition read_orders (l : loc) : M world OrdersDF :=
  λ w, match orders_frames w !! l with
       | Some df => (w, Ok df)
       | None => (w, Raise (NameError "orders"))
       end.

Definition read_customers (l : loc) : M world (list Customer.t) :=
  λ w, match customers_frames w !! l with
       | Some df => (w, Ok df)
       | None => (w, Raise (NameError "customers"))
       end.

(** In-place update of the frame behind a reference. *)
Definition write_orders (l : loc) (df : OrdersDF) : M world unit :=
  λ w, (set_orders_frames (<[l := df]> (orders_frames w)) w, Ok tt).

(** Allocation of a new frame at an unused reference. *)
Definition alloc_orders (df : OrdersDF) : M world loc :=
  λ w, let l' := fresh (dom (orders_frames w)) in
       (set_orders_frames (<[l' := df]> (orders_frames w)) w, Ok l').

Definition alloc_customers (df : list Customer.t) : M world loc :=
  λ w, let l' := fresh (dom (customers_frames w)) in
       (set_customers_frames (<[l' := df]> (customers_frames w)) w, Ok l').

(** [df.copy()]: a new frame with the same contents. *)
Definition copy_orders (l : loc) : M world loc :=
  df ← read_orders l; alloc_orders df.

Definition copy_customers (l : loc) : M world loc :=
  df ← read_customers l; alloc_customers df.

(** [df['order_date'] = pd.to_datetime(df['order_date'])], as a frame. *)
Definition to_datetime_column (df : OrdersDF) : OrdersDF :=
  {| order_date_dtype := Pandas.datetime64; order_rows := order_rows df |}.

(** [df.to_csv(path)]. *)
Definition to_csv (path : string) (c : csv) : M world unit :=
  λ w, (set_files (<[path := c]> (files w)) w, Ok tt).

(** Methods run on the heap together with the receiver object. *)
Definition on_world {O A} (m : M world A) : M (world * O) A :=
  λ '(w, self), let '(w', r) := m w in ((w', self), r).
Definition get_self {O} : M (world * O) O := λ '(w, self), ((w, self), Ok self).
Definition set_self {O} (self : O) : M (world * O) unit :=
  λ '(w, _), ((w, self), Ok tt).

(** ** The RFM engine ([src/rfm.analysis.py]) *)

Module RFM.
Import Pandas.

(** The object: two references to its own frames, and [rfm_data]. *)
Record RFMAnalysis : Type := {
  orders : loc;
  customers : loc;
  rfm_data : option (list RfmRow.t)
}.

Definition St : Type := world * RFMAnalysis.

Definition __init__ (orders_df customers_df : loc) : M world RFMAnalysis :=
  o ← copy_orders orders_df;
  c ← copy_customers customers_df;
  mret {| orders := o; customers := c; rfm_data := None |}.

Definition _assign_segment (r f m : Z) : string :=
  if (4 <=? r) && (4 <=? f) && (4 <=? m) then "Champions"
  else if (3 <=? r) && (3 <=? f) && (3 <=? m) then "Loyal"
  else if (3 <=? r) && (f <=? 2) then "Potential Loyalist"
  else if (r <=? 2) && (3 <=? f) then "At Risk"
  else if (r <=? 2) && (f <=? 2) && (3 <=? m) then "Cant Lose"
  else if (r <=? 2) && (f <=? 2) then "Lost"
  else "Others".

(** One row of the grouped frame before scoring. *)
Record metrics : Type := {
  m_customer_id : Z;
  m_recency : Z;
  m_frequency : Z;
  m_monetary : number
}.

Definition group_of (c : Z) (rows : list Order.t) : list Order.t :=
  List.filter (λ o, Order.customer_id o =? c) rows.

(** [orders.groupby('customer_id').agg({...}).reset_index()]. The sum
    is taken in the dtype of the [total_amount] column. *)
Definition agg (reference_date : Timestamp) (rows : list Order.t) : list metrics :=
  let int_dtype := int_column (map Order.total_amount rows) in
  map (λ c, let x := group_of c rows in
            {| m_customer_id := c;
               m_recency := reference_date - series_max 0 (map Order.order_date x);
               m_frequency := Z.of_nat (length x);
               m_monetary := group_sum int_dtype (map Order.total_amount x) |})
      (sorted_keys (map Order.customer_id rows)).

(** The three score columns and the segment, row by row. *)
Fixpoint scored (rfm : list metrics) (rs fs ms : list Z)
  : list (metrics * Z * Z * Z * string) :=
  match rfm, rs, fs, ms with
  | x :: rfm', r :: rs', f :: fs', m :: ms' =>
      (x, r, f, m, _assign_segment r f m) :: scored rfm' rs' fs' ms'
  | _, _, _, _ => []
  end.

(** [rfm.merge(customers[[...]], on='customer_id', how='left')]. *)
Definition merge_left (rfm : list (metrics * Z * Z * Z * string))
    (cust : list Customer.t) : list RfmRow.t :=
  flat_map
    (λ '(x, r, f, m, seg),
       let row (name ctry : option string) :=
         RfmRow.mk (m_customer_id x) (m_recency x) (m_frequency x) (m_monetary x)
                   r f m seg name ctry in
       match List.filter (λ c, Customer.customer_id c =? m_customer_id x) cust with
       | [] => [row None None]
       | matches =>
           map (λ c, row (Some (Customer.customer_name c)) (Some (Customer.country c)))
               matches
       end)
    rfm.

Definition calculate_rfm (reference_date : option Timestamp) : M St (list RfmRow.t) :=
  self ← get_self;
  df ← on_world (read_orders (orders self));
  let reference_date :=
    match reference_date with
    | Some d => d
    | None => series_max 0 (map Order.order_date (order_rows df))
    end in
  _ ← on_world (write_orders (orders self) (to_datetime_column df));
  let rfm := agg reference_date (order_rows df) in
  r_cat ← lift_result (qcut_int (map m_recency rfm) 5 [5; 4; 3; 2; 1]);
  f_cat ← lift_result
    (qcut_float
       (rank_column (rank_first (λ _, false) Z.ltb Z.eqb (map m_frequency rfm)))
       5 [1; 2; 3; 4; 5]);
  m_cat ← lift_result
    (qcut_float
       (rank_column (rank_first number_isna number_ltb number_eqb
                       (map m_monetary rfm)))
       5 [1; 2; 3; 4; 5]);
  rs ← lift_result (astype_int r_cat);
  fs ← lift_result (astype_int f_cat);
  ms ← lift_result (astype_int m_cat);
  cust ← on_world (read_customers (customers self));
  let rfm := merge_left (scored rfm rs fs ms) cust in
  _ ← set_self {| orders := orders self; customers := customers self;
                  rfm_data := Some rfm |};
  mret rfm.

(** A row of the segment summary. *)
Record summary_row : Type := {
  s_rfm_segment : string;
  customer_count : Z;
  avg_recency : Float.t;
  avg_frequency : Float.t;
  avg_monetary : Float.t;
  total_revenue : number;
  revenue_percentage : Float.t
}.

Fixpoint insert_label (k : string) (l : list string) : list string :=
  match l with
  | [] => [k]
  | x :: r =>
      if String.ltb k x then k :: l
      else if String.eqb k x then l
      else x :: insert_label k r
  end.

Definition sorted_labels (l : list string) : list string :=
  fold_right insert_label [] l.

Definition segment_rows (rfm : list RfmRow.t) : list summary_row :=
  let int_dtype := int_column (map RfmRow.monetary rfm) in
  let by_segment :=
    map (λ seg,
           let x := List.filter (λ r, String.eqb (RfmRow.rfm_segment r) seg) rfm in
           (seg,
            Z.of_nat (length x),
            Float.np_round 2 (group_mean (map (λ r, Float.of_Z (RfmRow.recency r)) x)),
            Float.np_round 2 (group_mean (map (λ r, Float.of_Z (RfmRow.frequency r)) x)),
            Float.np_round 2 (group_mean (map (λ r, to_float (RfmRow.monetary r)) x)),
            round2 (group_sum int_dtype (map RfmRow.monetary x))))
        (sorted_labels (map RfmRow.rfm_segment rfm)) in
  let total :=
    series_sum int_dtype (map (λ '(_, _, _, _, _, rev), rev) by_segment) in
  map (λ '(seg, n, r, f, m, rev),
         {| s_rfm_segment := seg; customer_count := n; avg_recency := r;
            avg_frequency := f; avg_monetary := m; total_revenue := rev;
            revenue_percentage :=
              Float.np_round 2
                (Float.mul (Float.div (to_float rev) (to_float total))
                           (Float.of_Z 100)) |})
      by_segment.

Definition get_segment_summary : M St (list summary_row) :=
  self ← get_self;
  match rfm_data self with
  | None => raise (ValueError "Run calculate_rfm() first")
  | Some rfm => mret (segment_rows rfm)
  end.

Definition export_results (output_path : string) : M St unit :=
  self ← get_self;
  match rfm_data self with
  | None => raise (ValueError "Run calculate_rfm() first")
  | Some rfm => on_world (to_csv output_path (RfmCsv rfm))
  end.

End RFM.

(** ** The cohort engine ([src/cohort_analysis.py]) *)

Module Cohort.
Import Pandas.

Record CohortAnalysis : Type := {
  orders : loc;
  cohort_data : option (list CohortRow.t)
}.

Definition St : Type := world * CohortAnalysis.

Definition __init__ (orders_df : loc) : M world CohortAnalysis :=
  o ← copy_orders orders_df;
  df ← read_orders o;
  _ ← write_orders o (to_datetime_column df);
  mret {| orders := o; cohort_data := None |}.

Definition group_of (c : Z) (rows : list Order.t) : list Order.t :=
  List.filter (λ o, Order.customer_id o =? c) rows.

(** The [cohort_date] of a customer: the earliest of its order dates. *)
Definition cohort_date (c : Z) (rows : list Order.t) : Timestamp :=
  series_min 0 (map Order.order_date (group_of c rows)).

(** The columns [customer_id] and [cohort_month] of [first_purchase]. *)
Definition first_purchase (rows : list Order.t) : list (Z * Z) :=
  map (λ c, (c, to_period_M (cohort_date c rows)))
      (sorted_keys (map Order.customer_id rows)).

(** [orders.merge(first_purchase[[...]], on='customer_id')] followed by
    the two derived columns. *)
Definition with_cohort_columns (rows : list Order.t) (fp : list (Z * Z))
  : list CohortRow.t :=
  flat_map
    (λ o,
       map (λ '(_, cohort_month),
              let order_month := to_period_M (Order.order_date o) in
              CohortRow.mk (Order.order_id o) (Order.customer_id o)
                (Order.order_date o) (Order.total_amount o)
                cohort_month order_month (order_month - cohort_month))
           (List.filter (λ '(c, _), c =? Order.customer_id o) fp))
    rows.

Definition create_cohorts : M St (list CohortRow.t) :=
  self ← get_self;
  df ← on_world (read_orders (orders self));
  let first_purchase := first_purchase (order_rows df) in
  let cohort_data := with_cohort_columns (order_rows df) first_purchase in
  _ ← set_self {| orders := orders self; cohort_data := Some cohort_data |};
  mret cohort_data.

(** The guard [if self.cohort_data is None: self.create_cohorts()] and the
    read of [self.cohort_data] that follows it. *)
Definition cohort_data_or_create : M St (list CohortRow.t) :=
  self ← get_self;
  match cohort_data self with
  | None => create_cohorts
  | Some data => mret data
  end.

(** A wide table: row labels, column labels, and one list of cells per
    row, aligned with the column labels; [None] is NaN. *)
Record table (A : Type) : Type := {
  index : list Z;
  columns : list Z;
  values : list (list (option A))
}.
Arguments index {A} t.
Arguments columns {A} t.
Arguments values {A} t.

Definition in_cell (c k : Z) (r : CohortRow.t) : bool :=
  (CohortRow.cohort_month r =? c) && (CohortRow.cohort_index r =? k).

(** [groupby(['cohort_month', 'cohort_index'])]: the non-empty groups, in
    lexicographic order of their keys. *)
Definition groups (data : list CohortRow.t) : list (Z * Z * list CohortRow.t) :=
  flat_map
    (λ c, flat_map
            (λ k, match List.filter (in_cell c k) data with
                  | [] => []
                  | x => [(c, k, x)]
                  end)
            (sorted_keys (map CohortRow.cohort_index data)))
    (sorted_keys (map CohortRow.cohort_month data)).

(** [.agg({'customer_id': pd.Series.nunique}).reset_index()]. *)
Definition cohort_pivot (data : list CohortRow.t) : list (Z * Z * Z) :=
  map (λ '(c, k, x), (c, k, nunique (map CohortRow.customer_id x))) (groups data).

(** [.pivot(index='cohort_month', columns='cohort_index',
    values='customer_id')]; the keys of a grouped frame do not repeat. *)
Definition pivot (long : list (Z * Z * Z)) : table Z :=
  let index := sorted_keys (map (λ '(c, _, _), c) long) in
  let columns := sorted_keys (map (λ '(_, k, _), k) long) in
  {| index := index;
     columns := columns;
     values :=
       map (λ c, map (λ k, match List.find (λ '(c', k', _), (c' =? c) && (k' =? k)) long with
                           | Some (_, _, n) => Some n
                           | None => None
                           end)
                     columns)
           index |}.

(** [t.iloc[:, 0]]. *)
Definition iloc_first_column {A} (t : table A) : result (list (option A)) :=
  match columns t with
  | [] => Raise (IndexError "single positional indexer is out-of-bounds")
  | _ :: _ => Ok (map (λ row, match row with v :: _ => v | [] => None end) (values t))
  end.

(** One cell of [t.divide(size, axis=0) * 100]; NaN on either side gives
    NaN. *)
Definition percent_of (v s : option Z) : option Q :=
  match v, s with
  | Some a, Some b => Some (inject_Z a / inject_Z b * 100)%Q
  | _, _ => None
  end.

(** [t.divide(size, axis=0) * 100]. *)
Definition divide_rows_times_100 (t : table Z) (size : list (option Z)) : table Q :=
  {| index := index t;
     columns := columns t;
     values := map (λ '(row, s), map (λ v, percent_of v s) row) (combine (values t) size) |}.

Definition calculate_retention : M St (table Z * table Q) :=
  data ← cohort_data_or_create;
  let cohort_table := pivot (cohort_pivot data) in
  cohort_size ← lift_result (iloc_first_column cohort_table);
  let retention_table := divide_rows_times_100 cohort_table cohort_size in
  mret (cohort_table, retention_table).

Record metrics_row : Type := {
  m_cohort_month : Z;
  m_cohort_index : Z;
  m_customers : Z;
  m_orders : Z;
  m_revenue : number;
  avg_revenue_per_customer : Float.t
}.

Definition calculate_cohort_metrics : M St (list metrics_row) :=
  data ← cohort_data_or_create;
  let int_dtype := int_column (map CohortRow.total_amount data) in
  mret (map (λ '(c, k, x),
               let customers := nunique (map CohortRow.customer_id x) in
               let revenue := group_sum int_dtype (map CohortRow.total_amount x) in
               {| m_cohort_month := c; m_cohort_index := k;
                  m_customers := customers;
                  m_orders := Z.of_nat (length x);
                  m_revenue := revenue;
                  avg_revenue_per_customer :=
                    Float.np_round 2
                      (Float.div (to_float revenue) (Float.of_Z customers)) |})
            (groups data)).

Fixpoint position (k : Z) (cols : list Z) : option nat :=
  match cols with
  | [] => None
  | x :: r => if x =? k then Some O else option_map S (position k r)
  end.

(** [k in t.columns]. *)
Definition has_column {A} (t : table A) (k : Z) : bool :=
  existsb (Z.eqb k) (columns t).

(** [t[k]]: the column labelled [k]. *)
Definition getitem {A} (t : table A) (k : Z) : result (list (option A)) :=
  match position k (columns t) with
  | None => Raise (KeyError (KInt k))
  | Some i => Ok (map (λ row, nth i row None) (values t))
  end.

(** [t.loc[c, k]] where both labels exist; [None] is NaN or a missing
    label. *)
Definition cell {A} (t : table A) (c k : Z) : option A :=
  match position c (index t), position k (columns t) with
  | Some i, Some j => nth j (nth i (values t) []) None
  | _, _ => None
  end.

Fixpoint dropna {A} (col : list (option A)) : list A :=
  match col with
  | [] => []
  | Some v :: r => v :: dropna r
  | None :: r => dropna r
  end.

(** [Series.mean()], which skips NaN. *)
Definition mean (col : list (option Q)) : Q := Qmean (dropna col).

Record retention_summary : Type := {
  month_1_retention : Q;
  month_3_retention : option Q;
  month_6_retention : option Q;
  month_12_retention : option Q;
  avg_cohort_size : Q
}.

(** [t[k].mean() if k in t.columns else None]. *)
Definition mean_if_present (t : table Q) (k : Z) : result (option Q) :=
  if has_column t k then
    match getitem t k with
    | Ok col => Ok (Some (mean col))
    | Raise e => Raise e
    end
  else Ok None.

Definition get_retention_summary : M St retention_summary :=
  '(cohort_table, retention_table) ← calculate_retention;
  m1 ← lift_result (getitem retention_table 1);
  m3 ← lift_result (mean_if_present retention_table 3);
  m6 ← lift_result (mean_if_present retention_table 6);
  m12 ← lift_result (mean_if_present retention_table 12);
  size ← lift_result (getitem cohort_table 0);
  mret {| month_1_retention := mean m1;
          month_3_retention := m3;
          month_6_retention := m6;
          month_12_retention := m12;
          avg_cohort_size := Qmean (map inject_Z (dropna size)) |}.

Definition export_results (output_path : string) : M St unit :=
  data ← cohort_data_or_create;
  on_world (to_csv output_path (CohortCsv data)).

End Cohort.

(** ** The synthetic data generator ([src/generate_sample_data.py]) *)

Module Generator.
Import Pandas.

(** *** The random source

    The seeded generator is the sequence of its raw outputs. A
    computation reads them from the front; [None] means that it asks for
    more of them than the sequence holds. *)
Definition G (A : Type) : Type := list Z → option (list Z * result A).

Definition g_ret {A} (a : A) : G A := λ draws, Some (draws, Ok a).
Definition g_raise {A} (e : exn) : G A := λ draws, Some (draws, Raise e).
Definition g_bind {A B} (m : G A) (k : A → G B) : G B :=
  λ draws, match m draws with
           | Some (rest, Ok a) => k a rest
           | Some (rest, Raise e) => Some (rest, Raise e)
           | None => None
           end.
Global Instance G_ret : MRet G := @g_ret.
Global Instance G_bind : MBind G := λ A B k m, g_bind m k.

Definition next_raw : G Z :=
  λ draws, match draws with
           | [] => None
           | r :: rest => Some (rest, Ok r)
           end.

(** [Random._randbelow(n)]: an integer in [[0, n)]. *)
Definition _randbelow (n : Z) : G Z := r ← next_raw; mret (r mod n).

(** [random.random()]: a float in [[0, 1)] with 53 bits. *)
Definition random : G Float.t :=
  r ← next_raw; mret (Float.ldexp (r mod 2 ^ 53) (-53)).

(** [random.randint(a, b)]: both ends included. *)
Definition randint (a b : Z) : G Z := j ← _randbelow (b - a + 1); mret (a + j).

(** [random.uniform(a, b)] for integers [a] and [b]:
    [a + (b - a) * self.random()]. *)
Definition uniform (a b : Z) : G Float.t :=
  u ← random; mret (Float.add (Float.of_Z a) (Float.mul (Float.of_Z (b - a)) u)).

(** [random.choice(seq)]. *)
Definition choice {A} (seq : list A) : G A :=
  match seq with
  | [] => g_raise (IndexError "Cannot choose from an empty sequence")
  | x :: _ => j ← _randbelow (Z.of_nat (length seq)); mret (nth (Z.to_nat j) seq x)
  end.

(** [itertools.accumulate(weights)]. *)
Fixpoint accumulate_from (acc : Float.t) (weights : list Float.t) : list Float.t :=
  match weights with
  | [] => []
  | w :: r => Float.add acc w :: accumulate_from (Float.add acc w) r
  end.

Definition accumulate (weights : list Float.t) : list Float.t :=
  match weights with
  | [] => []
  | w :: r => w :: accumulate_from w r
  end.

(** [bisect(a, x, 0, hi)] on an ascending list: how many of the first
    [hi] entries are at most [x]. *)
Definition bisect (a : list Float.t) (x : Float.t) (hi : nat) : nat :=
  length (List.filter (λ c, Float.leb c x) (firstn hi a)).

(** [random.choices(population, weights=weights)[0]] for finite
    weights. *)
Definition choices1 {A} (population : list A) (weights : list Float.t) : G A :=
  let cum_weights := accumulate weights in
  match population with
  | [] => g_raise (IndexError "list index out of range")
  | x :: _ =>
      if negb (length cum_weights =? length population)%nat then
        g_raise (ValueError "The number of weights does not match the population")
      else
        let total := Float.add (List.last cum_weights Float.zero) Float.zero in
        if Float.leb total Float.zero then
          g_raise (ValueError "Total of weights must be greater than zero")
        else
          u ← random;
          mret (nth (bisect cum_weights (Float.mul u total) (length population - 1))
                    population x)
  end.

(** The loop of [random.sample] that draws until it finds an index not
    selected before. *)
Fixpoint draw_unselected (n : Z) (selected : list Z) (draws : list Z)
  : option (list Z * result Z) :=
  match draws with
  | [] => None
  | r :: rest =>
      let j := r mod n in
      if existsb (Z.eqb j) selected then draw_unselected n selected rest
      else Some (rest, Ok j)
  end.

Fixpoint sample_set (k : nat) (n : Z) (population selected : list Z) : G (list Z) :=
  match k with
  | O => mret []
  | S k' =>
      j ← draw_unselected n selected;
      rest ← sample_set k' n population (j :: selected);
      mret (nth (Z.to_nat j) population 0 :: rest)
  end.

Fixpoint sample_pool (k : nat) (n : Z) (pool : list Z) : G (list Z) :=
  match k with
  | O => mret []
  | S k' =>
      j ← _randbelow n;
      let x := nth (Z.to_nat j) pool 0 in
      let pool := <[Z.to_nat j := nth (Z.to_nat (n - 1)) pool 0]> pool in
      rest ← sample_pool k' (n - 1) pool;
      mret (x :: rest)
  end.

(** [random.sample(population, k)] for [k <= 5], where the threshold
    between its two algorithms is 21. *)
Definition sample (population : list Z) (k : Z) : G (list Z) :=
  let n := Z.of_nat (length population) in
  if (k <? 0) || (n <? k) then
    g_raise (ValueError "Sample larger than population or is negative")
  else if n <=? 21 then sample_pool (Z.to_nat k) n population
  else sample_set (Z.to_nat k) n population [].

(** [range(a, b)]. *)
Definition range (a b : Z) : list Z :=
  map (λ i, a + Z.of_nat i) (seq 0 (Z.to_nat (b - a))).

(** [for x in xs: s = body(x, s)]. *)
Fixpoint for_each {A S} (xs : list A) (body : A → S → G S) (s : S) : G S :=
  match xs with
  | [] => mret s
  | x :: r => s' ← body x s; for_each r body s'
  end.

(** The same with [break]: the body answers [inl] to leave the loop. *)
Fixpoint for_each_break {A S} (xs : list A) (body : A → S → G (S + S)) (s : S) : G S :=
  match xs with
  | [] => mret s
  | x :: r =>
      o ← body x s;
      match o with
      | inl s' => mret s'
      | inr s' => for_each_break r body s'
      end
  end.

(** *** Configuration *)

Definition NUM_CUSTOMERS : Z := 5000.
Definition START_DATE : Timestamp := days_from_civil 2022 1 1.
Definition END_DATE : Timestamp := days_from_civil 2024 11 30.

Definition countries : list string :=
  ["USA"; "UK"; "Germany"; "France"; "Canada"; "Australia"; "India"; "Japan"].

Definition cities : list (string * list string) :=
  [("USA", ["New York"; "Los Angeles"; "Chicago"; "Houston"]);
   ("UK", ["London"; "Manchester"; "Birmingham"]);
   ("Germany", ["Berlin"; "Munich"; "Hamburg"]);
   ("France", ["Paris"; "Lyon"; "Marseille"]);
   ("Canada", ["Toronto"; "Vancouver"; "Montreal"]);
   ("Australia", ["Sydney"; "Melbourne"; "Brisbane"]);
   ("India", ["Mumbai"; "Delhi"; "Bangalore"; "Hyderabad"]);
   ("Japan", ["Tokyo"; "Osaka"; "Kyoto"])].

Definition categories : list (string * list string) :=
  [("Electronics", ["Laptop"; "Phone"; "Tablet"; "Headphones"; "Camera"; "Smartwatch"]);
   ("Clothing", ["Shirt"; "Pants"; "Dress"; "Jacket"; "Shoes"; "Hat"]);
   ("Home", ["Chair"; "Table"; "Lamp"; "Rug"; "Cushion"; "Mirror"]);
   ("Books", ["Fiction"; "Non-Fiction"; "Educational"; "Comics"]);
   ("Sports", ["Ball"; "Racket"; "Weights"; "Yoga Mat"; "Bicycle"])].

Definition price_ranges : list (string * (Z * Z)) :=
  [("Electronics", (50, 1500)); ("Clothing", (20, 200)); ("Home", (30, 500));
   ("Books", (10, 50)); ("Sports", (15, 300))].

(** [d[k]] on a dict. *)
Definition dict_get {V} (dict : list (string * V)) (k : string) : G V :=
  match List.find (λ '(k', _), String.eqb k' k) dict with
  | Some (_, v) => mret v
  | None => g_raise (KeyError (KStr k))
  end.

(** *** The four tables *)

Module CustomerRec.
Record t : Type := mk {
  customer_id : Z;
  customer_name : string;
  email : string;
  country : string;
  city : string;
  registration_date : Timestamp
}.
End CustomerRec.

Module ProductRec.
Record t : Type := mk {
  product_id : Z;
  product_name : string;
  category : string;
  sub_category : string;
  unit_price : Float.t
}.
End ProductRec.

Module OrderRec.
Record t : Type := mk {
  order_id : Z;
  customer_id : Z;
  order_date : Timestamp;
  ship_date : Timestamp;
  total_amount : Float.t;
  order_status : string
}.
End OrderRec.

Module ItemRec.
Record t : Type := mk {
  order_item_id : Z;
  order_id : Z;
  product_id : Z;
  quantity : Z;
  unit_price : Float.t;
  discount : Float.t;
  line_total : Float.t
}.
End ItemRec.

(** *** Customers *)

Definition customers_body (i : Z) (customers : list CustomerRec.t)
  : G (list CustomerRec.t) :=
  country ← choice countries;
  towns ← dict_get cities country;
  city ← choice towns;
  days ← randint 0 (END_DATE - START_DATE);
  let reg_date := START_DATE + days in
  mret (customers ++
        [CustomerRec.mk i ("Customer_" +:+ pretty i)
           ("customer" +:+ pretty i +:+ "@email.com") country city reg_date]).

Definition customers_loop : G (list CustomerRec.t) :=
  for_each (range 1 (NUM_CUSTOMERS + 1)) customers_body [].

(** *** Products *)

Definition products_body (category sub : string) (i : Z)
    (st : list ProductRec.t * Z) : G (list ProductRec.t * Z) :=
  let '(products, product_id) := st in
  '(price_min, price_max) ← dict_get price_ranges category;
  price ← uniform price_min price_max;
  mret (products ++
        [ProductRec.mk product_id (sub +:+ " Model " +:+ pretty i) category sub
           (Float.py_round 2 price)],
        product_id + 1).

Definition products_loop : G (list ProductRec.t) :=
  '(products, _) ←
    for_each categories
      (λ '(category, subcategories),
         for_each subcategories
           (λ sub, for_each (range 1 8) (products_body category sub)))
      ([], 1);
  mret products.

(** *** Orders and order items *)

Record order_state : Type := {
  orders : list OrderRec.t;
  order_items : list ItemRec.t;
  order_id : Z;
  order_item_id : Z
}.

(** [df[df[col] == v].iloc[0]] *)
Definition iloc0_where {A} (p : A → bool) (df : list A) : G A :=
  match List.find p df with
  | Some row => mret row
  | None => g_raise (IndexError "single positional indexer is out-of-bounds")
  end.

(** The six discounts to choose from; the integer [0] is held as [0.0]
    by the float column it ends up in, and [1 - 0] multiplies as [1.0]. *)
Definition discounts : list Float.t :=
  [Float.zero; Float.zero; Float.zero;
   Float.decimal 5 100; Float.decimal 10 100; Float.decimal 15 100].

(** The body of the loop over the products of an order. The unit price
    read from the products frame is a numpy scalar, and so are the line
    total and the order total: their [round] is numpy's. *)
Definition items_body (df_products : list ProductRec.t) (order_id prod_id : Z)
    (st : Float.t * list ItemRec.t * Z) : G (Float.t * list ItemRec.t * Z) :=
  let '(order_total, order_items, order_item_id) := st in
  product ← iloc0_where (λ p, ProductRec.product_id p =? prod_id) df_products;
  quantity ← randint 1 3;
  discount ← choice discounts;
  let line_total :=
    Float.mul (Float.mul (ProductRec.unit_price product) (Float.of_Z quantity))
              (Float.sub (Float.of_Z 1) discount) in
  mret (Float.add order_total line_total,
        order_items ++
        [ItemRec.mk order_item_id order_id prod_id quantity
           (ProductRec.unit_price product) discount (Float.np_round 2 line_total)],
        order_item_id + 1).

Definition order_body (df_products : list ProductRec.t)
    (cust_id : Z) (cust_reg_date : Timestamp) (order_num : Z)
    (st : Timestamp * order_state)
  : G (Timestamp * order_state + Timestamp * order_state) :=
  let '(last_order_date, os) := st in
  order_date ←
    (if order_num =? 0 then days ← randint 0 7; mret (cust_reg_date + days)
     else days_gap ← randint 7 90; mret (last_order_date + days_gap));
  if END_DATE <? order_date then mret (inl st)
  else
    let last_order_date := order_date in
    days ← randint 1 5;
    let ship_date := order_date + days in
    num_items ← randint 1 5;
    order_products ←
      sample (range 1 (Z.of_nat (length df_products) + 1)) num_items;
    '(order_total, order_items, order_item_id) ←
      for_each order_products (items_body df_products (order_id os))
        (Float.zero, order_items os, order_item_id os);
    mret (inr (last_order_date,
               {| orders := orders os ++
                    [OrderRec.mk (order_id os) cust_id order_date ship_date
                       (Float.np_round 2 order_total) "Completed"];
                  order_items := order_items;
                  order_id := order_id os + 1;
                  order_item_id := order_item_id |})).

Definition customer_orders (df_customers : list CustomerRec.t)
    (df_products : list ProductRec.t) (cust_id : Z) (os : order_state)
  : G order_state :=
  cust ← iloc0_where (λ c, CustomerRec.customer_id c =? cust_id) df_customers;
  let cust_reg_date := CustomerRec.registration_date cust in
  behavior_type ←
    choices1 ["champion"; "loyal"; "occasional"; "one_time"]%string
             [Float.decimal 15 100; Float.decimal 25 100;
              Float.decimal 35 100; Float.decimal 25 100];
  num_orders ←
    (if String.eqb behavior_type "champion" then randint 8 20
     else if String.eqb behavior_type "loyal" then randint 4 8
     else if String.eqb behavior_type "occasional" then randint 2 4
     else mret 1);
  '(_, os) ←
    for_each_break (range 0 num_orders)
      (order_body df_products cust_id cust_reg_date) (cust_reg_date, os);
  mret os.

Record tables : Type := {
  df_customers : list CustomerRec.t;
  df_products : list ProductRec.t;
  df_orders : list OrderRec.t;
  df_order_items : list ItemRec.t
}.

(** The script, from the customers to the four DataFrames. *)
Definition generate : G tables :=
  customers ← customers_loop;
  products ← products_loop;
  os ← for_each (range 1 (NUM_CUSTOMERS + 1)) (customer_orders customers products)
         {| orders := []; order_items := []; order_id := 1; order_item_id := 1 |};
  mret {| df_customers := customers; df_products := products;
          df_orders := orders os; df_order_items := order_items os |}.

End Generator.



(** ** The segment rules as the specification words them

    An ordered table of (condition, label) pairs, read from the top; the
    first condition that holds gives the label, and the label is [Others]
    when none holds. *)

Definition segment_rules : list ((Z → Z → Z → bool) * string) :=
  [ (λ r f m, (r >=? 4) && (f >=? 4) && (m >=? 4), "Champions");
    (λ r f m, (r >=? 3) && (f >=? 3) && (m >=? 3), "Loyal");
    (λ r f m, (r >=? 3) && (f <=? 2), "Potential Loyalist");
    (λ r f m, (r <=? 2) && (f >=? 3), "At Risk");
    (λ r f m, (r <=? 2) && (f <=? 2) && (m >=? 3), "Cant Lose");
    (λ r f m, (r <=? 2) && (f <=? 2), "Lost") ].

Fixpoint first_match (rules : list ((Z → Z → Z → bool) * string)) (r f m : Z) : string :=
  match rules with
  | [] => "Others"
  | (holds, label) :: rest => if holds r f m then label else first_match rest r f m
  end.

(** ** Clients of the two engines

    A caller holds its own references and calls the methods in any order,
    going on after an exception. *)

Inductive rfm_call : Type :=
| CalculateRfm (reference_date : option Pandas.Timestamp)
| GetSegmentSummary
| RfmExportResults (output_path : string).

Definition rfm_do (c : rfm_call) (s : RFM.St) : RFM.St :=
  match c with
  | CalculateRfm d => fst (RFM.calculate_rfm d s)
  | GetSegmentSummary => fst (RFM.get_segment_summary s)
  | RfmExportResults p => fst (RFM.export_results p s)
  end.

Inductive cohort_call : Type :=
| CreateCohorts
| CalculateRetention
| CalculateCohortMetrics
| GetRetentionSummary
| CohortExportResults (output_path : string).

Definition cohort_do (c : cohort_call) (s : Cohort.St) : Cohort.St :=
  match c with
  | CreateCohorts => fst (Cohort.create_cohorts s)
  | CalculateRetention => fst (Cohort.calculate_retention s)
  | CalculateCohortMetrics => fst (Cohort.calculate_cohort_metrics s)
  | GetRetentionSummary => fst (Cohort.get_retention_summary s)
  | CohortExportResults p => fst (Cohort.export_results p s)
  end.

(** The heap after constructing an engine on the caller's frames and
    making the calls; the heap as it is when the constructor raises. *)
Definition rfm_session (orders_df customers_df : loc) (calls : list rfm_call)
    (w : world) : world :=
  match RFM.__init__ orders_df customers_df w with
  | (w', Ok self) => fst (fold_left (λ s c, rfm_do c s) calls (w', self))
  | (w', Raise _) => w'
  end.

Definition cohort_session (orders_df : loc) (calls : list cohort_call)
    (w : world) : world :=
  match Cohort.__init__ orders_df w with
  | (w', Ok self) => fst (fold_left (λ s c, cohort_do c s) calls (w', self))
  | (w', Raise _) => w'
  end.

(** A heap with the given frames and no file. *)
Definition mk_world (o : list (loc * OrdersDF)) (c : list (loc * list Customer.t)) : world :=
  {| orders_frames := list_to_map o; customers_frames := list_to_map c; files := ∅ |}.

(** ** Sample inputs *)

Definition day (y m d : Z) : Pandas.Timestamp := Pandas.days_from_civil y m d.

(** An amount of money given in cents, as the float read from CSV. *)
Definition cents (c : Z) : Pandas.number := Pandas.Float64 (Float.decimal c 100).

(** Six orders of three customers, as read from CSV. *)
Definition sample_orders : OrdersDF :=
  {| order_date_dtype := Pandas.object_;
     order_rows :=
       [ Order.mk 1 1 (day 2023 1 31) (cents 1000);
         Order.mk 2 2 (day 2023 2 1) (cents 2000);
         Order.mk 3 1 (day 2023 2 28) (cents 500);
         Order.mk 4 3 (day 2023 1 5) (cents 700);
         Order.mk 5 3 (day 2023 4 5) (cents 700);
         Order.mk 6 2 (day 2023 3 5) (cents 700) ] |}.

Definition sample_customers : list Customer.t :=
  [ Customer.mk 1 "Customer_1" "USA"; Customer.mk 2 "Customer_2" "UK" ].

(** The caller's heap: the two tables at references 1 and 1. *)
Definition sample_world : world :=
  mk_world [(1%positive, sample_orders)] [(1%positive, sample_customers)].

(** The engines right after construction on the caller's tables. *)
Definition sample_rfm : RFM.St :=
  ({| orders_frames := <[2%positive := sample_orders]> (orders_frames sample_world);
      customers_frames := <[2%positive := sample_customers]> (customers_frames sample_world);
      files := ∅ |},
   {| RFM.orders := 2%positive; RFM.customers := 2%positive; RFM.rfm_data := None |}).

Definition sample_cohort : Cohort.St :=
  ({| orders_frames :=
        <[2%positive := to_datetime_column sample_orders]> (orders_frames sample_world);
      customers_frames := customers_frames sample_world;
      files := ∅ |},
   {| Cohort.orders := 2%positive; Cohort.cohort_data := None |}).

(** Two customers whose only orders fall on the same day. *)
Definition same_day_orders : OrdersDF :=
  {| order_date_dtype := Pandas.object_;
     order_rows := [ Order.mk 1 1 (day 2023 5 1) (cents 1000);
                     Order.mk 2 2 (day 2023 5 1) (cents 2000) ] |}.

Definition same_day_rfm : RFM.St :=
  ({| orders_frames := {[ 1%positive := same_day_orders ]};
      customers_frames := {[ 1%positive := sample_customers ]};
      files := ∅ |},
   {| RFM.orders := 1%positive; RFM.customers := 1%positive; RFM.rfm_data := None |}).

(** The RFM table of the sample, with the reference date left unset. *)
Definition sample_rfm_rows : list RfmRow.t :=
  Eval vm_compute in
    match snd (RFM.calculate_rfm None sample_rfm) with
    | Ok rows => rows
    | Raise _ => []
    end.

(** ** Auxiliary notions of the proofs *)

(** The calendar of one 400-year era, by the day of the era: the year of
    the era, the day of that year (years start in March), and the month of
    the era. *)
Definition era_year (doe : Z) : Z :=
  (doe - doe / 1460 + doe / 36524 - doe / 146096) / 365.
Definition era_year_day (doe : Z) : Z :=
  doe - (365 * era_year doe + era_year doe / 4 - era_year doe / 100).
Definition era_month (doe : Z) : Z :=
  12 * era_year doe + (5 * era_year_day doe + 2) / 153.

(** The cohort index of an order within its table. *)
Definition order_cohort_index (rows : list Order.t) (o : Order.t) : Z :=
  Pandas.to_period_M (Order.order_date o)
  - Pandas.to_period_M (Cohort.cohort_date (Order.customer_id o) rows).

(** The row of [cohort_data] made from an order. *)
Definition cohort_row (rows : list Order.t) (o : Order.t) : CohortRow.t :=
  let cohort_month := Pandas.to_period_M (Cohort.cohort_date (Order.customer_id o) rows) in
  let order_month := Pandas.to_period_M (Order.order_date o) in
  CohortRow.mk (Order.order_id o) (Order.customer_id o) (Order.order_date o)
    (Order.total_amount o) cohort_month order_month (order_month - cohort_month).

(** The distinct customers of a cohort active at an index: the count, or
    [None] when there is none. *)
Definition active (data : list CohortRow.t) (c k : Z) : option Z :=
  match List.filter (Cohort.in_cell c k) data with
  | [] => None
  | x => Some (Pandas.nunique (map CohortRow.customer_id x))
  end.

(** An engine whose frame is [df] and whose cohorts are not computed yet,
    or are the ones [create_cohorts] computes. *)
Definition cohort_ready (s : Cohort.St) (df : OrdersDF) : Prop :=
  orders_frames (fst s) !! Cohort.orders (snd s) = Some df
  ∧ (Cohort.cohort_data (snd s) = None
     ∨ Cohort.cohort_data (snd s)
       = Some (Cohort.with_cohort_columns (order_rows df)
                 (Cohort.first_purchase (order_rows df)))).

(** The table with the given labels whose cell at [(c, k)] is [g c k]. *)
Definition table_of {A} (idx cols : list Z) (g : Z → Z → option A) : Cohort.table A :=
  {| Cohort.index := idx; Cohort.columns := cols;
     Cohort.values := map (λ c, map (g c) cols) idx |}.

(** The cohort rows, the state and the two tables that the cohort engine
    reaches from the orders [rows]. *)
Definition cohort_rows (rows : list Order.t) : list CohortRow.t :=
  map (cohort_row rows) rows.

Definition computed (s : Cohort.St) (rows : list Order.t) : Cohort.St :=
  (fst s, {| Cohort.orders := Cohort.orders (snd s);
             Cohort.cohort_data := Some (cohort_rows rows) |}).

Definition cohort_months (rows : list Order.t) : list Z :=
  Pandas.sorted_keys (map CohortRow.cohort_month (cohort_rows rows)).

Definition cohort_indices (rows : list Order.t) : list Z :=
  Pandas.sorted_keys (map CohortRow.cohort_index (cohort_rows rows)).

Definition cohort_table_of (rows : list Order.t) : Cohort.table Z :=
  table_of (cohort_months rows) (cohort_indices rows) (active (cohort_rows rows)).

Definition retention_table_of (rows : list Order.t) : Cohort.table Q :=
  table_of (cohort_months rows) (cohort_indices rows)
    (λ c k, Cohort.percent_of (active (cohort_rows rows) c k)
                              (active (cohort_rows rows) c 0)).

(** ** A run of the generator

    The raw outputs of a random source for which: customer 1 registers on
    the first day of the window and every other customer on its last day;
    products 1 and 2 cost 50.14 and 50.34; customer 1 places one order, of
    one unit of each of the two at a 5% discount; no other customer gets an
    order into the window. *)
Definition crafted_draws : list Z :=
  [0; 0; 0] ++ concat (repeat [0; 0; 1064] (Z.to_nat 4999))
  ++ [869660617699; 2112032928698] ++ repeat 0 187
  ++ [2 ^ 53 - 1; 0; 0; 1; 0; 1; 0; 3; 0; 3]
  ++ concat (repeat [2 ^ 53 - 1; 1] (Z.to_nat 4999)).

(** The amount of an order line before rounding, and the lines of an
    order. *)
Definition item_amount (i : Generator.ItemRec.t) : Float.t :=
  Float.mul (Float.mul (Generator.ItemRec.unit_price i)
                       (Float.of_Z (Generator.ItemRec.quantity i)))
            (Float.sub (Float.of_Z 1) (Generator.ItemRec.discount i)).


Definition items_of (items : list Generator.ItemRec.t) (o : Generator.OrderRec.t)
  : list Generator.ItemRec.t :=
  List.filter (λ i, Generator.ItemRec.order_id i =? Generator.OrderRec.order_id o) items.

(** What the proofs read off a run: the draws left, the second customer,
    the orders and the order lines. *)
Definition run_digest (r : option (list Z * result Generator.tables)) :=
  match r with
  | Some (rest, Ok t) =>
      Some (rest, nth_error (Generator.df_customers t) 1,
            Generator.df_orders t, Generator.df_order_items t)
  | _ => None
  end.


(** [keeps own s s']: from [s] to [s'] the engine keeps the reference
    [own] to its orders frame, and no frame other than the one behind that
    reference changes. *)
Definition keeps {O} (own : O → loc) (s s' : world * O) : Prop :=
  own (snd s') = own (snd s)
  ∧ (∀ l, l ≠ own (snd s) → orders_frames (fst s') !! l = orders_frames (fst s) !! l)
  ∧ customers_frames (fst s') = customers_frames (fst s).

(** Sum of a column of integers. *)
Definition Zsum (l : list Z) : Z := fold_right Z.add 0 l.

(** Orders of a single customer. *)
Definition one_customer_orders : OrdersDF :=
  {| order_date_dtype := Pandas.object_;
     order_rows := [ Order.mk 1 7 (day 2023 5 1) (cents 1000);
                     Order.mk 2 7 (day 2023 6 9) (cents 2000) ] |}.

Definition one_customer_rfm : RFM.St :=
  ({| orders_frames := {[ 1%positive := one_customer_orders ]};
      customers_frames := {[ 1%positive := sample_customers ]};
      files := ∅ |},
   {| RFM.orders := 1%positive; RFM.customers := 1%positive; RFM.rfm_data := None |}).


(** ** What the generated tables satisfy *)

(** A product of the catalogue: a sub-category of its category, one of
    the seven models of it. *)
Definition product_in_catalogue (p : Generator.ProductRec.t) : Prop :=
  ∃ subs i,
    In (Generator.ProductRec.category p, subs) Generator.categories
    ∧ In (Generator.ProductRec.sub_category p) subs
    ∧ 1 ≤ i ≤ 7
    ∧ Generator.ProductRec.product_name p
      = Generator.ProductRec.sub_category p +:+ " Model " +:+ pretty i.

Definition products_inv (st : list Generator.ProductRec.t * Z) : Prop :=
  1 ≤ snd st
  ∧ map Generator.ProductRec.product_id (fst st) = Generator.range 1 (snd st)
  ∧ Forall product_in_catalogue (fst st).

(** The fields of an order line: a quantity from 1 to 3, one of the
    discounts, and the product and unit price of a row of the products
    table. *)
Definition item_fields_ok (products : list Generator.ProductRec.t)
    (i : Generator.ItemRec.t) : Prop :=
  1 ≤ Generator.ItemRec.quantity i ≤ 3
  ∧ In (Generator.ItemRec.discount i) Generator.discounts
  ∧ ∃ p, In p products
         ∧ Generator.ProductRec.product_id p = Generator.ItemRec.product_id i
         ∧ Generator.ProductRec.unit_price p = Generator.ItemRec.unit_price i.

(** The fields of an order: a customer of the customers table, a date
    from the customer's registration to the end of the window, and a
    shipping date one to five days later. *)
Definition order_fields_ok (customers : list Generator.CustomerRec.t)
    (o : Generator.OrderRec.t) : Prop :=
  (∃ c, In c customers
        ∧ Generator.CustomerRec.customer_id c = Generator.OrderRec.customer_id o
        ∧ Generator.CustomerRec.registration_date c ≤ Generator.OrderRec.order_date o)
  ∧ Generator.OrderRec.order_date o ≤ Generator.END_DATE
  ∧ Generator.OrderRec.order_date o + 1 ≤ Generator.OrderRec.ship_date o
    ≤ Generator.OrderRec.order_date o + 5
  ∧ Generator.OrderRec.order_status o = "Completed"%string.

Definition items_inv (products : list Generator.ProductRec.t)
    (st : Float.t * list Generator.ItemRec.t * Z) : Prop :=
  1 ≤ snd st
  ∧ map Generator.ItemRec.order_item_id (snd (fst st)) = Generator.range 1 (snd st)
  ∧ Forall (item_fields_ok products) (snd (fst st)).

Definition orders_wellformed (customers : list Generator.CustomerRec.t)
    (products : list Generator.ProductRec.t) (os : Generator.order_state) : Prop :=
  (1 ≤ Generator.order_id os
   ∧ map Generator.OrderRec.order_id (Generator.orders os)
     = Generator.range 1 (Generator.order_id os))
  ∧ (1 ≤ Generator.order_item_id os
     ∧ map Generator.ItemRec.order_item_id (Generator.order_items os)
       = Generator.range 1 (Generator.order_item_id os))
  ∧ Forall (order_fields_ok customers) (Generator.orders os)
  ∧ Forall (item_fields_ok products) (Generator.order_items os)
  ∧ (∀ i, In i (Generator.order_items os) →
       1 ≤ Generator.ItemRec.order_id i < Generator.order_id os)
  ∧ (∀ o, In o (Generator.orders os) →
       (1 ≤ length (items_of (Generator.order_items os) o) ≤ 5)%nat).



(** The products of the lines of an order do not repeat, and the order
    ids in use are below the next one. *)
Definition orders_distinct (os : Generator.order_state) : Prop :=
  (∀ o, In o (Generator.orders os) →
     Generator.OrderRec.order_id o < Generator.order_id os)
  ∧ (∀ i, In i (Generator.order_items os) →
       Generator.ItemRec.order_id i < Generator.order_id os)
  ∧ (∀ o, In o (Generator.orders os) →
       List.NoDup (map Generator.ItemRec.product_id
                       (items_of (Generator.order_items os) o))).

(** * Verification *)

(** ** Segments *)

(** C1: the segment of a score triple is the label of the first rule of the
    ordered table that holds, [Others] when none does; so (5,5,5) is a
    Champion, (1,1,1) is Lost and (3,1,5) a Potential Loyalist. *)
Theorem assign_segment_first_match :
  (∀ r f m : Z, RFM._assign_segment r f m = first_match segment_rules r f m)
  ∧ RFM._assign_segment 5 5 5 = "Champions"%string
  ∧ RFM._assign_segment 1 1 1 = "Lost"%string
  ∧ RFM._assign_segment 3 1 5 = "Potential Loyalist"%string.
Proof.
  split; [|repeat split; reflexivity].
  intros r f m. unfold RFM._assign_segment, first_match, segment_rules.
  rewrite !Z.geb_leb. reflexivity.
Qed.

(** ** Reasoning about computations *)

Lemma bind_unfold {S A B} (m : M S A) (k : A → M S B) (s : S) :
  (m ≫= k) s = match m s with
               | (s', Ok a) => k a s'
               | (s', Raise e) => (s', Raise e)
               end.
Proof. reflexivity. Qed.

(** ** The caller's frames are never written *)

Lemma keeps_refl {O} (own : O → loc) s : keeps own s s.
Proof. repeat split. Qed.

Lemma keeps_trans {O} (own : O → loc) s1 s2 s3 :
  keeps own s1 s2 → keeps own s2 s3 → keeps own s1 s3.
Proof.
  intros (Ho & Hf & Hc) (Ho' & Hf' & Hc'). repeat split.
  - congruence.
  - intros l Hl. rewrite Hf' by congruence. apply Hf, Hl.
  - congruence.
Qed.

Ltac run_step :=
  rewrite ?bind_unfold;
  unfold on_world, get_self, set_self, lift_result, read_orders, read_customers,
    write_orders, to_csv, raise, mret, M_ret, ret;
  cbn beta iota zeta delta [fst snd].

Ltac run_case :=
  match goal with
  | |- context [match ?x with _ => _ end] =>
      match x with
      | _ !! _ => destruct x eqn:?
      | Pandas.qcut_int _ _ _ => destruct x eqn:?
      | Pandas.qcut_float _ _ _ => destruct x eqn:?
      | Pandas.astype_int _ => destruct x eqn:?
      | Cohort.iloc_first_column _ => destruct x eqn:?
      | Cohort.getitem _ _ => destruct x eqn:?
      | Cohort.mean_if_present _ _ => destruct x eqn:?
      end
  end.

Lemma rfm_calculate_keeps d s : keeps RFM.orders s (fst (RFM.calculate_rfm d s)).
Proof.
  destruct s as [w self]. unfold RFM.calculate_rfm.
  repeat (run_step; try run_case);
    (split; [reflexivity|split; [|reflexivity]]); simpl;
    intros ? ?; rewrite ?lookup_insert_ne by congruence; reflexivity.
Qed.

Lemma rfm_summary_same s : fst (RFM.get_segment_summary s) = s.
Proof.
  destruct s as [w self]. unfold RFM.get_segment_summary.
  run_step. destruct (RFM.rfm_data self); reflexivity.
Qed.

Lemma rfm_export_keeps p s : keeps RFM.orders s (fst (RFM.export_results p s)).
Proof.
  destruct s as [w self]. unfold RFM.export_results.
  run_step. destruct (RFM.rfm_data self); repeat split.
Qed.

Lemma rfm_do_keeps c s : keeps RFM.orders s (rfm_do c s).
Proof.
  destruct c; simpl.
  - apply rfm_calculate_keeps.
  - rewrite rfm_summary_same. apply keeps_refl.
  - apply rfm_export_keeps.
Qed.

Lemma cohort_create_keeps s : keeps Cohort.orders s (fst (Cohort.create_cohorts s)).
Proof.
  destruct s as [w self]. unfold Cohort.create_cohorts.
  repeat (run_step; try run_case); repeat split.
Qed.

Lemma cohort_data_or_create_keeps s :
  keeps Cohort.orders s (fst (Cohort.cohort_data_or_create s)).
Proof.
  destruct s as [w self]. unfold Cohort.cohort_data_or_create. run_step.
  destruct (Cohort.cohort_data self).
  - repeat split.
  - apply cohort_create_keeps.
Qed.

(** What follows the guard in a cohort method leaves the state alone. *)
Lemma after_guard_keeps {A} (k : list CohortRow.t → M Cohort.St A) s :
  (∀ data s', keeps Cohort.orders s' (fst (k data s'))) →
  keeps Cohort.orders s (fst ((Cohort.cohort_data_or_create ≫= k) s)).
Proof.
  intros Hk. rewrite bind_unfold.
  pose proof (cohort_data_or_create_keeps s) as H.
  destruct (Cohort.cohort_data_or_create s) as [s' [data|e]]; simpl in *; [|exact H].
  eapply keeps_trans; [exact H|apply Hk].
Qed.

Lemma cohort_retention_keeps s : keeps Cohort.orders s (fst (Cohort.calculate_retention s)).
Proof.
  apply after_guard_keeps. intros data [w self].
  repeat (run_step; try run_case); repeat split.
Qed.

Lemma cohort_do_keeps c s : keeps Cohort.orders s (cohort_do c s).
Proof.
  destruct c; simpl.
  - apply cohort_create_keeps.
  - apply cohort_retention_keeps.
  - apply after_guard_keeps. intros data [w self]. repeat split.
  - unfold Cohort.get_retention_summary. rewrite bind_unfold.
    pose proof (cohort_retention_keeps s) as H.
    destruct (Cohort.calculate_retention s) as [[w self] [[ct rt]|e]]; simpl in *;
      [|exact H].
    eapply keeps_trans; [exact H|].
    repeat (run_step; try run_case); repeat split.
  - apply after_guard_keeps. intros data [w self]. repeat split.
Qed.

Lemma calls_keep {O C} (own : O → loc) (do : C → world * O → world * O) :
  (∀ c s, keeps own s (do c s)) →
  ∀ calls s, keeps own s (fold_left (λ s c, do c s) calls s).
Proof.
  intros Hdo calls. induction calls as [|c calls IH]; intros s; simpl.
  - apply keeps_refl.
  - eapply keeps_trans; [apply Hdo|apply IH].
Qed.

Lemma alloc_orders_fresh w :
  orders_frames w !! fresh (dom (orders_frames w)) = None.
Proof. apply not_elem_of_dom, is_fresh. Qed.

Lemma alloc_customers_fresh w :
  customers_frames w !! fresh (dom (customers_frames w)) = None.
Proof. apply not_elem_of_dom, is_fresh. Qed.

(** The heap after a session extends the heap before it. *)
Lemma session_extends {O} (own : O → loc) (w w1 : world) (self : O) (s : world * O) :
  orders_frames w !! own self = None →
  (∀ l, l ≠ own self → orders_frames w1 !! l = orders_frames w !! l) →
  customers_frames w ⊆ customers_frames w1 →
  keeps own (w1, self) s →
  orders_frames w ⊆ orders_frames (fst s) ∧ customers_frames w ⊆ customers_frames (fst s).
Proof.
  intros Hnew Hold Hc (_ & Hf & Hcf). simpl in *. split.
  - apply map_subseteq_spec. intros l df Hl.
    assert (l ≠ own self) by congruence.
    rewrite Hf, Hold by assumption. exact Hl.
  - rewrite Hcf. exact Hc.
Qed.

(** C10: whatever calls a client makes on an engine built from its frames,
    every frame that was in the heap before the constructor ran, the
    caller's orders and customers tables among them, is still there with
    the same contents: the engines write to their own copies only. *)
Theorem caller_frames_unchanged (w : world) (orders_df customers_df : loc)
    (rfm_calls : list rfm_call) (cohort_calls : list cohort_call) :
  orders_frames w ⊆ orders_frames (rfm_session orders_df customers_df rfm_calls w)
  ∧ customers_frames w ⊆ customers_frames (rfm_session orders_df customers_df rfm_calls w)
  ∧ orders_frames w ⊆ orders_frames (cohort_session orders_df cohort_calls w)
  ∧ customers_frames w ⊆ customers_frames (cohort_session orders_df cohort_calls w).
Proof.
  rewrite (and_assoc (_ ⊆ _)). split.
  - unfold rfm_session, RFM.__init__, copy_orders, copy_customers.
    run_step. destruct (orders_frames w !! orders_df) as [df|] eqn:Ho; [|done].
    unfold alloc_orders, alloc_customers. run_step. simpl.
    destruct (customers_frames w !! customers_df) as [cdf|] eqn:Hc; simpl.
    + eapply (session_extends RFM.orders); [| | |apply calls_keep, rfm_do_keeps]; simpl.
      * apply alloc_orders_fresh.
      * intros l Hl. apply lookup_insert_ne. congruence.
      * apply insert_subseteq, alloc_customers_fresh.
    + split; [|done]. apply insert_subseteq, alloc_orders_fresh.
  - unfold cohort_session, Cohort.__init__, copy_orders.
    run_step. destruct (orders_frames w !! orders_df) as [df|] eqn:Ho; [|done].
    unfold alloc_orders. run_step. simpl. rewrite lookup_insert_eq. simpl.
    eapply (session_extends Cohort.orders); [| | |apply calls_keep, cohort_do_keeps]; simpl.
    + apply alloc_orders_fresh.
    + intros l Hl. rewrite !lookup_insert_ne by congruence. reflexivity.
    + done.
Qed.

Example sample_rfm_constructed :
  RFM.__init__ 1%positive 1%positive sample_world = (fst sample_rfm, Ok (snd sample_rfm)).
Proof. vm_compute. reflexivity. Qed.

Example sample_cohort_constructed :
  Cohort.__init__ 1%positive sample_world = (fst sample_cohort, Ok (snd sample_cohort)).
Proof. vm_compute. reflexivity. Qed.

(** On the sample: after [calculate_rfm] the engine's own frame holds
    converted dates, the caller's frame still holds the text. *)
Example caller_keeps_text_dates :
  let w := rfm_session 1%positive 1%positive [CalculateRfm None] sample_world in
  order_date_dtype <$> orders_frames w !! 1%positive = Some Pandas.object_
  ∧ order_date_dtype <$> orders_frames w !! 2%positive = Some Pandas.datetime64.
Proof. split; vm_compute; reflexivity. Qed.

(** ** Calling a method before its computation has run *)

Lemma guard_when_unset {A} (k : list CohortRow.t → M Cohort.St A) w self :
  Cohort.cohort_data self = None →
  (Cohort.cohort_data_or_create ≫= k) (w, self)
  = (Cohort.create_cohorts ≫= λ _, Cohort.cohort_data_or_create ≫= k) (w, self).
Proof.
  intros Hc. unfold Cohort.cohort_data_or_create, Cohort.create_cohorts.
  run_step. rewrite Hc. unfold Cohort.create_cohorts.
  repeat (run_step; try run_case); reflexivity.
Qed.

(** C4, as the code has it: the RFM engine refuses a summary or an export
    before [calculate_rfm] with a [ValueError] and changes nothing; the
    cohort engine does not refuse: each of its four methods, called before
    [create_cohorts], runs [create_cohorts] itself and then does what it
    does when called after it. *)
Theorem before_the_computation (w : world) (r : RFM.RFMAnalysis)
    (c : Cohort.CohortAnalysis) (path : string)
    (Hr : RFM.rfm_data r = None) (Hc : Cohort.cohort_data c = None) :
  RFM.get_segment_summary (w, r)
    = ((w, r), Raise (ValueError "Run calculate_rfm() first"))
  ∧ RFM.export_results path (w, r)
    = ((w, r), Raise (ValueError "Run calculate_rfm() first"))
  ∧ Cohort.calculate_retention (w, c)
    = (Cohort.create_cohorts ≫= λ _, Cohort.calculate_retention) (w, c)
  ∧ Cohort.calculate_cohort_metrics (w, c)
    = (Cohort.create_cohorts ≫= λ _, Cohort.calculate_cohort_metrics) (w, c)
  ∧ Cohort.get_retention_summary (w, c)
    = (Cohort.create_cohorts ≫= λ _, Cohort.get_retention_summary) (w, c)
  ∧ Cohort.export_results path (w, c)
    = (Cohort.create_cohorts ≫= λ _, Cohort.export_results path) (w, c).
Proof.
  split; [|split].
  - unfold RFM.get_segment_summary. run_step. rewrite Hr. reflexivity.
  - unfold RFM.export_results. run_step. rewrite Hr. reflexivity.
  - assert (Hret : Cohort.calculate_retention (w, c)
              = (Cohort.create_cohorts ≫= λ _, Cohort.calculate_retention) (w, c))
      by (apply guard_when_unset, Hc).
    split; [exact Hret|split; [apply guard_when_unset, Hc|split]].
    + unfold Cohort.get_retention_summary at 1. rewrite bind_unfold, Hret.
      rewrite !bind_unfold. destruct (Cohort.create_cohorts (w, c)) as [s [a|e]];
        reflexivity.
    + apply guard_when_unset, Hc.
Qed.

Lemma before_the_computation_witness :
  RFM.get_segment_summary (fst sample_cohort, snd sample_rfm)
    = ((fst sample_cohort, snd sample_rfm), Raise (ValueError "Run calculate_rfm() first"))
  ∧ Cohort.calculate_retention sample_cohort
    = (Cohort.create_cohorts ≫= λ _, Cohort.calculate_retention) sample_cohort.
Proof.
  pose proof (before_the_computation (fst sample_cohort) (snd sample_rfm)
                (snd sample_cohort) "out.csv" eq_refl eq_refl) as H.
  split; apply H.
Defined.

(** The cohort engine, asked for the retention tables before
    [create_cohorts], answers with the tables and has computed the cohorts
    on the way. *)
Lemma cohort_engine_does_not_refuse :
  Cohort.cohort_data (snd sample_cohort) = None
  ∧ is_ok (snd (Cohort.calculate_retention sample_cohort)) = true
  ∧ Cohort.cohort_data (snd (fst (Cohort.calculate_retention sample_cohort))) ≠ None
  ∧ ¬ ∃ e, snd (Cohort.calculate_retention sample_cohort) = Raise e.
Proof.
  split; [reflexivity|]. split; [vm_compute; reflexivity|]. split.
  - vm_compute. discriminate.
  - intros [e He]. vm_compute in He. discriminate.
Qed.

(** ** Group keys, maxima and minima *)

Lemma In_insert_key k x l : In x (Pandas.insert_key k l) ↔ x = k ∨ In x l.
Proof.
  induction l as [|y l IH]; simpl.
  - intuition.
  - destruct (k <? y) eqn:Hlt; [simpl; intuition|].
    destruct (k =? y) eqn:Heq.
    + apply Z.eqb_eq in Heq. subst. simpl. intuition.
    + simpl. rewrite IH. intuition.
Qed.

Lemma In_sorted_keys x l : In x (Pandas.sorted_keys l) ↔ In x l.
Proof.
  induction l as [|y l IH]; simpl; [reflexivity|].
  rewrite In_insert_key, IH. intuition.
Qed.

Lemma insert_key_sorted k l :
  StronglySorted Z.lt l → StronglySorted Z.lt (Pandas.insert_key k l).
Proof.
  induction 1 as [|y l Hs IH Hy]; simpl.
  - repeat constructor.
  - destruct (k <? y) eqn:Hlt.
    + apply Z.ltb_lt in Hlt. constructor; [constructor; assumption|].
      constructor; [exact Hlt|].
      rewrite List.Forall_forall in Hy |- *. intros z Hz.
      apply Hy in Hz. lia.
    + apply Z.ltb_ge in Hlt. destruct (k =? y) eqn:Heq.
      * constructor; assumption.
      * apply Z.eqb_neq in Heq. constructor; [exact IH|].
        rewrite List.Forall_forall in Hy |- *. intros z Hz.
        apply In_insert_key in Hz as [->|Hz]; [lia|].
        apply Hy, Hz.
Qed.

Lemma sorted_keys_sorted l : StronglySorted Z.lt (Pandas.sorted_keys l).
Proof.
  induction l as [|y l IH]; simpl; [constructor|apply insert_key_sorted, IH].
Qed.

Lemma strongly_sorted_NoDup (l : list Z) : StronglySorted Z.lt l → List.NoDup l.
Proof.
  induction 1 as [|y l Hs IH Hy]; constructor; [|exact IH].
  intros Hin. rewrite List.Forall_forall in Hy.
  apply Hy in Hin. lia.
Qed.

(** Two strictly ascending lists with the same members are the same list. *)
Lemma strongly_sorted_ext (l1 l2 : list Z) :
  StronglySorted Z.lt l1 → StronglySorted Z.lt l2 →
  (∀ x, In x l1 ↔ In x l2) → l1 = l2.
Proof.
  intros H1. revert l2. induction H1 as [|a l1 Hs1 IH Ha]; intros l2 H2 Hm.
  - destruct l2 as [|b l2]; [reflexivity|]. destruct (proj2 (Hm b)). now left.
  - destruct H2 as [|b l2 Hs2 Hb].
    + destruct (proj1 (Hm a)). now left.
    + rewrite List.Forall_forall in Ha, Hb.
      assert (a = b) as ->.
      { destruct (proj1 (Hm a) (or_introl eq_refl)) as [->|Hin]; [reflexivity|].
        destruct (proj2 (Hm b) (or_introl eq_refl)) as [->|Hin']; [reflexivity|].
        apply Hb in Hin. apply Ha in Hin'. lia. }
      f_equal. apply IH; [exact Hs2|]. intros x. split; intros Hx.
      * destruct (proj1 (Hm x) (or_intror Hx)) as [->|Hin]; [|exact Hin].
        apply Ha in Hx. lia.
      * destruct (proj2 (Hm x) (or_intror Hx)) as [->|Hin]; [|exact Hin].
        apply Hb in Hx. lia.
Qed.

Lemma sorted_keys_ext l1 l2 :
  (∀ x, In x l1 ↔ In x l2) → Pandas.sorted_keys l1 = Pandas.sorted_keys l2.
Proof.
  intros H. apply strongly_sorted_ext; try apply sorted_keys_sorted.
  intros x. rewrite !In_sorted_keys. apply H.
Qed.

Lemma fold_max_spec l : ∀ a,
  (fold_left Z.max l a = a ∨ In (fold_left Z.max l a) l)
  ∧ a ≤ fold_left Z.max l a
  ∧ ∀ x, In x l → x ≤ fold_left Z.max l a.
Proof.
  induction l as [|y l IH]; intros a; simpl.
  - repeat split; [now left|lia|tauto].
  - destruct (IH (Z.max a y)) as (H1 & H2 & H3). repeat split.
    + destruct H1 as [H1|H1]; [|now right; right].
      rewrite H1. destruct (Z.max_spec a y) as [[_ ->]|[_ ->]]; [right; now left|now left].
    + lia.
    + intros x [->|Hx]; [lia|apply H3, Hx].
Qed.

Lemma fold_min_spec l : ∀ a,
  (fold_left Z.min l a = a ∨ In (fold_left Z.min l a) l)
  ∧ fold_left Z.min l a ≤ a
  ∧ ∀ x, In x l → fold_left Z.min l a ≤ x.
Proof.
  induction l as [|y l IH]; intros a; simpl.
  - repeat split; [now left|lia|tauto].
  - destruct (IH (Z.min a y)) as (H1 & H2 & H3). repeat split.
    + destruct H1 as [H1|H1]; [|now right; right].
      rewrite H1. destruct (Z.min_spec a y) as [[_ ->]|[_ ->]]; [now left|right; now left].
    + lia.
    + intros x [->|Hx]; [lia|apply H3, Hx].
Qed.

Lemma series_max_spec d l :
  l ≠ [] → In (Pandas.series_max d l) l ∧ ∀ x, In x l → x ≤ Pandas.series_max d l.
Proof.
  destruct l as [|a l]; [congruence|]. intros _. unfold Pandas.series_max.
  destruct (fold_max_spec l a) as (H1 & H2 & H3). split.
  - destruct H1 as [->|H1]; [now left|now right].
  - intros x [->|Hx]; [exact H2|apply H3, Hx].
Qed.

Lemma series_min_spec d l :
  l ≠ [] → In (Pandas.series_min d l) l ∧ ∀ x, In x l → Pandas.series_min d l ≤ x.
Proof.
  destruct l as [|a l]; [congruence|]. intros _. unfold Pandas.series_min.
  destruct (fold_min_spec l a) as (H1 & H2 & H3). split.
  - destruct H1 as [->|H1]; [now left|now right].
  - intros x [->|Hx]; [exact H2|apply H3, Hx].
Qed.

(** ** Sums of an [int64] column *)

Lemma wrap64_small z : - 2 ^ 63 ≤ z < 2 ^ 63 → Pandas.wrap64 z = z.
Proof. intros H. unfold Pandas.wrap64. rewrite Z.mod_small; lia. Qed.

Lemma wrap64_add_l a b : Pandas.wrap64 (Pandas.wrap64 a + b) = Pandas.wrap64 (a + b).
Proof.
  unfold Pandas.wrap64. f_equal.
  replace ((a + 2 ^ 63) mod 2 ^ 64 - 2 ^ 63 + b + 2 ^ 63)
    with ((a + 2 ^ 63) mod 2 ^ 64 + b) by lia.
  rewrite Zplus_mod_idemp_l. f_equal. lia.
Qed.

(** Wrapping at every addition or once at the end gives the same sum. *)
Lemma int_sum_wraps l : Pandas.int_sum l = Pandas.wrap64 (Zsum l).
Proof.
  unfold Pandas.int_sum.
  assert (H : ∀ l acc,
             fold_left (λ acc z, Pandas.wrap64 (acc + z)) l (Pandas.wrap64 acc)
             = Pandas.wrap64 (acc + Zsum l)).
  { clear l. induction l as [|z l IH]; intros acc; simpl.
    - rewrite Z.add_0_r. reflexivity.
    - rewrite wrap64_add_l, IH. f_equal. lia. }
  exact (H l 0).
Qed.

(** ** Machine numbers at work *)

(** The fourth of the six quantiles is [3 * 0.2], which is not [0.6]. *)
Example linspace_fourth_quantile :
  nth 3 (Pandas.linspace01 5) Float.zero = Float.mul (Float.of_Z 3) (Float.decimal 2 10)
  ∧ Float.ltb (Float.decimal 6 10) (nth 3 (Pandas.linspace01 5) Float.zero) = true.
Proof. split; vm_compute; reflexivity. Qed.

(** Six recencies with a repeated value: the fourth edge lies just above
    20, the six edges differ, and the column is scored. *)
Example six_recencies_are_scored :
  Pandas.int_edges [20; 31; 20; 6; 34; 0] 5
  = [Float.of_Z 0; Float.of_Z 6; Float.of_Z 20;
     Float.decimal 20000000000000004 1000000000000000; Float.of_Z 31; Float.of_Z 34]
  ∧ Pandas.qcut_int [20; 31; 20; 6; 34; 0] 5 [5; 4; 3; 2; 1]
    = Ok [Some 4; Some 2; Some 4; Some 5; Some 1; Some 5].
Proof. split; vm_compute; reflexivity. Qed.

(** A float sum is rounded, and an [int64] sum wraps around. *)
Example float_sum_is_rounded :
  Float.ltb (Float.decimal 3 10)
    (Pandas.float_sum [Float.decimal 1 10; Float.decimal 2 10]) = true.
Proof. vm_compute. reflexivity. Qed.

Example int_sum_wraps_around : Pandas.int_sum [2 ^ 62; 2 ^ 62] = - 2 ^ 63.
Proof. vm_compute. reflexivity. Qed.

(** One unit at 50.50 with a discount of 5 per cent: the amount is
    47.974999999999994 and the stored line total 47.97. *)
Example line_total_of_one_unit :
  Float.np_round 2
    (Float.mul (Float.mul (Float.decimal 5050 100) (Float.of_Z 1))
               (Float.sub (Float.of_Z 1) (Float.decimal 5 100)))
  = Float.decimal 4797 100.
Proof. vm_compute. reflexivity. Qed.

(** ** The RFM table *)

Lemma bins_to_cuts_length x bins labels cats :
  Pandas.bins_to_cuts x bins labels = Ok cats → length cats = length x.
Proof.
  unfold Pandas.bins_to_cuts. cbv zeta.
  destruct (negb (Pandas.nodup_labels labels)); [discriminate|].
  match goal with |- context [negb ?b] => destruct (negb b) end; [discriminate|].
  intros [= <-]. apply length_map.
Qed.

Lemma qcut_int_length x q labels cats :
  Pandas.qcut_int x q labels = Ok cats → length cats = length x.
Proof.
  unfold Pandas.qcut_int. intros H. apply bins_to_cuts_length in H.
  rewrite length_map in H. exact H.
Qed.

Lemma qcut_float_length x q labels cats :
  Pandas.qcut_float x q labels = Ok cats → length cats = length x.
Proof. apply bins_to_cuts_length. Qed.

Lemma astype_int_length cats : ∀ l,
  Pandas.astype_int cats = Ok l → length l = length cats.
Proof.
  induction cats as [|[v|] cats IH]; simpl; intros l H; try discriminate.
  - injection H as <-. reflexivity.
  - destruct (Pandas.astype_int cats) as [vs|]; [|discriminate].
    injection H as <-. simpl. f_equal. apply IH. reflexivity.
Qed.

Lemma rank_from_length {A} (isna : A → bool) (ltb eqb : A → A → bool) rest :
  ∀ before all, length (Pandas.rank_from isna ltb eqb before rest all) = length rest.
Proof. induction rest; intros; simpl; [reflexivity|f_equal; apply IHrest]. Qed.

Lemma rank_column_length {A} (isna : A → bool) (ltb eqb : A → A → bool) xs :
  length (Pandas.rank_column (Pandas.rank_first isna ltb eqb xs)) = length xs.
Proof.
  unfold Pandas.rank_column, Pandas.rank_first.
  rewrite length_map. apply rank_from_length.
Qed.

(** A dropped boundary is never survived: with five labels, the cut raises
    as soon as two of the six edges coincide. *)
Lemma bins_to_cuts_raises_on_duplicate_edges x (bins : list Float.t) (labels : list Z) :
  length labels = 5%nat → length bins = 6%nat →
  (length (Pandas.unique bins) < 6)%nat →
  ∃ msg, Pandas.bins_to_cuts x bins labels = Raise (ValueError msg).
Proof.
  intros Hl Hb Hu. unfold Pandas.bins_to_cuts.
  rewrite Hb.
  replace (length (Pandas.unique bins) <? 6)%nat with true
    by (symmetry; apply Nat.ltb_lt, Hu).
  cbn [andb negb Nat.eqb].
  destruct (negb (Pandas.nodup_labels labels)); [eexists; reflexivity|].
  rewrite Hl.
  destruct (negb (Z.of_nat 5 =? Z.of_nat (length (Pandas.unique bins)) - 1)) eqn:E;
    [eexists; reflexivity|].
  apply negb_false_iff, Z.eqb_eq in E. lia.
Qed.

Lemma In_scored x r f m seg : ∀ rfm rs fs ms,
  In (x, r, f, m, seg) (RFM.scored rfm rs fs ms) → In x rfm.
Proof.
  induction rfm as [|y rfm IH]; intros [|r' rs] [|f' fs] [|m' ms]; simpl;
    try tauto.
  intros [H|H]; [left; congruence|right; eapply IH, H].
Qed.

Lemma scored_covers x : ∀ rfm rs fs ms,
  length rs = length rfm → length fs = length rfm → length ms = length rfm →
  In x rfm → ∃ r f m seg, In (x, r, f, m, seg) (RFM.scored rfm rs fs ms).
Proof.
  induction rfm as [|y rfm IH]; intros [|r' rs] [|f' fs] [|m' ms]; simpl;
    try discriminate; try tauto.
  intros Hr Hf Hm [->|Hx].
  - do 4 eexists. left. reflexivity.
  - destruct (IH rs fs ms) as (r & f & m & seg & H); try lia; [exact Hx|].
    exists r, f, m, seg. right. exact H.
Qed.

Lemma In_merge_left row sc cust :
  In row (RFM.merge_left sc cust) →
  ∃ x r f m seg, In (x, r, f, m, seg) sc
    ∧ RfmRow.customer_id row = RFM.m_customer_id x
    ∧ RfmRow.recency row = RFM.m_recency x
    ∧ RfmRow.frequency row = RFM.m_frequency x
    ∧ RfmRow.monetary row = RFM.m_monetary x.
Proof.
  unfold RFM.merge_left. intros H. apply in_flat_map in H as ([[[[x r] f] m] seg] & Hin & H).
  exists x, r, f, m, seg. split; [exact Hin|].
  destruct (List.filter _ cust) as [|c0 cs].
  - destruct H as [<-|[]]. repeat split.
  - apply in_map_iff in H as (c & <- & _). repeat split.
Qed.

Lemma merge_left_covers x r f m seg sc cust :
  In (x, r, f, m, seg) sc →
  ∃ row, In row (RFM.merge_left sc cust) ∧ RfmRow.customer_id row = RFM.m_customer_id x.
Proof.
  intros Hin. unfold RFM.merge_left.
  destruct (List.filter (λ c, Customer.customer_id c =? RFM.m_customer_id x) cust)
    as [|c0 cs] eqn:E.
  - eexists. split; [apply in_flat_map; eexists; split; [exact Hin|]|].
    + cbn beta iota. rewrite E. left. reflexivity.
    + reflexivity.
  - eexists. split; [apply in_flat_map; eexists; split; [exact Hin|]|].
    + cbn beta iota. rewrite E. left. reflexivity.
    + reflexivity.
Qed.

(** What a successful [calculate_rfm] has computed. *)
Lemma calculate_rfm_returns d w self s' rows :
  RFM.calculate_rfm d (w, self) = (s', Ok rows) →
  ∃ df cust rs fs ms,
    orders_frames w !! RFM.orders self = Some df
    ∧ let rfm :=
        RFM.agg (match d with
                 | Some d => d
                 | None => Pandas.series_max 0 (map Order.order_date (order_rows df))
                 end) (order_rows df) in
      length rs = length rfm ∧ length fs = length rfm ∧ length ms = length rfm
      ∧ rows = RFM.merge_left (RFM.scored rfm rs fs ms) cust.
Proof.
  unfold RFM.calculate_rfm.
  repeat (run_step; try run_case); intros [= <- <-].
  repeat match goal with
         | H : Pandas.astype_int _ = Ok _ |- _ => apply astype_int_length in H
         | H : Pandas.qcut_int _ _ _ = Ok _ |- _ => apply qcut_int_length in H
         | H : Pandas.qcut_float _ _ _ = Ok _ |- _ => apply qcut_float_length in H
         end.
  repeat match goal with
         | H : context [length (Pandas.rank_column _)] |- _ =>
             rewrite rank_column_length in H
         | H : context [length (map _ _)] |- _ => rewrite length_map in H
         end.
  do 5 eexists. split; [reflexivity|]. cbn zeta.
  refine (conj _ (conj _ (conj _ eq_refl))); congruence.
Qed.

Lemma group_of_spec c o rows :
  In o (RFM.group_of c rows) ↔ In o rows ∧ Order.customer_id o = c.
Proof.
  unfold RFM.group_of. rewrite filter_In, Z.eqb_eq. reflexivity.
Qed.

Lemma group_of_nonempty c rows :
  In c (map Order.customer_id rows) → RFM.group_of c rows ≠ [].
Proof.
  intros H. apply in_map_iff in H as (o & Ho & Hin).
  assert (In o (RFM.group_of c rows)) as Hg by (apply group_of_spec; auto).
  intros E. rewrite E in Hg. exact Hg.
Qed.

(** The most recent order date of a customer who ordered: it is the date of
    one of the customer's orders, and none of them is later. *)
Lemma latest_order_spec c rows :
  In c (map Order.customer_id rows) →
  let latest := Pandas.series_max 0 (map Order.order_date (RFM.group_of c rows)) in
  (∃ o, In o rows ∧ Order.customer_id o = c ∧ Order.order_date o = latest)
  ∧ ∀ o, In o rows → Order.customer_id o = c → Order.order_date o ≤ latest.
Proof.
  intros Hc latest.
  destruct (series_max_spec 0 (map Order.order_date (RFM.group_of c rows))) as [H1 H2].
  { intros E. apply map_eq_nil in E. exact (group_of_nonempty _ _ Hc E). }
  split.
  - apply in_map_iff in H1 as (o & Ho & Hin). apply group_of_spec in Hin as [Hin Hid].
    exists o. auto.
  - intros o Hin Hid. apply H2, in_map, group_of_spec. auto.
Qed.

(** C6, as the code has it: when [calculate_rfm] returns, every customer
    with an order has a record, and each record of that customer holds
    recency = reference date minus the customer's most recent order date
    (in days), frequency = the number of the customer's orders and
    monetary = the sum of their totals as pandas takes it, in the dtype of
    the [total_amount] column: the compensated binary64 sum of a float
    column, the sum modulo 2^64 of an [int64] column, which is the exact
    sum whenever that fits in 64 bits. The reference date is the latest
    order date of the table when unset. Recency is non-negative when the
    reference date is unset, and otherwise exactly when the reference date
    is not before the customer's most recent order. *)
Theorem rfm_record_metrics (w : world) (self : RFM.RFMAnalysis)
    (reference_date : option Pandas.Timestamp) (df : OrdersDF)
    (s' : RFM.St) (rows : list RfmRow.t) (c : Z)
    (Hdf : orders_frames w !! RFM.orders self = Some df)
    (Hrun : RFM.calculate_rfm reference_date (w, self) = (s', Ok rows))
    (Hc : In c (map Order.customer_id (order_rows df))) :
  let mine := RFM.group_of c (order_rows df) in
  let latest := Pandas.series_max 0 (map Order.order_date mine) in
  let reference :=
    match reference_date with
    | Some d => d
    | None => Pandas.series_max 0 (map Order.order_date (order_rows df))
    end in
  let int_dtype := Pandas.int_column (map Order.total_amount (order_rows df)) in
  let whole := Zsum (map Pandas.to_int (map Order.total_amount mine)) in
  (∃ row, In row rows ∧ RfmRow.customer_id row = c)
  ∧ (∀ row, In row rows → RfmRow.customer_id row = c →
       RfmRow.recency row = reference - latest
       ∧ RfmRow.frequency row = Z.of_nat (length mine)
       ∧ RfmRow.monetary row = Pandas.group_sum int_dtype (map Order.total_amount mine)
       ∧ (int_dtype = false →
          RfmRow.monetary row
          = Pandas.Float64
              (Pandas.float_sum (map Pandas.to_float (map Order.total_amount mine))))
       ∧ (int_dtype = true →
          RfmRow.monetary row = Pandas.Int64 (Pandas.wrap64 whole)
          ∧ (- 2 ^ 63 ≤ whole < 2 ^ 63 → RfmRow.monetary row = Pandas.Int64 whole))
       ∧ (0 ≤ RfmRow.recency row ↔ latest ≤ reference)
       ∧ (reference_date = None → 0 ≤ RfmRow.recency row))
  ∧ (∃ o, In o (order_rows df) ∧ Order.customer_id o = c ∧ Order.order_date o = latest)
  ∧ (∀ o, In o (order_rows df) → Order.customer_id o = c → Order.order_date o ≤ latest).
Proof.
  intros mine latest reference int_dtype whole.
  apply calculate_rfm_returns in Hrun as (df' & cust & rs & fs & ms & Hdf' & H).
  rewrite Hdf in Hdf'. injection Hdf' as <-.
  cbn zeta in H. fold reference in H. destruct H as (Hr & Hf & Hm & ->).
  pose proof (latest_order_spec c (order_rows df) Hc) as [Hex Hmax].
  fold mine in Hex, Hmax. fold latest in Hex, Hmax.
  split; [|split; [|split; assumption]].
  - set (x := {| RFM.m_customer_id := c; RFM.m_recency := reference - latest;
                 RFM.m_frequency := Z.of_nat (length mine);
                 RFM.m_monetary :=
                   Pandas.group_sum int_dtype (map Order.total_amount mine) |}).
    assert (Hx : In x (RFM.agg reference (order_rows df))).
    { unfold RFM.agg. apply in_map_iff. exists c. split; [reflexivity|].
      apply In_sorted_keys, Hc. }
    destruct (scored_covers x _ rs fs ms Hr Hf Hm Hx) as (r & f & m & seg & Hs).
    destruct (merge_left_covers x r f m seg _ cust Hs) as (row & Hrow & Hid).
    exists row. auto.
  - intros row Hrow Hid.
    apply In_merge_left in Hrow as (x & r & f & m & seg & Hs & Ec & Er & Ef & Em).
    apply In_scored in Hs. unfold RFM.agg in Hs.
    apply in_map_iff in Hs as (c' & <- & _).
    cbn [RFM.m_customer_id RFM.m_recency RFM.m_frequency RFM.m_monetary] in *.
    assert (c' = c) as -> by congruence.
    fold mine in Er, Ef, Em. fold latest in Er. fold int_dtype in Em.
    split; [exact Er|]. split; [exact Ef|]. split; [exact Em|].
    split; [intros E; rewrite Em, E; reflexivity|].
    split.
    { intros E. rewrite Em, E. unfold Pandas.group_sum.
      rewrite int_sum_wraps. fold whole. split; [reflexivity|].
      intros Hfit. rewrite (wrap64_small _ Hfit). reflexivity. }
    split; [lia|].
    intros ->. subst reference. rewrite Er.
    destruct Hex as (o & Hin & _ & Ho).
    destruct (series_max_spec 0 (map Order.order_date (order_rows df))) as [_ H2].
    { intros E. apply map_eq_nil in E. rewrite E in Hin. exact Hin. }
    specialize (H2 latest). rewrite <- Ho in H2 at 1.
    specialize (H2 (in_map _ _ _ Hin)). lia.
Qed.

Lemma rfm_record_metrics_witness :
  (∃ row, In row sample_rfm_rows ∧ RfmRow.customer_id row = 1)
  ∧ (∀ row, In row sample_rfm_rows → RfmRow.customer_id row = 1 →
       RfmRow.recency row = day 2023 4 5 - day 2023 2 28 ∧ RfmRow.frequency row = 2).
Proof.
  pose proof (rfm_record_metrics (fst sample_rfm) (snd sample_rfm) None sample_orders
                (fst (RFM.calculate_rfm None sample_rfm)) sample_rfm_rows 1) as H.
  destruct H as (H1 & H2 & _).
  - vm_compute. reflexivity.
  - vm_compute. reflexivity.
  - vm_compute. auto.
  - split; [exact H1|]. intros row Hin Hid.
    destruct (H2 row Hin Hid) as (Hr & Hf & _). split; [exact Hr|exact Hf].
Defined.

(** With a reference date given by the caller and earlier than a customer's
    last order, the computation succeeds and that customer's recency is
    negative. *)
Lemma recency_negative_before_last_order :
  ∃ rows, snd (RFM.calculate_rfm (Some (day 2023 1 1)) sample_rfm) = Ok rows
    ∧ ∃ row, In row rows ∧ RfmRow.customer_id row = 1
        ∧ RfmRow.recency row = -58 ∧ ¬ 0 ≤ RfmRow.recency row.
Proof.
  eexists. split; [vm_compute; reflexivity|].
  eexists. split; [left; reflexivity|].
  simpl. repeat split. lia.
Qed.

(** C2: two customers whose last orders fall on the same day have one
    recency value; the quantile boundaries collapse to one, the five labels
    no longer fit the boundaries left, and [calculate_rfm] raises instead
    of scoring with fewer buckets. The date column has been converted by
    then and no RFM table is kept. *)
Theorem calculate_rfm_raises_on_tied_recency :
  snd (RFM.calculate_rfm None same_day_rfm)
    = Raise (ValueError "Bin labels must be one fewer than the number of bin edges")
  ∧ RFM.rfm_data (snd (fst (RFM.calculate_rfm None same_day_rfm))) = None.
Proof. split; vm_compute; reflexivity. Qed.

(** ** The calendar month grows with the date *)

Lemma era_year_bounds doe :
  0 ≤ doe < 146097 → 0 ≤ era_year doe ≤ 399 ∧ 0 ≤ era_year_day doe ≤ 365.
Proof.
  intros H. unfold era_year_day, era_year. Z.div_mod_to_equations. lia.
Qed.

Lemma era_year_mono a b : 0 ≤ a ≤ b → b < 146097 → era_year a ≤ era_year b.
Proof.
  intros H1 H2. unfold era_year. apply Z.div_le_mono; [lia|].
  Z.div_mod_to_equations. lia.
Qed.

Lemma month_of_year_day_bounds d : 0 ≤ d ≤ 365 → 0 ≤ (5 * d + 2) / 153 ≤ 11.
Proof. intros H. Z.div_mod_to_equations. lia. Qed.

Lemma era_month_bounds doe :
  0 ≤ doe < 146097 → 12 * era_year doe ≤ era_month doe ≤ 12 * era_year doe + 11.
Proof.
  intros H. destruct (era_year_bounds doe H) as [_ Hd].
  pose proof (month_of_year_day_bounds _ Hd). unfold era_month. lia.
Qed.

Lemma era_month_mono a b : 0 ≤ a ≤ b → b < 146097 → era_month a ≤ era_month b.
Proof.
  intros H1 H2. pose proof (era_year_mono a b H1 H2) as Hy.
  pose proof (era_month_bounds a ltac:(lia)). pose proof (era_month_bounds b ltac:(lia)).
  destruct (Z.eq_dec (era_year a) (era_year b)) as [E|NE]; [|lia].
  unfold era_month. rewrite E. apply Z.add_le_mono_l.
  apply Z.div_le_mono; [lia|]. unfold era_year_day. rewrite E. lia.
Qed.

Lemma to_period_M_era t :
  Pandas.to_period_M t
  = 4800 * ((t + 719468) / 146097) + era_month ((t + 719468) mod 146097) - 23638.
Proof.
  unfold Pandas.to_period_M, Pandas.civil_from_days. cbv zeta.
  set (z := t + 719468).
  replace (z - z / 146097 * 146097) with (z mod 146097)
    by (rewrite Z.mod_eq by lia; lia).
  assert (Hdoe : 0 ≤ z mod 146097 < 146097) by (apply Z.mod_pos_bound; lia).
  set (doe := z mod 146097) in *.
  pose proof (era_year_bounds doe Hdoe) as [Hy Hd].
  fold (era_year doe). fold (era_year_day doe).
  unfold era_month.
  pose proof (month_of_year_day_bounds _ Hd) as Hmp.
  set (mp := (5 * era_year_day doe + 2) / 153) in *.
  destruct (mp <? 10) eqn:E1.
  - apply Z.ltb_lt in E1.
    destruct (mp + 3 <=? 2) eqn:E2; [apply Z.leb_le in E2; lia|]. lia.
  - apply Z.ltb_ge in E1.
    destruct (mp - 9 <=? 2) eqn:E2; [|apply Z.leb_gt in E2; lia]. lia.
Qed.

Lemma to_period_M_mono a b : a ≤ b → Pandas.to_period_M a ≤ Pandas.to_period_M b.
Proof.
  intros H. rewrite !to_period_M_era.
  assert (Ha : 0 ≤ (a + 719468) mod 146097 < 146097) by (apply Z.mod_pos_bound; lia).
  assert (Hb : 0 ≤ (b + 719468) mod 146097 < 146097) by (apply Z.mod_pos_bound; lia).
  assert (Hq : (a + 719468) / 146097 ≤ (b + 719468) / 146097)
    by (apply Z.div_le_mono; lia).
  destruct (Z.eq_dec ((a + 719468) / 146097) ((b + 719468) / 146097)) as [E|NE].
  - rewrite E.
    pose proof (era_month_mono ((a + 719468) mod 146097) ((b + 719468) mod 146097)).
    assert ((a + 719468) mod 146097 ≤ (b + 719468) mod 146097).
    { rewrite !Z.mod_eq by lia. rewrite E. lia. }
    lia.
  - pose proof (era_month_bounds _ Ha). pose proof (era_month_bounds _ Hb).
    pose proof (era_year_bounds _ Ha). pose proof (era_year_bounds _ Hb). lia.
Qed.

(** ** The cohort columns *)

Lemma flat_map_singletons {A B} (f : A → list B) (g : A → B) (l : list A) :
  (∀ a, In a l → f a = [g a]) → flat_map f l = map g l.
Proof.
  induction l as [|a l IH]; intros H; simpl; [reflexivity|].
  rewrite (H a) by now left. simpl. f_equal. apply IH. intros b Hb. apply H. now right.
Qed.

Lemma filter_key_of_map (g : Z → Z) (k : Z) (keys : list Z) :
  List.NoDup keys → In k keys →
  List.filter (λ '(c, _), c =? k) (map (λ c, (c, g c)) keys) = [(k, g k)].
Proof.
  induction 1 as [|a keys Hna Hnd IH]; intros Hin; [destruct Hin|].
  simpl. destruct (a =? k) eqn:E.
  - apply Z.eqb_eq in E. subst a. f_equal.
    clear IH Hin Hnd. induction keys as [|b keys IH]; [reflexivity|].
    simpl. destruct (b =? k) eqn:E.
    + apply Z.eqb_eq in E. subst b. destruct Hna. now left.
    + apply IH. intros Hin. apply Hna. now right.
  - apply Z.eqb_neq in E. destruct Hin as [->|Hin]; [congruence|]. apply IH, Hin.
Qed.

(** Every order gets exactly one row, with its customer's cohort month. *)
Lemma with_cohort_columns_rows rows :
  Cohort.with_cohort_columns rows (Cohort.first_purchase rows)
  = map (cohort_row rows) rows.
Proof.
  unfold Cohort.with_cohort_columns. apply flat_map_singletons. intros o Ho.
  unfold Cohort.first_purchase.
  rewrite (filter_key_of_map (λ c, Pandas.to_period_M (Cohort.cohort_date c rows))).
  - reflexivity.
  - apply strongly_sorted_NoDup, sorted_keys_sorted.
  - apply In_sorted_keys, in_map, Ho.
Qed.

Lemma cohort_group_of_spec c o rows :
  In o (Cohort.group_of c rows) ↔ In o rows ∧ Order.customer_id o = c.
Proof.
  unfold Cohort.group_of. rewrite filter_In, Z.eqb_eq. reflexivity.
Qed.

(** The cohort date of a customer is the date of one of its orders, and
    none of its orders is earlier. *)
Lemma cohort_date_spec rows o :
  In o rows →
  (∃ o0, In o0 rows ∧ Order.customer_id o0 = Order.customer_id o
         ∧ Order.order_date o0 = Cohort.cohort_date (Order.customer_id o) rows)
  ∧ Cohort.cohort_date (Order.customer_id o) rows ≤ Order.order_date o.
Proof.
  intros Ho. unfold Cohort.cohort_date.
  assert (Hg : In o (Cohort.group_of (Order.customer_id o) rows))
    by (apply cohort_group_of_spec; auto).
  destruct (series_min_spec 0
              (map Order.order_date (Cohort.group_of (Order.customer_id o) rows)))
    as [H1 H2].
  { intros E. apply map_eq_nil in E. rewrite E in Hg. exact Hg. }
  split.
  - apply in_map_iff in H1 as (o0 & E0 & Hin). apply cohort_group_of_spec in Hin as [? ?].
    exists o0. auto.
  - apply H2, in_map, Hg.
Qed.

Lemma order_cohort_index_nonneg rows o : In o rows → 0 ≤ order_cohort_index rows o.
Proof.
  intros Ho. destruct (cohort_date_spec rows o Ho) as [_ H].
  apply to_period_M_mono in H. unfold order_cohort_index. lia.
Qed.

(** The first order of a customer has index 0. *)
Lemma first_order_index rows o :
  In o rows →
  ∃ o0, In o0 rows ∧ Order.customer_id o0 = Order.customer_id o
        ∧ order_cohort_index rows o0 = 0.
Proof.
  intros Ho. destruct (cohort_date_spec rows o Ho) as [(o0 & Hin & Hid & Hd) _].
  exists o0. repeat split; try assumption.
  unfold order_cohort_index. rewrite Hid, Hd. lia.
Qed.

(** ** The pivoted cohort table *)

Lemma in_cell_spec c k r :
  Cohort.in_cell c k r = true
  ↔ CohortRow.cohort_month r = c ∧ CohortRow.cohort_index r = k.
Proof. unfold Cohort.in_cell. rewrite andb_true_iff, !Z.eqb_eq. reflexivity. Qed.

Lemma In_groups data c k x :
  In (c, k, x) (Cohort.groups data)
  ↔ x = List.filter (Cohort.in_cell c k) data ∧ x ≠ [].
Proof.
  unfold Cohort.groups. rewrite in_flat_map. split.
  - intros (c' & _ & H). apply in_flat_map in H as (k' & _ & H).
    destruct (List.filter (Cohort.in_cell c' k') data) as [|r x'] eqn:E; [destruct H|].
    destruct H as [[= <- <- <-]|[]]. split; [symmetry; exact E|discriminate].
  - intros [-> Hne].
    destruct (List.filter (Cohort.in_cell c k) data) as [|r x'] eqn:E; [congruence|].
    assert (Hr : In r (List.filter (Cohort.in_cell c k) data)) by (rewrite E; now left).
    apply filter_In in Hr as [Hin Hcell]. apply in_cell_spec in Hcell as [Hc Hk].
    exists c. split; [apply In_sorted_keys; rewrite <- Hc; apply in_map, Hin|].
    apply in_flat_map. exists k.
    split; [apply In_sorted_keys; rewrite <- Hk; apply in_map, Hin|].
    rewrite E. now left.
Qed.

Lemma In_cohort_pivot data c k n :
  In (c, k, n) (Cohort.cohort_pivot data) ↔ active data c k = Some n.
Proof.
  unfold Cohort.cohort_pivot, active. rewrite in_map_iff. split.
  - intros ([[c' k'] x] & [= <- <- <-] & H). apply In_groups in H as [-> Hne].
    destruct (List.filter (Cohort.in_cell c' k') data); [congruence|reflexivity].
  - intros H. exists (c, k, List.filter (Cohort.in_cell c k) data).
    destruct (List.filter (Cohort.in_cell c k) data) as [|r x] eqn:E; [discriminate|].
    injection H as <-. split; [reflexivity|].
    apply In_groups. rewrite E. split; [reflexivity|discriminate].
Qed.

Lemma find_cohort_pivot data c k :
  match List.find (λ '(c', k', _), (c' =? c) && (k' =? k)) (Cohort.cohort_pivot data) with
  | Some (_, _, n) => Some n
  | None => None
  end = active data c k.
Proof.
  destruct (List.find _ (Cohort.cohort_pivot data)) as [[[c' k'] n]|] eqn:F.
  - apply find_some in F as [Hin Hp].
    apply andb_true_iff in Hp as [Hc Hk]. apply Z.eqb_eq in Hc, Hk. subst.
    symmetry. apply In_cohort_pivot, Hin.
  - destruct (active data c k) as [n|] eqn:E; [|reflexivity].
    apply In_cohort_pivot in E. eapply find_none in F; [|exact E].
    cbn in F. rewrite !Z.eqb_refl in F. discriminate.
Qed.

Lemma active_Some_row data c k n :
  active data c k = Some n →
  ∃ r, In r data ∧ CohortRow.cohort_month r = c ∧ CohortRow.cohort_index r = k.
Proof.
  unfold active. destruct (List.filter (Cohort.in_cell c k) data) as [|r x] eqn:E;
    [discriminate|]. intros _.
  assert (Hr : In r (List.filter (Cohort.in_cell c k) data)) by (rewrite E; now left).
  apply filter_In in Hr as [Hin Hcell]. apply in_cell_spec in Hcell. exists r. tauto.
Qed.

Lemma row_active data r :
  In r data →
  ∃ n, active data (CohortRow.cohort_month r) (CohortRow.cohort_index r) = Some n.
Proof.
  intros Hin. unfold active.
  assert (Hr : In r (List.filter (Cohort.in_cell (CohortRow.cohort_month r)
                                     (CohortRow.cohort_index r)) data)).
  { apply filter_In. split; [exact Hin|]. apply in_cell_spec. auto. }
  destruct (List.filter _ data); [destruct Hr|eauto].
Qed.

(** The cohort table: its rows are the cohort months, its columns the
    cohort indices that occur, and a cell counts the distinct customers of
    the cohort active at the index. *)
Lemma pivot_cohort_pivot data :
  Cohort.pivot (Cohort.cohort_pivot data)
  = {| Cohort.index := Pandas.sorted_keys (map CohortRow.cohort_month data);
       Cohort.columns := Pandas.sorted_keys (map CohortRow.cohort_index data);
       Cohort.values :=
         map (λ c, map (active data c)
                       (Pandas.sorted_keys (map CohortRow.cohort_index data)))
             (Pandas.sorted_keys (map CohortRow.cohort_month data)) |}.
Proof.
  unfold Cohort.pivot.
  assert (Hi : Pandas.sorted_keys (map (λ '(c, _, _), c) (Cohort.cohort_pivot data))
               = Pandas.sorted_keys (map CohortRow.cohort_month data)).
  { apply sorted_keys_ext. intros c. rewrite !in_map_iff. split.
    - intros ([[c' k] n] & <- & H). apply In_cohort_pivot, active_Some_row in H.
      destruct H as (r & Hin & Hc & _). eauto.
    - intros (r & <- & Hin). destruct (row_active data r Hin) as [n Hn].
      apply In_cohort_pivot in Hn. eexists. split; [|exact Hn]. reflexivity. }
  assert (Hk : Pandas.sorted_keys (map (λ '(_, k, _), k) (Cohort.cohort_pivot data))
               = Pandas.sorted_keys (map CohortRow.cohort_index data)).
  { apply sorted_keys_ext. intros k. rewrite !in_map_iff. split.
    - intros ([[c k'] n] & <- & H). apply In_cohort_pivot, active_Some_row in H.
      destruct H as (r & Hin & _ & Hk). eauto.
    - intros (r & <- & Hin). destruct (row_active data r Hin) as [n Hn].
      apply In_cohort_pivot in Hn. eexists. split; [|exact Hn]. reflexivity. }
  rewrite Hi, Hk. f_equal.
  apply map_ext. intros c. apply map_ext. intros k. apply find_cohort_pivot.
Qed.

(** ** Reading a table *)

Lemma position_Some k l : In k l → ∃ i, Cohort.position k l = Some i.
Proof.
  induction l as [|x l IH]; intros H; [destruct H|]. simpl.
  destruct (x =? k) eqn:E; [eauto|].
  apply Z.eqb_neq in E. destruct H as [->|H]; [congruence|].
  destruct (IH H) as [i ->]. simpl. eauto.
Qed.

Lemma position_None k l : ¬ In k l → Cohort.position k l = None.
Proof.
  induction l as [|x l IH]; intros H; [reflexivity|]. simpl.
  destruct (x =? k) eqn:E.
  - apply Z.eqb_eq in E. subst. destruct H. now left.
  - rewrite IH; [reflexivity|]. intros Hin. apply H. now right.
Qed.

Lemma nth_position {B} (f : Z → B) (d : B) k : ∀ l i,
  Cohort.position k l = Some i → nth i (map f l) d = f k.
Proof.
  induction l as [|x l IH]; intros i H; [discriminate|]. simpl in H.
  destruct (x =? k) eqn:E.
  - apply Z.eqb_eq in E. subst. injection H as <-. reflexivity.
  - destruct (Cohort.position k l) as [j|]; [|discriminate].
    injection H as <-. simpl. apply IH. reflexivity.
Qed.

Lemma has_column_spec {A} (t : Cohort.table A) k :
  Cohort.has_column t k = true ↔ In k (Cohort.columns t).
Proof.
  unfold Cohort.has_column. rewrite existsb_exists. split.
  - intros (x & Hin & E). apply Z.eqb_eq in E. subst. exact Hin.
  - intros H. exists k. split; [exact H|apply Z.eqb_refl].
Qed.

Section TableOf.
Context {A : Type} (idx cols : list Z) (g : Z → Z → option A).

Lemma getitem_table_of k :
  In k cols → Cohort.getitem (table_of idx cols g) k = Ok (map (λ c, g c k) idx).
Proof.
  intros H. destruct (position_Some k cols H) as [i Hi].
  unfold Cohort.getitem, table_of. cbn [Cohort.columns Cohort.values]. rewrite Hi.
  f_equal. rewrite map_map. apply map_ext. intros c. apply nth_position, Hi.
Qed.

Lemma getitem_table_of_missing k :
  ¬ In k cols → Cohort.getitem (table_of idx cols g) k = Raise (KeyError (KInt k)).
Proof.
  intros H. unfold Cohort.getitem, table_of. cbn [Cohort.columns].
  rewrite position_None by exact H. reflexivity.
Qed.

Lemma cell_table_of c k :
  In c idx → In k cols → Cohort.cell (table_of idx cols g) c k = g c k.
Proof.
  intros Hc Hk. destruct (position_Some c idx Hc) as [i Hi].
  destruct (position_Some k cols Hk) as [j Hj].
  unfold Cohort.cell, table_of. cbn [Cohort.index Cohort.columns Cohort.values].
  rewrite Hi, Hj. rewrite (nth_position (λ c, map (g c) cols) [] c idx i Hi).
  apply nth_position, Hj.
Qed.

Lemma cell_table_of_In c k v :
  Cohort.cell (table_of idx cols g) c k = Some v → In c idx ∧ In k cols.
Proof.
  unfold Cohort.cell, table_of. cbn [Cohort.index Cohort.columns].
  destruct (in_dec Z.eq_dec c idx) as [Hc|Hc]; [|rewrite (position_None c idx Hc); discriminate].
  destruct (in_dec Z.eq_dec k cols) as [Hk|Hk]; [auto|].
  rewrite (position_None k cols Hk). destruct (Cohort.position c idx); discriminate.
Qed.

Lemma iloc_first_column_table_of k0 rest :
  cols = k0 :: rest →
  Cohort.iloc_first_column (table_of idx cols g) = Ok (map (λ c, g c k0) idx).
Proof.
  intros ->. unfold Cohort.iloc_first_column, table_of. cbn [Cohort.columns Cohort.values].
  f_equal. rewrite map_map. reflexivity.
Qed.
End TableOf.

Lemma divide_table_of idx cols (g : Z → Z → option Z) (h : Z → option Z) :
  Cohort.divide_rows_times_100 (table_of idx cols g) (map h idx)
  = table_of idx cols (λ c k, Cohort.percent_of (g c k) (h c)).
Proof.
  unfold Cohort.divide_rows_times_100, table_of. cbn [Cohort.index Cohort.columns Cohort.values].
  f_equal. induction idx as [|c idx' IH]; [reflexivity|]. simpl. f_equal.
  - apply map_map.
  - exact IH.
Qed.

Lemma sorted_head_zero (l : list Z) :
  StronglySorted Z.lt l → In 0 l → (∀ x, In x l → 0 ≤ x) → ∃ rest, l = 0 :: rest.
Proof.
  intros Hs H0 Hge. destruct Hs as [|a l Hs Ha]; [destruct H0|].
  exists l. f_equal. rewrite List.Forall_forall in Ha.
  destruct H0 as [->|H0]; [reflexivity|].
  apply Ha in H0. specialize (Hge a (or_introl eq_refl)). lia.
Qed.

(** ** Running the cohort engine *)

Lemma cohort_data_or_create_ready s df :
  cohort_ready s df →
  Cohort.cohort_data_or_create s
  = (computed s (order_rows df), Ok (cohort_rows (order_rows df))).
Proof.
  destruct s as [w [o cd]]. intros [Hdf Hcd]. simpl in Hdf, Hcd.
  unfold Cohort.cohort_data_or_create, computed, cohort_rows. run_step. simpl.
  destruct Hcd as [->| ->].
  - unfold Cohort.create_cohorts. repeat run_step. simpl. rewrite Hdf. repeat run_step.
    rewrite with_cohort_columns_rows. reflexivity.
  - rewrite with_cohort_columns_rows. reflexivity.
Qed.


Lemma In_cohort_rows rows r :
  In r (cohort_rows rows) ↔ ∃ o, In o rows ∧ r = cohort_row rows o.
Proof.
  unfold cohort_rows. rewrite in_map_iff. split; intros (o & H1 & H2); exists o; auto.
Qed.

Lemma In_cohort_indices rows k :
  In k (cohort_indices rows) ↔ ∃ o, In o rows ∧ order_cohort_index rows o = k.
Proof.
  unfold cohort_indices. rewrite In_sorted_keys, in_map_iff. split.
  - intros (r & <- & Hr). apply In_cohort_rows in Hr as (o & Ho & ->). eauto.
  - intros (o & Ho & <-). exists (cohort_row rows o). split; [reflexivity|].
    apply In_cohort_rows. eauto.
Qed.

Lemma In_cohort_months rows c :
  In c (cohort_months rows)
  ↔ ∃ o, In o rows
         ∧ Pandas.to_period_M (Cohort.cohort_date (Order.customer_id o) rows) = c.
Proof.
  unfold cohort_months. rewrite In_sorted_keys, in_map_iff. split.
  - intros (r & <- & Hr). apply In_cohort_rows in Hr as (o & Ho & ->). eauto.
  - intros (o & Ho & <-). exists (cohort_row rows o). split; [reflexivity|].
    apply In_cohort_rows. eauto.
Qed.

(** Index 0 is the first column of the table of a non-empty orders table. *)
Lemma cohort_indices_head rows : rows ≠ [] → ∃ rest, cohort_indices rows = 0 :: rest.
Proof.
  intros Hne. apply sorted_head_zero.
  - apply sorted_keys_sorted.
  - destruct rows as [|o rows']; [congruence|].
    destruct (first_order_index (o :: rows') o (or_introl eq_refl)) as (o0 & Hin & _ & H0).
    apply In_cohort_indices. eauto.
  - intros k Hk. apply In_cohort_indices in Hk as (o & Ho & <-).
    apply order_cohort_index_nonneg, Ho.
Qed.

Lemma calculate_retention_runs s df :
  cohort_ready s df → order_rows df ≠ [] →
  Cohort.calculate_retention s
  = (computed s (order_rows df),
     Ok (cohort_table_of (order_rows df), retention_table_of (order_rows df))).
Proof.
  intros Hr Hne. unfold Cohort.calculate_retention.
  rewrite bind_unfold, (cohort_data_or_create_ready s df Hr).
  rewrite pivot_cohort_pivot.
  fold (cohort_months (order_rows df)). fold (cohort_indices (order_rows df)).
  fold (table_of (cohort_months (order_rows df)) (cohort_indices (order_rows df))
          (active (cohort_rows (order_rows df)))).
  destruct (cohort_indices_head _ Hne) as [rest Hcols].
  run_step. rewrite (iloc_first_column_table_of _ _ _ 0 rest Hcols).
  run_step. rewrite divide_table_of. reflexivity.
Qed.

Lemma calculate_retention_empty s df :
  cohort_ready s df → order_rows df = [] →
  Cohort.calculate_retention s
  = (computed s [], Raise (IndexError "single positional indexer is out-of-bounds")).
Proof.
  intros Hr He. unfold Cohort.calculate_retention.
  rewrite bind_unfold, (cohort_data_or_create_ready s df Hr), He. reflexivity.
Qed.

(** ** Cohort sizes and retention *)

Lemma nunique_incl l1 l2 : incl l1 l2 → Pandas.nunique l1 ≤ Pandas.nunique l2.
Proof.
  intros H. unfold Pandas.nunique. apply inj_le, NoDup_incl_length.
  - apply strongly_sorted_NoDup, sorted_keys_sorted.
  - intros x Hx. apply In_sorted_keys, H, In_sorted_keys, Hx.
Qed.

Lemma active_positive data c k n : active data c k = Some n → 1 ≤ n.
Proof.
  unfold active. destruct (List.filter (Cohort.in_cell c k) data) as [|r x]; [discriminate|].
  intros [= <-]. unfold Pandas.nunique.
  assert (H : In (CohortRow.customer_id r)
                 (Pandas.sorted_keys (map CohortRow.customer_id (r :: x))))
    by (apply In_sorted_keys; now left).
  destruct (Pandas.sorted_keys _); [destruct H|]. simpl length. lia.
Qed.

(** Every customer active in a cohort at some index is among the customers
    of that cohort at index 0. *)
Lemma active_within_cohort rows c k n :
  active (cohort_rows rows) c k = Some n →
  ∃ n0, active (cohort_rows rows) c 0 = Some n0 ∧ n ≤ n0.
Proof.
  intros H. pose proof H as H'. unfold active in H.
  set (x := List.filter (Cohort.in_cell c k) (cohort_rows rows)) in *.
  set (x0 := List.filter (Cohort.in_cell c 0) (cohort_rows rows)).
  assert (Hincl : incl (map CohortRow.customer_id x) (map CohortRow.customer_id x0)).
  { intros cid Hcid. apply in_map_iff in Hcid as (r & <- & Hr).
    apply filter_In in Hr as [Hr Hcell]. apply in_cell_spec in Hcell as [Hm _].
    apply In_cohort_rows in Hr as (o & Ho & ->).
    destruct (first_order_index rows o Ho) as (o0 & Ho0 & Hid & H0).
    apply in_map_iff. exists (cohort_row rows o0). split; [exact Hid|].
    apply filter_In. split; [apply In_cohort_rows; eauto|].
    apply in_cell_spec. split; [|exact H0].
    simpl in *. rewrite Hid. exact Hm. }
  destruct x as [|r x'] eqn:Ex; [discriminate|]. injection H as <-.
  unfold active. fold x0. destruct x0 as [|r0 x0'] eqn:Ex0.
  - destruct (Hincl (CohortRow.customer_id r)). now left.
  - eexists. split; [reflexivity|]. apply nunique_incl, Hincl.
Qed.

Lemma cohort_month_has_first_order rows c :
  In c (cohort_months rows) → ∃ n0, active (cohort_rows rows) c 0 = Some n0.
Proof.
  intros H. apply In_cohort_months in H as (o & Ho & Hc).
  destruct (row_active (cohort_rows rows) (cohort_row rows o)) as [n Hn].
  { apply In_cohort_rows. eauto. }
  simpl in Hn. rewrite Hc in Hn.
  destruct (active_within_cohort rows c _ n Hn) as (n0 & Hn0 & _). eauto.
Qed.

Lemma percent_of_self n : 1 ≤ n → (inject_Z n / inject_Z n * 100 == 100)%Q.
Proof.
  intros H. destruct n as [|p|p]; try lia.
  unfold Qeq, Qdiv, Qmult, Qinv. simpl. lia.
Qed.

Lemma percent_of_le n n0 : 1 ≤ n ≤ n0 → (inject_Z n / inject_Z n0 * 100 <= 100)%Q.
Proof.
  intros H. destruct n0 as [|p|p]; try lia.
  unfold Qle, Qdiv, Qmult, Qinv. simpl. lia.
Qed.

(** C5: for a non-empty orders table [calculate_retention] returns, and in
    the retention table the column of cohort index 0 holds 100 in the row
    of every cohort; each cell is the cell of the cohort table divided by
    the index-0 cell of its row, times 100. *)
Theorem retention_index_0_is_100 (s : Cohort.St) (df : OrdersDF)
    (Hready : cohort_ready s df) (Hne : order_rows df ≠ []) :
  ∃ s' ct rt col,
    Cohort.calculate_retention s = (s', Ok (ct, rt))
    ∧ Cohort.index rt = cohort_months (order_rows df)
    ∧ Cohort.getitem rt 0 = Ok col
    ∧ length col = length (Cohort.index rt)
    ∧ (∀ v, In v col → ∃ q, v = Some q ∧ (q == 100)%Q)
    ∧ (∀ c, In c (Cohort.index rt) → ∃ q, Cohort.cell rt c 0 = Some q ∧ (q == 100)%Q)
    ∧ (∀ c k, In c (Cohort.index rt) → In k (Cohort.columns rt) →
         Cohort.cell rt c k = Cohort.percent_of (Cohort.cell ct c k) (Cohort.cell ct c 0)).
Proof.
  set (rows := order_rows df) in *.
  destruct (cohort_indices_head rows Hne) as [rest Hcols].
  assert (H0 : In 0 (cohort_indices rows)) by (rewrite Hcols; now left).
  assert (Hcell : ∀ c, In c (cohort_months rows) →
            ∃ q, Cohort.percent_of (active (cohort_rows rows) c 0)
                                   (active (cohort_rows rows) c 0) = Some q
                 ∧ (q == 100)%Q).
  { intros c Hc. destruct (cohort_month_has_first_order rows c Hc) as [n0 Hn0].
    rewrite Hn0. eexists. split; [reflexivity|].
    apply percent_of_self. eapply active_positive, Hn0. }
  exists (computed s rows), (cohort_table_of rows), (retention_table_of rows).
  eexists. split; [apply calculate_retention_runs; assumption|].
  split; [reflexivity|]. unfold retention_table_of, cohort_table_of.
  split; [apply getitem_table_of, H0|].
  split; [apply length_map|]. split; [|split].
  - intros v Hv. apply in_map_iff in Hv as (c & <- & Hc). apply Hcell, Hc.
  - intros c Hc. rewrite cell_table_of by assumption. apply Hcell, Hc.
  - intros c k Hc Hk. rewrite !cell_table_of by assumption. reflexivity.
Qed.

Lemma retention_index_0_is_100_witness :
  ∃ s' ct rt col,
    Cohort.calculate_retention sample_cohort = (s', Ok (ct, rt))
    ∧ Cohort.getitem rt 0 = Ok col
    ∧ ∀ v, In v col → ∃ q, v = Some q ∧ (q == 100)%Q.
Proof.
  destruct (retention_index_0_is_100 sample_cohort (to_datetime_column sample_orders))
    as (s' & ct & rt & col & H1 & _ & H2 & _ & H3 & _).
  - split; [vm_compute; reflexivity|left; reflexivity].
  - discriminate.
  - exists s', ct, rt, col. auto.
Defined.

(** C7: for a non-empty orders table, in every row of the cohort table
    the count at any cohort index is at most the count at index 0, the
    cohort's initial size, and the retention percentage of the cell is at
    most 100. A cell of the cohort table is the number of distinct
    customers of the cohort with an order at that index. *)
Theorem active_count_within_cohort_size (s : Cohort.St) (df : OrdersDF)
    (Hready : cohort_ready s df) (Hne : order_rows df ≠ []) :
  ∃ s' ct rt,
    Cohort.calculate_retention s = (s', Ok (ct, rt))
    ∧ (∀ c k, In c (Cohort.index ct) → In k (Cohort.columns ct) →
         Cohort.cell ct c k = active (cohort_rows (order_rows df)) c k)
    ∧ ∀ c k n, Cohort.cell ct c k = Some n →
        ∃ n0 p, Cohort.cell ct c 0 = Some n0 ∧ 1 ≤ n ≤ n0
                ∧ Cohort.cell rt c k = Some p ∧ (p <= 100)%Q.
Proof.
  set (rows := order_rows df) in *.
  destruct (cohort_indices_head rows Hne) as [rest Hcols].
  assert (H0 : In 0 (cohort_indices rows)) by (rewrite Hcols; now left).
  exists (computed s rows), (cohort_table_of rows), (retention_table_of rows).
  split; [apply calculate_retention_runs; assumption|].
  unfold retention_table_of, cohort_table_of. split.
  - intros c k Hc Hk. apply cell_table_of; assumption.
  - intros c k n Hn. destruct (cell_table_of_In _ _ _ _ _ _ Hn) as [Hc Hk].
    rewrite cell_table_of in Hn by assumption.
    destruct (active_within_cohort rows c k n Hn) as (n0 & Hn0 & Hle).
    pose proof (active_positive _ _ _ _ Hn) as Hpos.
    exists n0. eexists. rewrite !cell_table_of by assumption.
    rewrite Hn, Hn0. repeat split; try lia.
    apply percent_of_le. lia.
Qed.

Lemma active_count_within_cohort_size_witness :
  ∃ s' ct rt,
    Cohort.calculate_retention sample_cohort = (s', Ok (ct, rt))
    ∧ ∀ c k n, Cohort.cell ct c k = Some n →
        ∃ n0 p, Cohort.cell ct c 0 = Some n0 ∧ 1 ≤ n ≤ n0
                ∧ Cohort.cell rt c k = Some p ∧ (p <= 100)%Q.
Proof.
  destruct (active_count_within_cohort_size sample_cohort (to_datetime_column sample_orders))
    as (s' & ct & rt & H1 & _ & H2).
  - split; [vm_compute; reflexivity|left; reflexivity].
  - discriminate.
  - exists s', ct, rt. auto.
Defined.

(** ** The retention summary *)

Lemma mean_if_present_table_of idx cols (g : Z → Z → option Q) k :
  Cohort.mean_if_present (table_of idx cols g) k
  = Ok (if Cohort.has_column (table_of idx cols g) k
        then Some (Cohort.mean (map (λ c, g c k) idx))
        else None).
Proof.
  unfold Cohort.mean_if_present.
  destruct (Cohort.has_column (table_of idx cols g) k) eqn:E; [|reflexivity].
  apply has_column_spec in E. cbn [table_of Cohort.columns] in E.
  rewrite getitem_table_of by exact E. reflexivity.
Qed.

Lemma has_column_retention rows k :
  Cohort.has_column (retention_table_of rows) k = true
  ↔ ∃ o, In o rows ∧ order_cohort_index rows o = k.
Proof. rewrite has_column_spec. apply In_cohort_indices. Qed.

(** C9: [get_retention_summary] returns exactly when some order lies one
    calendar month after the first order of its customer; the entries of
    months 3, 6 and 12 are then [None] exactly when no order lies that many
    months after its customer's first order. Otherwise the call raises:
    the column of index 1 is read without a test. *)
Theorem retention_summary_needs_index_1 (s : Cohort.St) (df : OrdersDF)
    (Hready : cohort_ready s df) :
  let reached k :=
    ∃ o, In o (order_rows df) ∧ order_cohort_index (order_rows df) o = k in
  (reached 1 →
     ∃ s' sm, Cohort.get_retention_summary s = (s', Ok sm)
       ∧ (Cohort.month_3_retention sm = None ↔ ¬ reached 3)
       ∧ (Cohort.month_6_retention sm = None ↔ ¬ reached 6)
       ∧ (Cohort.month_12_retention sm = None ↔ ¬ reached 12))
  ∧ (¬ reached 1 → ∃ s' e, Cohort.get_retention_summary s = (s', Raise e)).
Proof.
  intros reached. set (rows := order_rows df) in *.
  assert (Hnone : ∀ k (v : Q),
            (if Cohort.has_column (retention_table_of rows) k then Some v else None) = None
            ↔ ¬ reached k).
  { intros k v. unfold reached. rewrite <- has_column_retention.
    destruct (Cohort.has_column (retention_table_of rows) k); split;
      try discriminate; try congruence; auto. }
  split.
  - intros H1. assert (Hne : rows ≠ []).
    { destruct H1 as (o & Ho & _). intros E. rewrite E in Ho. exact Ho. }
    destruct (cohort_indices_head rows Hne) as [rest Hcols].
    assert (H0 : In 0 (cohort_indices rows)) by (rewrite Hcols; now left).
    apply In_cohort_indices in H1.
    unfold Cohort.get_retention_summary.
    rewrite bind_unfold, (calculate_retention_runs s df Hready Hne). fold rows.
    cbn beta iota. repeat run_step.
    unfold retention_table_of at 1. rewrite getitem_table_of by exact H1.
    repeat run_step. unfold retention_table_of at 1 2 3.
    rewrite !mean_if_present_table_of. repeat run_step.
    unfold cohort_table_of. rewrite getitem_table_of by exact H0.
    repeat run_step. do 2 eexists. split; [reflexivity|].
    cbn [Cohort.month_3_retention Cohort.month_6_retention Cohort.month_12_retention].
    repeat split; apply Hnone.
  - intros H1. unfold Cohort.get_retention_summary. rewrite bind_unfold.
    assert (Hdec : ∀ l : list Order.t, l = [] ∨ l ≠ [])
      by (intros [|]; [left|right]; congruence).
    destruct (Hdec rows) as [E|Hne].
    + rewrite (calculate_retention_empty s df Hready E). eauto.
    + rewrite (calculate_retention_runs s df Hready Hne). fold rows.
      cbn beta iota. repeat run_step.
      unfold retention_table_of at 1. rewrite getitem_table_of_missing.
      * eauto.
      * intros Hin. apply H1, In_cohort_indices, Hin.
Qed.

Lemma retention_summary_needs_index_1_witness :
  ∃ s' sm, Cohort.get_retention_summary sample_cohort = (s', Ok sm).
Proof.
  destruct (retention_summary_needs_index_1 sample_cohort (to_datetime_column sample_orders))
    as [H _].
  - split; [vm_compute; reflexivity|left; reflexivity].
  - destruct H as (s' & sm & H & _).
    + exists (Order.mk 3 1 (day 2023 2 28) (cents 500)). split; [simpl; auto|].
      vm_compute. reflexivity.
    + eauto.
Defined.

Example retention_summary_without_index_1 :
  snd (Cohort.get_retention_summary
         ({| orders_frames := {[ 1%positive := to_datetime_column same_day_orders ]};
             customers_frames := ∅; files := ∅ |},
          {| Cohort.orders := 1%positive; Cohort.cohort_data := None |}))
  = Raise (KeyError (KInt 1)).
Proof. vm_compute. reflexivity. Qed.

(** ** Runs of the generator *)

Lemma g_bind_ok {A B} (m : Generator.G A) (k : A → Generator.G B) draws rest b :
  (m ≫= k) draws = Some (rest, Ok b) →
  ∃ a mid, m draws = Some (mid, Ok a) ∧ k a mid = Some (rest, Ok b).
Proof.
  unfold mbind, Generator.G_bind, Generator.g_bind.
  destruct (m draws) as [[mid [a|e]]|]; try discriminate. eauto.
Qed.

Lemma g_ret_ok {A} (a b : A) draws rest :
  (mret a : Generator.G A) draws = Some (rest, Ok b) → b = a ∧ rest = draws.
Proof.
  cbv [mret Generator.G_ret Generator.g_ret]. intros H. injection H as <- <-. auto.
Qed.

(** A property of the loop state that every iteration keeps holds when the
    loop is left. *)
Lemma for_each_inv {A S} (I : S → Prop) (body : A → S → Generator.G S) :
  (∀ x s draws rest s', I s → body x s draws = Some (rest, Ok s') → I s') →
  ∀ xs s draws rest s',
    I s → Generator.for_each xs body s draws = Some (rest, Ok s') → I s'.
Proof.
  intros Hbody xs. induction xs as [|x xs IH]; intros s draws rest s' Hs H; simpl in H.
  - apply g_ret_ok in H as [-> _]. exact Hs.
  - apply g_bind_ok in H as (s1 & mid & H1 & H2).
    eapply IH; [|exact H2]. eapply Hbody; eassumption.
Qed.

Lemma for_each_break_inv {A S} (I : S → Prop) (body : A → S → Generator.G (S + S)) :
  (∀ x s draws rest o, I s → body x s draws = Some (rest, Ok o) →
     match o with inl s' | inr s' => I s' end) →
  ∀ xs s draws rest s',
    I s → Generator.for_each_break xs body s draws = Some (rest, Ok s') → I s'.
Proof.
  intros Hbody xs. induction xs as [|x xs IH]; intros s draws rest s' Hs H; simpl in H.
  - apply g_ret_ok in H as [-> _]. exact Hs.
  - apply g_bind_ok in H as (o & mid & H1 & H2).
    pose proof (Hbody _ _ _ _ _ Hs H1) as Hb. destruct o as [s1|s1].
    + apply g_ret_ok in H2 as [-> _]. exact Hb.
    + eapply IH; eassumption.
Qed.

Lemma randint_range a b draws rest v :
  a ≤ b → Generator.randint a b draws = Some (rest, Ok v) → a ≤ v ≤ b.
Proof.
  intros Hab H. unfold Generator.randint, Generator._randbelow in H.
  apply g_bind_ok in H as (j & mid & H1 & H2).
  apply g_bind_ok in H1 as (r & mid' & _ & H1).
  apply g_ret_ok in H1 as [-> _]. apply g_ret_ok in H2 as [-> _].
  pose proof (Z.mod_pos_bound r (b - a + 1) ltac:(lia)). lia.
Qed.

(** ** Registration dates *)

Lemma customers_body_dates i customers draws rest customers' :
  Forall (λ c, Generator.START_DATE ≤ Generator.CustomerRec.registration_date c
               ≤ Generator.END_DATE) customers →
  Generator.customers_body i customers draws = Some (rest, Ok customers') →
  Forall (λ c, Generator.START_DATE ≤ Generator.CustomerRec.registration_date c
               ≤ Generator.END_DATE) customers'.
Proof.
  intros Hc H. unfold Generator.customers_body in H.
  apply g_bind_ok in H as (country & d1 & _ & H).
  apply g_bind_ok in H as (towns & d2 & _ & H).
  apply g_bind_ok in H as (city & d3 & _ & H).
  apply g_bind_ok in H as (days & d4 & Hdays & H).
  apply g_ret_ok in H as [-> _].
  apply randint_range in Hdays; [|vm_compute; discriminate].
  apply Forall_app. split; [exact Hc|]. constructor; [|constructor].
  simpl. lia.
Qed.

Lemma generate_customers draws rest t :
  Generator.generate draws = Some (rest, Ok t) →
  ∃ mid, Generator.customers_loop draws = Some (mid, Ok (Generator.df_customers t)).
Proof.
  intros H. unfold Generator.generate in H.
  apply g_bind_ok in H as (customers & d1 & Hc & H).
  apply g_bind_ok in H as (products & d2 & _ & H).
  apply g_bind_ok in H as (os & d3 & _ & H).
  apply g_ret_ok in H as [-> _]. simpl. eauto.
Qed.

(** C8, as the code has it: the registration date of every generated
    customer lies in the closed window, from the start date to the end date
    with both included. *)
Theorem registration_date_in_window (draws rest : list Z) (t : Generator.tables)
    (c : Generator.CustomerRec.t)
    (Hrun : Generator.generate draws = Some (rest, Ok t))
    (Hc : In c (Generator.df_customers t)) :
  Generator.START_DATE ≤ Generator.CustomerRec.registration_date c ≤ Generator.END_DATE.
Proof.
  apply generate_customers in Hrun as [mid Hrun]. unfold Generator.customers_loop in Hrun.
  pose proof (for_each_inv _ Generator.customers_body customers_body_dates
                _ _ _ _ _ (Forall_nil_2 _) Hrun) as H.
  rewrite List.Forall_forall in H. apply H, Hc.
Qed.

(** The run on [crafted_draws]: it uses up the draws and yields the four
    tables; the second customer is registered on the last day of the
    window, and the only order has two lines. *)
Lemma crafted_run :
  ∃ t, Generator.generate crafted_draws = Some ([], Ok t)
    ∧ nth_error (Generator.df_customers t) 1
      = Some (Generator.CustomerRec.mk 2 "Customer_2" "customer2@email.com"
                "USA" "New York" Generator.END_DATE)
    ∧ Generator.df_orders t
      = [Generator.OrderRec.mk 1 1 Generator.START_DATE (Generator.START_DATE + 1)
           (Float.decimal 9546 100) "Completed"]
    ∧ Generator.df_order_items t
      = [Generator.ItemRec.mk 1 1 1 1 (Float.decimal 5014 100) (Float.decimal 5 100)
           (Float.decimal 4763 100);
         Generator.ItemRec.mk 2 1 2 1 (Float.decimal 5034 100) (Float.decimal 5 100)
           (Float.decimal 4782 100)].
Proof.
  assert (H : run_digest (Generator.generate crafted_draws)
              = Some ([], Some (Generator.CustomerRec.mk 2 "Customer_2" "customer2@email.com"
                                 "USA" "New York" 20057),
                      [Generator.OrderRec.mk 1 1 18993 18994 (Float.decimal 9546 100)
                         "Completed"],
                      [Generator.ItemRec.mk 1 1 1 1 (Float.decimal 5014 100)
                         (Float.decimal 5 100) (Float.decimal 4763 100);
                       Generator.ItemRec.mk 2 1 2 1 (Float.decimal 5034 100)
                         (Float.decimal 5 100) (Float.decimal 4782 100)]))
    by (vm_compute; reflexivity).
  destruct (Generator.generate crafted_draws) as [[rest [t|e]]|]; try discriminate.
  unfold run_digest in H. injection H as -> H1 H2 H3. exists t.
  split; [reflexivity|]. split; [exact H1|]. rewrite H2, H3. split; reflexivity.
Qed.

Lemma registration_date_in_window_witness :
  ∃ t c, In c (Generator.df_customers t)
    ∧ Generator.START_DATE ≤ Generator.CustomerRec.registration_date c ≤ Generator.END_DATE.
Proof.
  destruct crafted_run as (t & Hrun & Hc & _).
  apply nth_error_In in Hc. eexists t, _. split; [exact Hc|].
  exact (registration_date_in_window crafted_draws [] t _ Hrun Hc).
Defined.

(** A customer registered on the end date of the window: the date is not
    strictly before the end. *)
Lemma registration_on_the_end_date :
  ∃ rest t c, Generator.generate crafted_draws = Some (rest, Ok t)
    ∧ In c (Generator.df_customers t)
    ∧ Generator.CustomerRec.registration_date c = Generator.END_DATE
    ∧ ¬ Generator.CustomerRec.registration_date c < Generator.END_DATE.
Proof.
  destruct crafted_run as (t & Hrun & Hc & _).
  apply nth_error_In in Hc. eexists [], t, _.
  split; [exact Hrun|]. split; [exact Hc|]. simpl. split; [reflexivity|lia].
Qed.

(** ** Order totals *)

Lemma iloc0_where_ok {A} (p : A → bool) df draws rest x :
  Generator.iloc0_where p df draws = Some (rest, Ok x) → List.find p df = Some x.
Proof.
  unfold Generator.iloc0_where. destruct (List.find p df); [|discriminate].
  intros H. apply g_ret_ok in H as [-> _]. reflexivity.
Qed.

Lemma items_loop_spec df_products oid : ∀ prods acc items0 id0 draws rest total items' id',
  Generator.for_each prods (Generator.items_body df_products oid) (acc, items0, id0) draws
  = Some (rest, Ok (total, items', id')) →
  ∃ new, items' = items0 ++ new
    ∧ total = fold_left Float.add (map item_amount new) acc
    ∧ Forall (λ i, Generator.ItemRec.order_id i = oid
                   ∧ Generator.ItemRec.line_total i = Float.np_round 2 (item_amount i))
             new.
Proof.
  induction prods as [|prod prods IH]; intros acc items0 id0 draws rest total items' id' H;
    simpl in H.
  - apply g_ret_ok in H as [[= -> -> ->] _]. exists []. rewrite app_nil_r. auto.
  - apply g_bind_ok in H as ([[acc1 items1] id1] & d1 & Hbody & H).
    unfold Generator.items_body in Hbody.
    apply g_bind_ok in Hbody as (product & d2 & _ & Hbody).
    apply g_bind_ok in Hbody as (quantity & d3 & _ & Hbody).
    apply g_bind_ok in Hbody as (discount & d4 & _ & Hbody).
    apply g_ret_ok in Hbody as [[= -> -> ->] _].
    apply IH in H as (new & -> & -> & Hnew).
    eexists (_ :: new). rewrite <- app_assoc. split; [reflexivity|].
    split; [reflexivity|]. constructor; [|exact Hnew]. split; reflexivity.
Qed.

Lemma items_of_app items new o :
  items_of (items ++ new) o = items_of items o ++ items_of new o.
Proof. unfold items_of. apply List.filter_app. Qed.

Lemma items_of_none items o :
  (∀ i, In i items → Generator.ItemRec.order_id i ≠ Generator.OrderRec.order_id o) →
  items_of items o = [].
Proof.
  intros H. unfold items_of. induction items as [|i items IH]; [reflexivity|]. simpl.
  destruct (Generator.ItemRec.order_id i =? Generator.OrderRec.order_id o) eqn:E.
  - apply Z.eqb_eq in E. destruct (H i (or_introl eq_refl) E).
  - apply IH. intros j Hj. apply H. now right.
Qed.

Lemma items_of_all items o :
  (∀ i, In i items → Generator.ItemRec.order_id i = Generator.OrderRec.order_id o) →
  items_of items o = items.
Proof.
  intros H. unfold items_of. induction items as [|i items IH]; [reflexivity|]. simpl.
  rewrite (H i (or_introl eq_refl)), Z.eqb_refl. f_equal.
  apply IH. intros j Hj. apply H. now right.
Qed.








(** * Further properties of the engines and the generator *)

(** ** Scores, segments and the customer join *)

Lemma bins_to_cuts_labels x bins labels cats v :
  Pandas.bins_to_cuts x bins labels = Ok cats → In (Some v) cats → In v labels.
Proof.
  unfold Pandas.bins_to_cuts. cbv zeta.
  destruct (negb (Pandas.nodup_labels labels)); [discriminate|].
  match goal with |- context [negb ?b] => destruct (negb b) end; [discriminate|].
  intros [= <-] Hin. apply in_map_iff in Hin as (y & Hy & _).
  match type of Hy with (if ?c then _ else _) = _ => destruct c end; [discriminate|].
  apply nth_error_In in Hy. exact Hy.
Qed.

Lemma astype_int_In cats : ∀ l v,
  Pandas.astype_int cats = Ok l → In v l → In (Some v) cats.
Proof.
  induction cats as [|[c|] cats IH]; simpl; intros l v H Hin; try discriminate.
  - injection H as <-. destruct Hin.
  - destruct (Pandas.astype_int cats) as [vs|]; [|discriminate].
    injection H as <-. destruct Hin as [->|Hin]; [now left|right; eapply IH; eauto].
Qed.

Lemma In_scored_scores x r f m seg : ∀ rfm rs fs ms,
  In (x, r, f, m, seg) (RFM.scored rfm rs fs ms) →
  In r rs ∧ In f fs ∧ In m ms ∧ seg = RFM._assign_segment r f m.
Proof.
  induction rfm as [|y rfm IH]; intros [|r' rs] [|f' fs] [|m' ms]; simpl;
    try tauto.
  intros [H|H].
  - injection H as <- <- <- <- <-. auto.
  - apply IH in H as (? & ? & ? & ?). auto.
Qed.

Lemma In_merge_left_scores row sc cust :
  In row (RFM.merge_left sc cust) →
  ∃ x r f m seg, In (x, r, f, m, seg) sc
    ∧ RfmRow.r_score row = r ∧ RfmRow.f_score row = f ∧ RfmRow.m_score row = m
    ∧ RfmRow.rfm_segment row = seg.
Proof.
  unfold RFM.merge_left. intros H.
  apply in_flat_map in H as ([[[[x r] f] m] seg] & Hin & H).
  exists x, r, f, m, seg. split; [exact Hin|].
  destruct (List.filter _ cust) as [|c0 cs].
  - destruct H as [<-|[]]. repeat split.
  - apply in_map_iff in H as (c & <- & _). repeat split.
Qed.

(** The score columns of a returned table come out of [qcut] and
    [astype(int)]. *)
Lemma calculate_rfm_scores d w self s' rows :
  RFM.calculate_rfm d (w, self) = (s', Ok rows) →
  ∃ rfm cust rs fs ms r_cat f_cat m_cat xf xm,
    Pandas.qcut_int (map RFM.m_recency rfm) 5 [5; 4; 3; 2; 1] = Ok r_cat
    ∧ Pandas.qcut_float xf 5 [1; 2; 3; 4; 5] = Ok f_cat
    ∧ Pandas.qcut_float xm 5 [1; 2; 3; 4; 5] = Ok m_cat
    ∧ Pandas.astype_int r_cat = Ok rs
    ∧ Pandas.astype_int f_cat = Ok fs
    ∧ Pandas.astype_int m_cat = Ok ms
    ∧ customers_frames w !! RFM.customers self = Some cust
    ∧ rows = RFM.merge_left (RFM.scored rfm rs fs ms) cust.
Proof.
  unfold RFM.calculate_rfm.
  repeat (run_step; try run_case); intros [= <- <-].
  match goal with
  | Hr : Pandas.qcut_int (map RFM.m_recency _) _ _ = Ok ?rc,
    Hf : Pandas.qcut_float (Pandas.rank_column (Pandas.rank_first _ Z.ltb _ _)) _ _
         = Ok ?fc,
    Hm : Pandas.qcut_float
           (Pandas.rank_column (Pandas.rank_first _ Pandas.number_ltb _ _)) _ _
         = Ok ?mc,
    Hrs : Pandas.astype_int ?rc = Ok ?rs,
    Hfs : Pandas.astype_int ?fc = Ok ?fs,
    Hms : Pandas.astype_int ?mc = Ok ?ms,
    Hc : customers_frames _ !! _ = Some ?cust |- _ =>
      do 10 eexists;
      exact (conj Hr (conj Hf (conj Hm (conj Hrs (conj Hfs (conj Hms (conj Hc eq_refl)))))))
  end.
Qed.

Lemma label_1_to_5 v : In v [5; 4; 3; 2; 1] ∨ In v [1; 2; 3; 4; 5] → 1 ≤ v ≤ 5.
Proof. simpl. intros [H|H]; intuition lia. Qed.

(** X1: in a table returned by [calculate_rfm] the three scores of every
    record are integers from 1 to 5, and the segment of the record is the
    one [_assign_segment] gives for these scores. *)
Theorem rfm_scores_in_range (w : world) (self : RFM.RFMAnalysis)
    (reference_date : option Pandas.Timestamp) (s' : RFM.St) (rows : list RfmRow.t)
    (row : RfmRow.t)
    (Hrun : RFM.calculate_rfm reference_date (w, self) = (s', Ok rows))
    (Hrow : In row rows) :
  1 ≤ RfmRow.r_score row ≤ 5
  ∧ 1 ≤ RfmRow.f_score row ≤ 5
  ∧ 1 ≤ RfmRow.m_score row ≤ 5
  ∧ RfmRow.rfm_segment row
    = RFM._assign_segment (RfmRow.r_score row) (RfmRow.f_score row) (RfmRow.m_score row).
Proof.
  apply calculate_rfm_scores in Hrun
    as (rfm & cust & rs & fs & ms & rc & fc & mc & xf & xm
        & Hr & Hf & Hm & Hrs & Hfs & Hms & _ & ->).
  apply In_merge_left_scores in Hrow as (x & r & f & m & seg & Hs & <- & <- & <- & <-).
  apply In_scored_scores in Hs as (Hir & Hif & Him & ->).
  repeat split; try reflexivity; apply label_1_to_5.
  1,2: left; eapply bins_to_cuts_labels; [exact Hr|eapply astype_int_In; eauto].
  1,2: right; eapply bins_to_cuts_labels; [exact Hf|eapply astype_int_In; eauto].
  1,2: right; eapply bins_to_cuts_labels; [exact Hm|eapply astype_int_In; eauto].
Qed.

Lemma rfm_scores_in_range_witness :
  ∃ row, In row sample_rfm_rows
    ∧ 1 ≤ RfmRow.r_score row ≤ 5 ∧ 1 ≤ RfmRow.f_score row ≤ 5
    ∧ 1 ≤ RfmRow.m_score row ≤ 5.
Proof.
  assert (H : ∀ row, In row sample_rfm_rows →
            1 ≤ RfmRow.r_score row ≤ 5 ∧ 1 ≤ RfmRow.f_score row ≤ 5
            ∧ 1 ≤ RfmRow.m_score row ≤ 5).
  { intros row Hin.
    destruct (rfm_scores_in_range (fst sample_rfm) (snd sample_rfm) None
                (fst (RFM.calculate_rfm None sample_rfm)) sample_rfm_rows row)
      as (Hr & Hf & Hm & _).
    - vm_compute. reflexivity.
    - exact Hin.
    - auto. }
  eexists. split; [left; reflexivity|]. apply H. left. reflexivity.
Defined.

(** X2: the segment is always one of the seven labels, and it is [Others]
    exactly for the scores the six rules leave over: recency and frequency
    scores of at least 3 with a monetary score of at most 2. *)
Theorem segment_others_iff (r f m : Z) :
  In (RFM._assign_segment r f m)
     ["Champions"; "Loyal"; "Potential Loyalist"; "At Risk"; "Cant Lose"; "Lost"; "Others"]
  ∧ (RFM._assign_segment r f m = "Others" ↔ 3 ≤ r ∧ 3 ≤ f ∧ m ≤ 2).
Proof.
  unfold RFM._assign_segment.
  destruct (4 <=? r) eqn:R4; destruct (4 <=? f) eqn:F4; destruct (4 <=? m) eqn:M4;
  destruct (3 <=? r) eqn:R3; destruct (3 <=? f) eqn:F3; destruct (3 <=? m) eqn:M3;
  destruct (r <=? 2) eqn:R2; destruct (f <=? 2) eqn:F2;
  cbn [andb];
  rewrite ?Z.leb_le, ?Z.leb_gt in *;
  (split; [simpl; tauto|]);
  (split; [intros E; try discriminate E; lia|intros E; try reflexivity; exfalso; lia]).
Qed.

(** ** The left join with the customers table *)

Lemma In_merge_left_join row sc cust :
  In row (RFM.merge_left sc cust) →
  (RfmRow.customer_name row = None ∧ RfmRow.country row = None
   ∧ ∀ c, In c cust → Customer.customer_id c ≠ RfmRow.customer_id row)
  ∨ (∃ c, In c cust ∧ Customer.customer_id c = RfmRow.customer_id row
          ∧ RfmRow.customer_name row = Some (Customer.customer_name c)
          ∧ RfmRow.country row = Some (Customer.country c)).
Proof.
  unfold RFM.merge_left. intros H.
  apply in_flat_map in H as ([[[[x r] f] m] seg] & Hin & H).
  destruct (List.filter (λ c, Customer.customer_id c =? RFM.m_customer_id x) cust)
    as [|c0 cs] eqn:E.
  - destruct H as [<-|[]]. left. repeat split. simpl. intros c Hc Hid.
    assert (Hf : In c (List.filter (λ c, Customer.customer_id c =? RFM.m_customer_id x) cust))
      by (apply filter_In; split; [exact Hc|apply Z.eqb_eq, Hid]).
    rewrite E in Hf. exact Hf.
  - rewrite <- E in H. apply in_map_iff in H as (c & <- & Hc).
    apply filter_In in Hc as [Hc Hid]. apply Z.eqb_eq in Hid.
    right. exists c. repeat split; assumption.
Qed.

Lemma rfm_record_exists w self d df s' rows c :
  orders_frames w !! RFM.orders self = Some df →
  RFM.calculate_rfm d (w, self) = (s', Ok rows) →
  In c (map Order.customer_id (order_rows df)) →
  ∃ row, In row rows ∧ RfmRow.customer_id row = c.
Proof.
  intros Hdf Hrun Hc.
  apply calculate_rfm_returns in Hrun as (df' & cust & rs & fs & ms & Hdf' & H).
  rewrite Hdf in Hdf'. injection Hdf' as <-. cbn zeta in H.
  destruct H as (Hr & Hf & Hm & ->).
  match type of Hr with _ = length (RFM.agg ?ref _) => set (reference := ref) in * end.
  set (mine := RFM.group_of c (order_rows df)).
  set (x := {| RFM.m_customer_id := c;
               RFM.m_recency :=
                 reference - Pandas.series_max 0 (map Order.order_date mine);
               RFM.m_frequency := Z.of_nat (length mine);
               RFM.m_monetary :=
                 Pandas.group_sum
                   (Pandas.int_column (map Order.total_amount (order_rows df)))
                   (map Order.total_amount mine) |}).
  assert (Hx : In x (RFM.agg reference (order_rows df))).
  { unfold RFM.agg. apply in_map_iff. exists c. split; [reflexivity|].
    apply In_sorted_keys, Hc. }
  destruct (scored_covers x _ rs fs ms Hr Hf Hm Hx) as (r & f & m & seg & Hs).
  destruct (merge_left_covers x r f m seg _ cust Hs) as (row & Hrow & Hid).
  exists row. auto.
Qed.

(** X3: the join with the customers table is a left join. A record of a
    returned table either carries the name and country of a row of the
    customers table with its customer id, or, when the table has no such
    row, carries nulls for both; a customer with an order and no row in the
    customers table still has a record. *)
Theorem rfm_left_join (w : world) (self : RFM.RFMAnalysis)
    (reference_date : option Pandas.Timestamp) (df : OrdersDF)
    (cust : list Customer.t) (s' : RFM.St) (rows : list RfmRow.t)
    (Hdf : orders_frames w !! RFM.orders self = Some df)
    (Hcust : customers_frames w !! RFM.customers self = Some cust)
    (Hrun : RFM.calculate_rfm reference_date (w, self) = (s', Ok rows)) :
  (∀ row, In row rows →
     (RfmRow.customer_name row = None ∧ RfmRow.country row = None
      ∧ ∀ c, In c cust → Customer.customer_id c ≠ RfmRow.customer_id row)
     ∨ (∃ c, In c cust ∧ Customer.customer_id c = RfmRow.customer_id row
             ∧ RfmRow.customer_name row = Some (Customer.customer_name c)
             ∧ RfmRow.country row = Some (Customer.country c)))
  ∧ (∀ c, In c (map Order.customer_id (order_rows df)) →
       ¬ In c (map Customer.customer_id cust) →
       ∃ row, In row rows ∧ RfmRow.customer_id row = c
              ∧ RfmRow.customer_name row = None ∧ RfmRow.country row = None).
Proof.
  pose proof Hrun as Hrun'.
  apply calculate_rfm_scores in Hrun
    as (rfm & cust' & rs & fs & ms & rc & fc & mc & xf & xm & _ & _ & _ & _ & _ & _ & Hc & ->).
  rewrite Hcust in Hc. injection Hc as <-.
  assert (Hjoin := λ row, In_merge_left_join row (RFM.scored rfm rs fs ms) cust).
  split; [exact Hjoin|].
  intros c Hc Hnot.
  destruct (rfm_record_exists w self reference_date df s' _ c Hdf Hrun' Hc)
    as (row & Hrow & Hid).
  exists row. split; [exact Hrow|]. split; [exact Hid|].
  destruct (Hjoin row Hrow) as [(Hn & Hco & _)|(cu & Hcu & Hcid & _)]; [auto|].
  destruct Hnot. apply in_map_iff. exists cu. split; [congruence|exact Hcu].
Qed.

Lemma rfm_left_join_witness :
  ∃ row, In row sample_rfm_rows ∧ RfmRow.customer_id row = 3
         ∧ RfmRow.customer_name row = None ∧ RfmRow.country row = None.
Proof.
  destruct (rfm_left_join (fst sample_rfm) (snd sample_rfm) None sample_orders
              sample_customers (fst (RFM.calculate_rfm None sample_rfm)) sample_rfm_rows)
    as [_ H].
  - vm_compute. reflexivity.
  - vm_compute. reflexivity.
  - vm_compute. reflexivity.
  - apply (H 3).
    + vm_compute. auto 10.
    + vm_compute. intros [H1|[H1|[]]]; discriminate.
Defined.

(** ** What [calculate_rfm] leaves behind *)

(** X4: a call of [calculate_rfm] that returns stores the returned table
    in [rfm_data]; [get_segment_summary] then returns the summary of that
    table and [export_results] writes that table to the given path. A call
    that raises leaves [rfm_data] as it was, so a table of an earlier call
    stays in place. Either way the engine keeps its two references. *)
Theorem calculate_rfm_then (w : world) (self : RFM.RFMAnalysis)
    (reference_date : option Pandas.Timestamp) (path : string) :
  let s' := fst (RFM.calculate_rfm reference_date (w, self)) in
  RFM.orders (snd s') = RFM.orders self
  ∧ RFM.customers (snd s') = RFM.customers self
  ∧ match snd (RFM.calculate_rfm reference_date (w, self)) with
    | Ok rows =>
        RFM.rfm_data (snd s') = Some rows
        ∧ RFM.get_segment_summary s' = (s', Ok (RFM.segment_rows rows))
        ∧ RFM.export_results path s'
          = ((set_files (<[path := RfmCsv rows]> (files (fst s'))) (fst s'), snd s'), Ok tt)
    | Raise _ => RFM.rfm_data (snd s') = RFM.rfm_data self
    end.
Proof.
  unfold RFM.calculate_rfm.
  repeat (run_step; try run_case); cbn [fst snd]; repeat split.
Qed.

(** ** Tied quantiles *)

(** X5: whenever two of the six quantile edges of the recency column
    coincide, so that [duplicates='drop'] drops an edge, [calculate_rfm]
    raises a [ValueError]: no table is ever scored with fewer than five
    recency buckets. *)
Theorem calculate_rfm_raises_when_quantiles_tie (w : world) (self : RFM.RFMAnalysis)
    (reference_date : option Pandas.Timestamp) (df : OrdersDF)
    (Hdf : orders_frames w !! RFM.orders self = Some df)
    (Htie :
       let reference :=
         match reference_date with
         | Some d => d
         | None => Pandas.series_max 0 (map Order.order_date (order_rows df))
         end in
       let recency := map RFM.m_recency (RFM.agg reference (order_rows df)) in
       (length (Pandas.unique (Pandas.int_edges recency 5)) < 6)%nat) :
  ∃ msg, snd (RFM.calculate_rfm reference_date (w, self)) = Raise (ValueError msg).
Proof.
  cbv zeta in Htie.
  match type of Htie with
  | (length (Pandas.unique (Pandas.int_edges ?x 5)) < 6)%nat =>
      destruct (bins_to_cuts_raises_on_duplicate_edges (map Float.of_Z x)
                  (Pandas.int_edges x 5) [5; 4; 3; 2; 1] eq_refl eq_refl Htie)
        as [msg Hq]
  end.
  exists msg. unfold RFM.calculate_rfm. repeat run_step. simpl. rewrite Hdf.
  repeat run_step. unfold Pandas.qcut_int. rewrite Hq. reflexivity.
Qed.

Lemma calculate_rfm_raises_when_quantiles_tie_witness :
  ∃ msg, snd (RFM.calculate_rfm None same_day_rfm) = Raise (ValueError msg).
Proof.
  apply (calculate_rfm_raises_when_quantiles_tie (fst same_day_rfm) (snd same_day_rfm)
           None same_day_orders).
  - vm_compute. reflexivity.
  - vm_compute. lia.
Defined.

(** ** A single customer *)

Lemma group_of_all c rows :
  (∀ o, In o rows → Order.customer_id o = c) → RFM.group_of c rows = rows.
Proof.
  intros H. unfold RFM.group_of. induction rows as [|o rows IH]; [reflexivity|]. simpl.
  rewrite (H o (or_introl eq_refl)), Z.eqb_refl. f_equal.
  apply IH. intros o' Ho'. apply H. now right.
Qed.

Lemma sorted_keys_of_one c l :
  l ≠ [] → (∀ k, In k l → k = c) → Pandas.sorted_keys l = [c].
Proof.
  induction l as [|k l IH]; [congruence|]. intros _ H.
  assert (k = c) as -> by (apply H; now left). simpl.
  destruct l as [|k' l']; [reflexivity|].
  rewrite IH; [|discriminate|intros k0 Hk0; apply H; now right].
  simpl. rewrite Z.ltb_irrefl, Z.eqb_refl. reflexivity.
Qed.

Lemma agg_one_customer reference rows c :
  rows ≠ [] → (∀ o, In o rows → Order.customer_id o = c) →
  map RFM.m_recency (RFM.agg reference rows)
  = [reference - Pandas.series_max 0 (map Order.order_date rows)].
Proof.
  intros Hne Hone. unfold RFM.agg.
  rewrite (sorted_keys_of_one c).
  - simpl. rewrite (group_of_all c _ Hone). reflexivity.
  - destruct rows; [congruence|discriminate].
  - intros k Hk. apply in_map_iff in Hk as (o & <- & Ho). apply Hone, Ho.
Qed.

Lemma same_key_refl x : Pandas.same_key x x = true.
Proof.
  unfold Pandas.same_key, Float.eqb, Float.compare.
  destruct x as [s|[|]| |s m e]; try reflexivity.
  cbv zeta. rewrite Z.compare_refl. reflexivity.
Qed.

Lemma sub_zero_r x : Float.sub x Float.zero = x.
Proof. destruct x as [[|]|[|]| |[|] m e]; reflexivity. Qed.

(** The six quantile edges of a column with a single integer are that
    integer. *)
Lemma int_edges_singleton v :
  Pandas.int_edges [v] 5 = repeat (Float.of_Z v) 6.
Proof.
  unfold Pandas.int_edges. cbn [Pandas.sort_values fold_right Pandas.insert_value].
  assert (H : ∀ q, In q (Pandas.linspace01 5) →
            Pandas.quantile Float.of_Z (λ b a, Pandas.wrap64 (b - a)) 0 [v] q
            = Float.of_Z v).
  { intros q Hq. unfold Pandas.quantile, Pandas.lerp, Pandas.item.
    cbn [length Z.of_nat]. change (Z.of_nat 1 - 1) with 0.
    assert (Hi : ∀ i, i = -1 → nth (Z.to_nat (if i <? 0 then 1 + i else i)) [v] 0 = v)
      by (intros i ->; reflexivity).
    vm_compute in Hq.
    repeat (destruct Hq as [<-|Hq];
            [match goal with
             | |- context [Float.leb (Float.of_Z 0) ?x] =>
                 let b := eval vm_compute in (Float.leb (Float.of_Z 0) x) in
                 change (Float.leb (Float.of_Z 0) x) with b
             end;
             cbn iota; rewrite !Hi by reflexivity; rewrite Z.sub_diag;
             match goal with
             | |- (if ?c then Float.sub _ ?y else _) = _ =>
                 let b := eval vm_compute in c in
                 let z := eval vm_compute in y in
                 change c with b; change y with z
             end;
             cbn iota; apply sub_zero_r|]).
    destruct Hq. }
  change (Pandas.linspace01 5) with (Pandas.linspace01 5) in *.
  set (qs := Pandas.linspace01 5) in *.
  assert (Hlen : length qs = 6%nat) by reflexivity.
  clearbody qs.
  do 7 (destruct qs as [|? qs]; try discriminate).
  cbn [map repeat].
  repeat (rewrite H by (simpl; auto 10)). reflexivity.
Qed.

(** X6: on an orders table whose orders all belong to one customer,
    [calculate_rfm] raises a [ValueError]: the six quantile edges of the
    one recency are equal. *)
Theorem calculate_rfm_raises_for_one_customer (w : world) (self : RFM.RFMAnalysis)
    (reference_date : option Pandas.Timestamp) (df : OrdersDF) (c : Z)
    (Hdf : orders_frames w !! RFM.orders self = Some df)
    (Hne : order_rows df ≠ [])
    (Hone : ∀ o, In o (order_rows df) → Order.customer_id o = c) :
  snd (RFM.calculate_rfm reference_date (w, self))
  = Raise (ValueError "Bin labels must be one fewer than the number of bin edges").
Proof.
  set (reference := match reference_date with
                    | Some d => d
                    | None => Pandas.series_max 0 (map Order.order_date (order_rows df))
                    end).
  unfold RFM.calculate_rfm. repeat run_step. simpl. rewrite Hdf.
  repeat run_step. fold reference.
  rewrite (agg_one_customer reference (order_rows df) c Hne Hone).
  unfold Pandas.qcut_int. rewrite int_edges_singleton.
  unfold Pandas.bins_to_cuts. cbn [repeat Pandas.unique].
  set (x := Float.of_Z _).
  cbn [List.filter]. rewrite same_key_refl. reflexivity.
Qed.

Lemma calculate_rfm_raises_for_one_customer_witness :
  ∃ msg, snd (RFM.calculate_rfm None one_customer_rfm) = Raise (ValueError msg).
Proof.
  eexists.
  apply (calculate_rfm_raises_for_one_customer (fst one_customer_rfm)
           (snd one_customer_rfm) None one_customer_orders 7).
  - vm_compute. reflexivity.
  - discriminate.
  - intros o [<-|[<-|[]]]; reflexivity.
Defined.

(** ** Counting by groups *)

Lemma list_sum_map_add {K} (a b : K → nat) keys :
  list_sum (map (λ k, a k + b k)%nat keys)
  = (list_sum (map a keys) + list_sum (map b keys))%nat.
Proof. induction keys as [|k keys IH]; simpl; [reflexivity|]. rewrite IH. lia. Qed.

Lemma list_sum_indicator {K} (eqb : K → K → bool) (y : K) keys :
  (∀ a b, eqb a b = true ↔ a = b) →
  List.NoDup keys → In y keys →
  list_sum (map (λ k, if eqb y k then 1 else 0)%nat keys) = 1%nat.
Proof.
  intros Heqb Hnd. induction Hnd as [|k keys Hk Hnd IH]; intros Hin; [destruct Hin|].
  simpl. destruct (eqb y k) eqn:E.
  - apply Heqb in E. subst k. f_equal.
    clear IH Hin Hnd. induction keys as [|k keys IH]; [reflexivity|]. simpl.
    destruct (eqb y k) eqn:E.
    + apply Heqb in E. subst k. destruct Hk. now left.
    + apply IH. intros H. apply Hk. now right.
  - destruct Hin as [->|Hin]; [|apply IH, Hin].
    assert (eqb y y = true) by (apply Heqb; reflexivity). congruence.
Qed.

(** The groups of a key column split the rows: the sizes of the groups of
    the distinct keys add up to the number of rows. *)
Lemma group_sizes_add_up {A K} (eqb : K → K → bool) (f : A → K) keys (l : list A) :
  (∀ a b, eqb a b = true ↔ a = b) →
  List.NoDup keys → (∀ x, In x l → In (f x) keys) →
  list_sum (map (λ k, length (List.filter (λ x, eqb (f x) k) l)) keys) = length l.
Proof.
  intros Heqb Hnd. induction l as [|x l IH]; intros Hcov.
  - simpl. clear. induction keys as [|k keys IH]; simpl; [reflexivity|exact IH].
  - transitivity (list_sum (map (λ k, (if eqb (f x) k then 1 else 0)
                                      + length (List.filter (λ x, eqb (f x) k) l))%nat keys)).
    + f_equal. apply map_ext. intros k. simpl. destruct (eqb (f x) k); reflexivity.
    + rewrite list_sum_map_add, (list_sum_indicator eqb (f x) keys Heqb Hnd).
      * rewrite IH; [reflexivity|]. intros y Hy. apply Hcov. now right.
      * apply Hcov. now left.
Qed.

Lemma Zsum_of_nat (l : list nat) : Zsum (map Z.of_nat l) = Z.of_nat (list_sum l).
Proof. induction l as [|x l IH]; simpl; [reflexivity|]. rewrite IH. lia. Qed.

(** ** The segment summary *)

Lemma ltb_lt a b : String.ltb a b = true ↔ String_as_OT.lt a b.
Proof.
  unfold String.ltb. rewrite <- String_as_OT.cmp_lt. unfold String_as_OT.cmp.
  destruct (String.compare a b); split; congruence.
Qed.

Lemma not_ltb_neq_gt a b :
  String.ltb a b = false → String.eqb a b = false → String_as_OT.lt b a.
Proof.
  intros Hlt Hne. apply String_as_OT.cmp_lt. unfold String_as_OT.cmp.
  rewrite String.compare_antisym. unfold String.ltb in Hlt.
  destruct (String.compare a b) eqn:E; try discriminate; [|reflexivity].
  apply String.compare_eq_iff in E. subst. rewrite String.eqb_refl in Hne. discriminate.
Qed.

Lemma In_insert_label k x l : In x (RFM.insert_label k l) ↔ x = k ∨ In x l.
Proof.
  induction l as [|y l IH]; simpl; [intuition|].
  destruct (String.ltb k y); [simpl; intuition|].
  destruct (String.eqb k y) eqn:E.
  - apply String.eqb_eq in E. subst. simpl. intuition.
  - simpl. rewrite IH. intuition.
Qed.

Lemma In_sorted_labels x l : In x (RFM.sorted_labels l) ↔ In x l.
Proof.
  induction l as [|y l IH]; simpl; [reflexivity|].
  rewrite In_insert_label, IH. intuition.
Qed.

Lemma insert_label_sorted k l :
  StronglySorted String_as_OT.lt l → StronglySorted String_as_OT.lt (RFM.insert_label k l).
Proof.
  induction 1 as [|y l Hs IH Hy]; simpl; [repeat constructor|].
  rewrite List.Forall_forall in Hy.
  destruct (String.ltb k y) eqn:Hlt.
  - apply ltb_lt in Hlt. constructor; [constructor; [assumption|]|].
    + apply List.Forall_forall. exact Hy.
    + constructor; [exact Hlt|]. apply List.Forall_forall. intros z Hz.
      eapply String_as_OT.lt_trans; [exact Hlt|apply Hy, Hz].
  - destruct (String.eqb k y) eqn:Heq.
    + constructor; [assumption|apply List.Forall_forall; exact Hy].
    + constructor; [exact IH|]. apply List.Forall_forall. intros z Hz.
      apply In_insert_label in Hz as [->|Hz]; [|apply Hy, Hz].
      apply not_ltb_neq_gt; assumption.
Qed.

Lemma sorted_labels_sorted l : StronglySorted String_as_OT.lt (RFM.sorted_labels l).
Proof.
  induction l as [|y l IH]; simpl; [constructor|apply insert_label_sorted, IH].
Qed.

Lemma sorted_labels_NoDup l : List.NoDup (RFM.sorted_labels l).
Proof.
  induction (sorted_labels_sorted l) as [|y l' Hs IH Hy]; constructor; [|exact IH].
  intros Hin. rewrite List.Forall_forall in Hy. apply Hy in Hin.
  exact (String_as_OT.lt_not_eq _ _ Hin eq_refl).
Qed.

Lemma segment_rows_labels rfm :
  map RFM.s_rfm_segment (RFM.segment_rows rfm)
  = RFM.sorted_labels (map RfmRow.rfm_segment rfm).
Proof.
  unfold RFM.segment_rows. cbv zeta. rewrite !map_map.
  rewrite <- (map_id (RFM.sorted_labels _)) at 2. apply map_ext. reflexivity.
Qed.

Lemma segment_rows_counts rfm :
  map RFM.customer_count (RFM.segment_rows rfm)
  = map (λ seg, Z.of_nat (length (List.filter
                                    (λ r, String.eqb (RfmRow.rfm_segment r) seg) rfm)))
        (RFM.sorted_labels (map RfmRow.rfm_segment rfm)).
Proof.
  unfold RFM.segment_rows. cbv zeta. rewrite !map_map. apply map_ext. reflexivity.
Qed.

(** X7: once a table is stored, [get_segment_summary] returns one row per
    segment that occurs in it, each segment once, every row counting at
    least one customer, and the customer counts of the rows add up to the
    number of records of the table. *)
Theorem segment_summary_counts (w : world) (self : RFM.RFMAnalysis)
    (rfm : list RfmRow.t) (Hdata : RFM.rfm_data self = Some rfm) :
  ∃ summary,
    RFM.get_segment_summary (w, self) = ((w, self), Ok summary)
    ∧ Zsum (map RFM.customer_count summary) = Z.of_nat (length rfm)
    ∧ List.NoDup (map RFM.s_rfm_segment summary)
    ∧ (∀ r, In r rfm → In (RfmRow.rfm_segment r) (map RFM.s_rfm_segment summary))
    ∧ (∀ row, In row summary →
         1 ≤ RFM.customer_count row
         ∧ ∃ r, In r rfm ∧ RfmRow.rfm_segment r = RFM.s_rfm_segment row).
Proof.
  exists (RFM.segment_rows rfm). split.
  { unfold RFM.get_segment_summary. run_step. rewrite Hdata. reflexivity. }
  rewrite segment_rows_labels, segment_rows_counts. split; [|split; [|split]].
  - rewrite <- (map_map _ Z.of_nat), Zsum_of_nat. f_equal.
    apply (group_sizes_add_up String.eqb RfmRow.rfm_segment).
    + apply String.eqb_eq.
    + apply sorted_labels_NoDup.
    + intros r Hr. apply In_sorted_labels, in_map, Hr.
  - apply sorted_labels_NoDup.
  - intros r Hr. apply In_sorted_labels, in_map, Hr.
  - intros row Hrow.
    assert (Hseg : In (RFM.s_rfm_segment row) (map RfmRow.rfm_segment rfm)).
    { apply In_sorted_labels. rewrite <- segment_rows_labels. apply in_map, Hrow. }
    apply in_map_iff in Hseg as (r & Hr & Hin). split; [|eauto].
    assert (Hc : In (RFM.customer_count row) (map RFM.customer_count (RFM.segment_rows rfm)))
      by (apply in_map, Hrow).
    unfold RFM.segment_rows in Hrow. cbv zeta in Hrow.
    apply in_map_iff in Hrow as ([[[[[seg n] a] b] c] rev] & <- & Hrow).
    apply in_map_iff in Hrow as (seg' & [= <- <- _ _ _ _] & Hseg').
    cbn [RFM.customer_count RFM.s_rfm_segment] in *.
    apply (proj1 (In_sorted_labels _ _)), in_map_iff in Hseg' as (r' & Hr' & Hin').
    assert (Hf : In r' (List.filter (λ r, String.eqb (RfmRow.rfm_segment r) seg') rfm))
      by (apply filter_In; split; [exact Hin'|apply String.eqb_eq, Hr']).
    destruct (List.filter _ rfm); [destruct Hf|]. simpl length. lia.
Qed.

Lemma segment_summary_counts_witness :
  ∃ summary,
    RFM.get_segment_summary
      (fst sample_rfm, {| RFM.orders := 2%positive; RFM.customers := 2%positive;
                          RFM.rfm_data := Some sample_rfm_rows |})
    = ((fst sample_rfm, {| RFM.orders := 2%positive; RFM.customers := 2%positive;
                           RFM.rfm_data := Some sample_rfm_rows |}), Ok summary)
    ∧ Zsum (map RFM.customer_count summary) = 3.
Proof.
  destruct (segment_summary_counts (fst sample_rfm)
              {| RFM.orders := 2%positive; RFM.customers := 2%positive;
                 RFM.rfm_data := Some sample_rfm_rows |} sample_rfm_rows eq_refl)
    as (summary & H1 & H2 & _).
  exists summary. split; [exact H1|exact H2].
Defined.

(** ** The cohort columns of every order *)



(** ** An orders table without rows *)



(** ** Calling the retention twice *)



(** ** The cohort metrics *)







(** ** The cohort sizes *)

Lemma active_first_value data c n :
  active data c 0 = Some n →
  n = Z.of_nat (length (Pandas.sorted_keys
                          (map CohortRow.customer_id
                               (List.filter (Cohort.in_cell c 0) data)))).
Proof.
  unfold active. destruct (List.filter (Cohort.in_cell c 0) data); [discriminate|].
  intros [= <-]. reflexivity.
Qed.

Lemma size_column rows l :
  incl l (cohort_months rows) →
  Cohort.dropna (map (λ c, active (cohort_rows rows) c 0) l)
  = map (λ c, Z.of_nat (length (Pandas.sorted_keys
                                  (map CohortRow.customer_id
                                       (List.filter (Cohort.in_cell c 0)
                                                    (cohort_rows rows))))))
        l.
Proof.
  induction l as [|c l IH]; intros Hl; [reflexivity|]. simpl.
  destruct (cohort_month_has_first_order rows c (Hl c (or_introl eq_refl))) as [n Hn].
  rewrite Hn. rewrite (active_first_value _ _ _ Hn). f_equal.
  apply IH. intros x Hx. apply Hl. now right.
Qed.

(** The customers of a cohort at index 0 are the customers whose first
    order falls in the month of the cohort. *)
Lemma cohort_size_customers rows c :
  length (Pandas.sorted_keys
            (map CohortRow.customer_id
                 (List.filter (Cohort.in_cell c 0) (cohort_rows rows))))
  = length (List.filter
              (λ u, Pandas.to_period_M (Cohort.cohort_date u rows) =? c)
              (Pandas.sorted_keys (map Order.customer_id rows))).
Proof.
  apply Nat.le_antisymm; apply NoDup_incl_length.
  - apply strongly_sorted_NoDup, sorted_keys_sorted.
  - intros u Hu. apply (proj1 (In_sorted_keys _ _)) in Hu.
    apply in_map_iff in Hu as (r & <- & Hr). apply filter_In in Hr as [Hr Hcell].
    apply in_cell_spec in Hcell as [Hc _].
    apply In_cohort_rows in Hr as (o & Ho & ->). simpl in *.
    apply filter_In. split; [apply In_sorted_keys, in_map, Ho|]. apply Z.eqb_eq, Hc.
  - apply List.NoDup_filter, strongly_sorted_NoDup, sorted_keys_sorted.
  - intros u Hu. apply filter_In in Hu as [Hu Hc]. apply Z.eqb_eq in Hc.
    apply (proj1 (In_sorted_keys _ _)) in Hu. apply in_map_iff in Hu as (o & <- & Ho).
    destruct (first_order_index rows o Ho) as (o0 & Ho0 & Hid & H0).
    apply In_sorted_keys, in_map_iff. exists (cohort_row rows o0). split; [exact Hid|].
    apply filter_In. split; [apply In_cohort_rows; eauto|].
    apply in_cell_spec. split; [|exact H0]. simpl. rewrite Hid. exact Hc.
Qed.

(** X12: in the cohort table that [calculate_retention] returns, the
    column of index 0 has a count in every row (no NaN), and these cohort
    sizes add up to the number of distinct customers of the orders table:
    every customer belongs to exactly one cohort. *)
Theorem cohort_sizes_add_up (s : Cohort.St) (df : OrdersDF)
    (Hready : cohort_ready s df) (Hne : order_rows df ≠ []) :
  ∃ cohort_table retention_table sizes,
    snd (Cohort.calculate_retention s) = Ok (cohort_table, retention_table)
    ∧ Cohort.getitem cohort_table 0 = Ok sizes
    ∧ length (Cohort.dropna sizes) = length (Cohort.index cohort_table)
    ∧ Zsum (Cohort.dropna sizes)
      = Pandas.nunique (map Order.customer_id (order_rows df)).
Proof.
  rewrite (calculate_retention_runs s df Hready Hne).
  set (rows := order_rows df).
  exists (cohort_table_of rows), (retention_table_of rows),
         (map (λ c, active (cohort_rows rows) c 0) (cohort_months rows)).
  split; [reflexivity|]. split; [|split].
  - unfold cohort_table_of. apply getitem_table_of.
    destruct (cohort_indices_head rows Hne) as [rest ->]. now left.
  - rewrite size_column by apply incl_refl. rewrite length_map. reflexivity.
  - rewrite size_column by apply incl_refl.
    rewrite <- (map_map (λ c, length (Pandas.sorted_keys
                                        (map CohortRow.customer_id
                                           (List.filter (Cohort.in_cell c 0)
                                                        (cohort_rows rows)))))
                        Z.of_nat).
    rewrite Zsum_of_nat. unfold Pandas.nunique. f_equal.
    rewrite (map_ext _ _ (cohort_size_customers rows)).
    apply (group_sizes_add_up Z.eqb
             (λ u, Pandas.to_period_M (Cohort.cohort_date u rows))).
    + intros a b. apply Z.eqb_eq.
    + apply strongly_sorted_NoDup, sorted_keys_sorted.
    + intros u Hu. apply (proj1 (In_sorted_keys _ _)) in Hu.
      apply in_map_iff in Hu as (o & <- & Ho). apply In_cohort_months. eauto.
Qed.

Lemma cohort_sizes_add_up_witness :
  ∃ cohort_table retention_table sizes,
    snd (Cohort.calculate_retention sample_cohort) = Ok (cohort_table, retention_table)
    ∧ Cohort.getitem cohort_table 0 = Ok sizes
    ∧ length (Cohort.dropna sizes) = length (Cohort.index cohort_table)
    ∧ Zsum (Cohort.dropna sizes)
      = Pandas.nunique
          (map Order.customer_id (order_rows (to_datetime_column sample_orders))).
Proof.
  apply (cohort_sizes_add_up sample_cohort (to_datetime_column sample_orders)).
  - split; [vm_compute; reflexivity|left; reflexivity].
  - discriminate.
Defined.

(** ** Loops of the generator *)

Lemma for_each_seen {A S} (I : list A → S → Prop) (body : A → S → Generator.G S) :
  (∀ done x s draws rest s',
     I done s → body x s draws = Some (rest, Ok s') → I (done ++ [x]) s') →
  ∀ xs done s draws rest s',
    I done s → Generator.for_each xs body s draws = Some (rest, Ok s') → I (done ++ xs) s'.
Proof.
  intros Hbody xs. induction xs as [|x xs IH]; intros done s draws rest s' Hs H; simpl in H.
  - apply g_ret_ok in H as [-> _]. rewrite app_nil_r. exact Hs.
  - apply g_bind_ok in H as (s1 & mid & H1 & H2).
    change (x :: xs) with ([x] ++ xs). rewrite app_assoc.
    eapply IH; [|exact H2]. eapply Hbody; eassumption.
Qed.

Lemma randbelow_range n draws rest j :
  0 < n → Generator._randbelow n draws = Some (rest, Ok j) → 0 ≤ j < n.
Proof.
  intros Hn H. unfold Generator._randbelow in H.
  apply g_bind_ok in H as (r & mid & _ & H). apply g_ret_ok in H as [-> _].
  apply Z.mod_pos_bound, Hn.
Qed.

Lemma choice_In {A} (seq : list A) draws rest v :
  Generator.choice seq draws = Some (rest, Ok v) → In v seq.
Proof.
  destruct seq as [|x seq']; [discriminate|]. unfold Generator.choice. intros H.
  apply g_bind_ok in H as (j & mid & Hj & H). apply g_ret_ok in H as [-> _].
  apply randbelow_range in Hj; [|simpl length; lia].
  apply nth_In. lia.
Qed.

Lemma dict_get_In {V} (dict : list (string * V)) k draws rest v :
  Generator.dict_get dict k draws = Some (rest, Ok v) → In (k, v) dict.
Proof.
  unfold Generator.dict_get.
  destruct (List.find _ dict) as [[k' v']|] eqn:E; [|discriminate].
  intros H. apply g_ret_ok in H as [-> _].
  apply find_some in E as [Hin E]. apply String.eqb_eq in E. subst. exact Hin.
Qed.

Lemma for_each_inv_In {A S} (I : S → Prop) (body : A → S → Generator.G S) xs :
  (∀ x s draws rest s', In x xs → I s → body x s draws = Some (rest, Ok s') → I s') →
  ∀ s draws rest s',
    I s → Generator.for_each xs body s draws = Some (rest, Ok s') → I s'.
Proof.
  induction xs as [|x xs IH]; intros Hbody s draws rest s' Hs H; simpl in H.
  - apply g_ret_ok in H as [-> _]. exact Hs.
  - apply g_bind_ok in H as (s1 & mid & H1 & H2).
    eapply IH; [| |exact H2].
    + intros y t d r t' Hy. apply Hbody. now right.
    + eapply Hbody; [now left|exact Hs|exact H1].
Qed.

Lemma for_each_measure {A S} (μ : S → nat) (c : A → nat) (body : A → S → Generator.G S) :
  (∀ x s draws rest s', body x s draws = Some (rest, Ok s') → μ s' = (μ s + c x)%nat) →
  ∀ xs s draws rest s',
    Generator.for_each xs body s draws = Some (rest, Ok s') →
    μ s' = (μ s + list_sum (map c xs))%nat.
Proof.
  intros Hbody xs. induction xs as [|x xs IH]; intros s draws rest s' H; simpl in H.
  - apply g_ret_ok in H as [-> _]. simpl. lia.
  - apply g_bind_ok in H as (s1 & mid & H1 & H2).
    apply IH in H2. apply Hbody in H1. simpl. lia.
Qed.

Lemma list_sum_const {A} (c : nat) (l : list A) :
  list_sum (map (λ _, c) l) = (c * length l)%nat.
Proof. induction l as [|x l IH]; simpl; [lia|]. rewrite IH. lia. Qed.



(** ** Ranges *)

Lemma In_range a b i : In i (Generator.range a b) ↔ a ≤ i < b.
Proof.
  unfold Generator.range. rewrite in_map_iff. split.
  - intros (n & <- & Hn). apply in_seq in Hn. lia.
  - intros H. exists (Z.to_nat (i - a)). split; [lia|]. apply in_seq. lia.
Qed.

Lemma range_snoc a b : a ≤ b → Generator.range a (b + 1) = Generator.range a b ++ [b].
Proof.
  intros H. unfold Generator.range.
  replace (Z.to_nat (b + 1 - a)) with (S (Z.to_nat (b - a))) by lia.
  rewrite seq_S, map_app. simpl. do 2 f_equal. lia.
Qed.

Lemma length_range a b : length (Generator.range a b) = Z.to_nat (b - a).
Proof. unfold Generator.range. rewrite length_map, length_seq. reflexivity. Qed.

Lemma nth_range a b k d :
  (k < Z.to_nat (b - a))%nat → nth k (Generator.range a b) d = a + Z.of_nat k.
Proof.
  intros H. unfold Generator.range.
  rewrite (nth_indep _ d (a + Z.of_nat 0)) by (rewrite length_map, length_seq; exact H).
  rewrite (map_nth (λ i, a + Z.of_nat i)), seq_nth by exact H. reflexivity.
Qed.


(** ** The customers table *)

Lemma customers_body_spec done i customers draws rest customers' :
  map Generator.CustomerRec.customer_id customers = done
  ∧ Forall (λ c,
      Generator.CustomerRec.customer_name c
      = "Customer_" +:+ pretty (Generator.CustomerRec.customer_id c)
      ∧ Generator.CustomerRec.email c
        = "customer" +:+ pretty (Generator.CustomerRec.customer_id c) +:+ "@email.com"
      ∧ In (Generator.CustomerRec.country c) Generator.countries
      ∧ ∃ towns, In (Generator.CustomerRec.country c, towns) Generator.cities
                 ∧ In (Generator.CustomerRec.city c) towns) customers →
  Generator.customers_body i customers draws = Some (rest, Ok customers') →
  map Generator.CustomerRec.customer_id customers' = done ++ [i]
  ∧ Forall (λ c,
      Generator.CustomerRec.customer_name c
      = "Customer_" +:+ pretty (Generator.CustomerRec.customer_id c)
      ∧ Generator.CustomerRec.email c
        = "customer" +:+ pretty (Generator.CustomerRec.customer_id c) +:+ "@email.com"
      ∧ In (Generator.CustomerRec.country c) Generator.countries
      ∧ ∃ towns, In (Generator.CustomerRec.country c, towns) Generator.cities
                 ∧ In (Generator.CustomerRec.city c) towns) customers'.
Proof.
  intros [Hids Hc] H. unfold Generator.customers_body in H.
  apply g_bind_ok in H as (country & d1 & Hcountry & H).
  apply g_bind_ok in H as (towns & d2 & Htowns & H).
  apply g_bind_ok in H as (city & d3 & Hcity & H).
  apply g_bind_ok in H as (days & d4 & _ & H).
  apply g_ret_ok in H as [-> _].
  apply choice_In in Hcountry, Hcity. apply dict_get_In in Htowns.
  split; [rewrite map_app, Hids; reflexivity|].
  apply Forall_app. split; [exact Hc|]. constructor; [|constructor].
  cbn [Generator.CustomerRec.customer_name Generator.CustomerRec.customer_id
       Generator.CustomerRec.email Generator.CustomerRec.country
       Generator.CustomerRec.city].
  split; [reflexivity|]. split; [reflexivity|]. split; [exact Hcountry|].
  exists towns. split; assumption.
Qed.

(** X13: the customers table of a run has 5000 rows, with the customer ids
    1 to 5000 in this order; the name and the e-mail address of a customer
    are made from its id, its country is one of the eight countries and
    its city is a city of that country. *)
Theorem customers_table (draws rest : list Z) (t : Generator.tables)
    (Hrun : Generator.generate draws = Some (rest, Ok t)) :
  map Generator.CustomerRec.customer_id (Generator.df_customers t)
  = Generator.range 1 (Generator.NUM_CUSTOMERS + 1)
  ∧ length (Generator.df_customers t) = 5000%nat
  ∧ ∀ c, In c (Generator.df_customers t) →
      Generator.CustomerRec.customer_name c
      = "Customer_" +:+ pretty (Generator.CustomerRec.customer_id c)
      ∧ Generator.CustomerRec.email c
        = "customer" +:+ pretty (Generator.CustomerRec.customer_id c) +:+ "@email.com"
      ∧ In (Generator.CustomerRec.country c) Generator.countries
      ∧ ∃ towns, In (Generator.CustomerRec.country c, towns) Generator.cities
                 ∧ In (Generator.CustomerRec.city c) towns.
Proof.
  apply generate_customers in Hrun as [mid Hrun]. unfold Generator.customers_loop in Hrun.
  pose proof (for_each_seen _ Generator.customers_body customers_body_spec
                _ [] [] _ _ _ (conj eq_refl (Forall_nil_2 _)) Hrun) as [Hids H].
  simpl app in Hids. split; [exact Hids|]. split.
  - rewrite <- (length_map Generator.CustomerRec.customer_id), Hids.
    unfold Generator.range. rewrite length_map, length_seq. reflexivity.
  - rewrite List.Forall_forall in H. exact H.
Qed.

Lemma customers_table_witness :
  ∃ t, map Generator.CustomerRec.customer_id (Generator.df_customers t)
       = Generator.range 1 (Generator.NUM_CUSTOMERS + 1).
Proof.
  destruct crafted_run as (t & Hrun & _). exists t.
  exact (proj1 (customers_table crafted_draws [] t Hrun)).
Defined.

(** ** The products table *)

Lemma products_body_spec category subs sub i st draws rest st' :
  In (category, subs) Generator.categories → In sub subs → 1 ≤ i ≤ 7 →
  products_inv st →
  Generator.products_body category sub i st draws = Some (rest, Ok st') →
  products_inv st'.
Proof.
  intros Hcat Hsub Hi (H1 & Hids & Hall) H. destruct st as [products id].
  unfold Generator.products_body in H. simpl in H1, Hids, Hall.
  apply g_bind_ok in H as ([lo hi] & d1 & _ & H).
  apply g_bind_ok in H as (price & d2 & _ & H).
  apply g_ret_ok in H as [-> _].
  split; [simpl; lia|]. split; simpl.
  - rewrite map_app, Hids, range_snoc by exact H1. reflexivity.
  - apply Forall_app. split; [exact Hall|]. constructor; [|constructor].
    exists subs, i. cbn. auto.
Qed.

Lemma products_body_count category sub i st draws rest st' :
  Generator.products_body category sub i st draws = Some (rest, Ok st') →
  length (fst st') = (length (fst st) + 1)%nat.
Proof.
  intros H. destruct st as [products id]. unfold Generator.products_body in H.
  apply g_bind_ok in H as ([lo hi] & d1 & _ & H).
  apply g_bind_ok in H as (price & d2 & _ & H).
  apply g_ret_ok in H as [-> _]. simpl. rewrite length_app. reflexivity.
Qed.

Lemma products_loop_spec draws rest products :
  Generator.products_loop draws = Some (rest, Ok products) →
  map Generator.ProductRec.product_id products = Generator.range 1 190
  ∧ Forall product_in_catalogue products.
Proof.
  unfold Generator.products_loop. intros H.
  apply g_bind_ok in H as ([products' id] & mid & Hloop & H).
  apply g_ret_ok in H as [-> _].
  assert (Hinv : products_inv (products', id)).
  { refine (for_each_inv_In products_inv _ _ _ _ _ _ _ _ Hloop);
      [|split; [simpl; lia|split; [reflexivity|constructor]]].
    intros [category subs] s d r s' Hcat Hs Hb.
    refine (for_each_inv_In products_inv _ _ _ _ _ _ _ Hs Hb).
    intros sub s1 d1 r1 s1' Hsub Hs1 Hb1.
    refine (for_each_inv_In products_inv _ _ _ _ _ _ _ Hs1 Hb1).
    intros i s2 d2 r2 s2' Hi Hs2 Hb2. apply In_range in Hi.
    apply (products_body_spec category subs sub i s2 d2 r2 s2' Hcat Hsub
             ltac:(lia) Hs2 Hb2). }
  assert (Hlen : length products' = 189%nat).
  { apply (for_each_measure (λ st, length (fst st))
             (λ '(_, subs), 7 * length subs)%nat) in Hloop; [exact Hloop|].
    intros [category subs] s d r s' Hb.
    apply (for_each_measure (λ st, length (fst st)) (λ _, 7%nat)) in Hb.
    - rewrite Hb. f_equal. apply list_sum_const.
    - intros sub s1 d1 r1 s1' Hb1.
      apply (for_each_measure (λ st, length (fst st)) (λ _, 1%nat)) in Hb1;
        [exact Hb1|].
      intros i s2 d2 r2 s2' Hb2. eapply products_body_count, Hb2. }
  destruct Hinv as (H1 & Hids & Hall). simpl in *. split; [|exact Hall].
  rewrite Hids. f_equal.
  rewrite <- (length_map Generator.ProductRec.product_id), Hids, length_range in Hlen. lia.
Qed.

Lemma generate_products draws rest t :
  Generator.generate draws = Some (rest, Ok t) →
  ∃ d1 d2, Generator.products_loop d1 = Some (d2, Ok (Generator.df_products t)).
Proof.
  intros H. unfold Generator.generate in H.
  apply g_bind_ok in H as (customers & d1 & _ & H).
  apply g_bind_ok in H as (products & d2 & Hp & H).
  apply g_bind_ok in H as (os & d3 & _ & H).
  apply g_ret_ok in H as [-> _]. simpl. eauto.
Qed.

(** X14: the products table of a run has 189 rows (7 models of each of
    the 27 sub-categories, not the 200 of [NUM_PRODUCTS]), with the
    product ids 1 to 189 in this order; every product belongs to a
    sub-category of its category and is named after the sub-category and
    a model number from 1 to 7. *)
Theorem products_table (draws rest : list Z) (t : Generator.tables)
    (Hrun : Generator.generate draws = Some (rest, Ok t)) :
  map Generator.ProductRec.product_id (Generator.df_products t) = Generator.range 1 190
  ∧ length (Generator.df_products t) = 189%nat
  ∧ ∀ p, In p (Generator.df_products t) → product_in_catalogue p.
Proof.
  apply generate_products in Hrun as (d1 & d2 & Hrun).
  apply products_loop_spec in Hrun as [Hids Hall]. split; [exact Hids|]. split.
  - rewrite <- (length_map Generator.ProductRec.product_id), Hids. reflexivity.
  - rewrite List.Forall_forall in Hall. exact Hall.
Qed.

Lemma products_table_witness :
  ∃ t, length (Generator.df_products t) = 189%nat.
Proof.
  destruct crafted_run as (t & Hrun & _). exists t.
  exact (proj1 (proj2 (products_table crafted_draws [] t Hrun))).
Defined.

(** ** The orders and the order lines *)

Lemma iloc0_where_In {A} (p : A → bool) df draws rest x :
  Generator.iloc0_where p df draws = Some (rest, Ok x) → In x df ∧ p x = true.
Proof. intros H. apply iloc0_where_ok in H. apply find_some in H. exact H. Qed.

Lemma sample_pool_length k : ∀ n pool draws rest l,
  Generator.sample_pool k n pool draws = Some (rest, Ok l) → length l = k.
Proof.
  induction k as [|k IH]; intros n pool draws rest l H; simpl in H.
  - apply g_ret_ok in H as [-> _]. reflexivity.
  - apply g_bind_ok in H as (j & d1 & _ & H).
    apply g_bind_ok in H as (l' & d2 & Hl' & H).
    apply g_ret_ok in H as [-> _]. simpl. f_equal. eapply IH, Hl'.
Qed.

Lemma sample_set_length k : ∀ n population selected draws rest l,
  Generator.sample_set k n population selected draws = Some (rest, Ok l) → length l = k.
Proof.
  induction k as [|k IH]; intros n population selected draws rest l H; simpl in H.
  - apply g_ret_ok in H as [-> _]. reflexivity.
  - apply g_bind_ok in H as (j & d1 & _ & H).
    apply g_bind_ok in H as (l' & d2 & Hl' & H).
    apply g_ret_ok in H as [-> _]. simpl. f_equal. eapply IH, Hl'.
Qed.

Lemma sample_length population k draws rest l :
  Generator.sample population k draws = Some (rest, Ok l) → length l = Z.to_nat k.
Proof.
  unfold Generator.sample.
  destruct ((k <? 0) || (Z.of_nat (length population) <? k)); [discriminate|].
  destruct (Z.of_nat (length population) <=? 21).
  - apply sample_pool_length.
  - apply sample_set_length.
Qed.

Lemma items_body_fields products oid prod st draws rest st' :
  items_inv products st →
  Generator.items_body products oid prod st draws = Some (rest, Ok st') →
  items_inv products st'.
Proof.
  destruct st as [[acc items] id]. intros (H1 & Hids & Hall) H. simpl in H1, Hids, Hall.
  unfold Generator.items_body in H.
  apply g_bind_ok in H as (product & d2 & Hp & H).
  apply g_bind_ok in H as (quantity & d3 & Hq & H).
  apply g_bind_ok in H as (discount & d4 & Hd & H).
  apply g_ret_ok in H as [-> _].
  apply iloc0_where_In in Hp as [Hp Hid]. apply Z.eqb_eq in Hid.
  apply randint_range in Hq; [|lia]. apply choice_In in Hd.
  split; [simpl; lia|]. split; simpl.
  - rewrite map_app, Hids, range_snoc by exact H1. reflexivity.
  - apply Forall_app. split; [exact Hall|]. constructor; [|constructor].
    split; [exact Hq|]. split; [exact Hd|]. exists product. auto.
Qed.

Lemma items_body_count products oid prod st draws rest st' :
  Generator.items_body products oid prod st draws = Some (rest, Ok st') →
  length (snd (fst st')) = (length (snd (fst st)) + 1)%nat.
Proof.
  destruct st as [[acc items] id]. intros H. unfold Generator.items_body in H.
  apply g_bind_ok in H as (product & d2 & _ & H).
  apply g_bind_ok in H as (quantity & d3 & _ & H).
  apply g_bind_ok in H as (discount & d4 & _ & H).
  apply g_ret_ok in H as [-> _]. simpl. rewrite length_app. reflexivity.
Qed.

Lemma order_body_wellformed customers products cust cust_id cust_reg_date order_num
    st draws rest out :
  In cust customers → Generator.CustomerRec.customer_id cust = cust_id →
  Generator.CustomerRec.registration_date cust = cust_reg_date →
  cust_reg_date ≤ fst st ∧ orders_wellformed customers products (snd st) →
  Generator.order_body products cust_id cust_reg_date order_num st draws
  = Some (rest, Ok out) →
  match out with
  | inl st' | inr st' =>
      cust_reg_date ≤ fst st' ∧ orders_wellformed customers products (snd st')
  end.
Proof.
  intros Hcust Hcid Hreg Hinv H. destruct st as [last os].
  unfold Generator.order_body in H.
  apply g_bind_ok in H as (order_date & d1 & Hdate & H).
  assert (Hge : cust_reg_date ≤ order_date).
  { destruct Hinv as [Hlast _]. simpl in Hlast. destruct (order_num =? 0).
    - apply g_bind_ok in Hdate as (days & d0 & Hdays & Hdate).
      apply g_ret_ok in Hdate as [-> _]. apply randint_range in Hdays; lia.
    - apply g_bind_ok in Hdate as (gap & d0 & Hgap & Hdate).
      apply g_ret_ok in Hdate as [-> _]. apply randint_range in Hgap; lia. }
  destruct (Generator.END_DATE <? order_date) eqn:Eend.
  { apply g_ret_ok in H as [-> _]. exact Hinv. }
  apply Z.ltb_ge in Eend.
  apply g_bind_ok in H as (days & d2 & Hdays & H).
  apply g_bind_ok in H as (num_items & d3 & Hnum & H).
  apply g_bind_ok in H as (order_products & d4 & Hsample & H).
  apply g_bind_ok in H as ([[total items] id] & d5 & Hitems & H).
  apply g_ret_ok in H as [-> _].
  apply randint_range in Hdays; [|lia]. apply randint_range in Hnum; [|lia].
  apply sample_length in Hsample.
  destruct Hinv as (_ & (Ho1 & Hoids) & (Hi1 & Hiids) & Hof & Hif & Hio & Hcount).
  simpl in Ho1, Hoids, Hi1, Hiids, Hof, Hif, Hio, Hcount.
  pose proof (items_loop_spec _ _ _ _ _ _ _ _ _ _ _ Hitems) as (new & Enew & _ & Hnew).
  pose proof (for_each_inv (items_inv products) _
                (items_body_fields products (Generator.order_id os))
                order_products
                (Float.zero, Generator.order_items os, Generator.order_item_id os) d4 d5
                (total, items, id) (conj Hi1 (conj Hiids Hif)) Hitems)
    as (Hid1 & Hids & Hfields).
  simpl in Hid1, Hids, Hfields.
  pose proof (for_each_measure (λ st, length (snd (fst st))) (λ _, 1%nat) _
                (items_body_count products (Generator.order_id os))
                _ _ _ _ _ Hitems) as Hlen.
  simpl in Hlen. rewrite list_sum_const, Enew, length_app in Hlen.
  rewrite List.Forall_forall in Hnew.
  split; [exact Hge|]. unfold orders_wellformed. simpl.
  set (o_new := Generator.OrderRec.mk _ _ _ _ _ _).
  split; [|split; [|split; [|split; [|split]]]].
  - split; [lia|]. rewrite map_app, Hoids, range_snoc by exact Ho1. reflexivity.
  - split; assumption.
  - apply Forall_app. split; [exact Hof|]. constructor; [|constructor].
    unfold order_fields_ok, o_new. simpl.
    split; [exists cust; split; [exact Hcust|split; [exact Hcid|lia]]|].
    split; [exact Eend|]. split; [lia|reflexivity].
  - exact Hfields.
  - intros i Hi. rewrite Enew in Hi. apply in_app_or in Hi as [Hi|Hi].
    + apply Hio in Hi. lia.
    + apply Hnew in Hi as [-> _]. lia.
  - intros o Ho. rewrite Enew, items_of_app.
    apply in_app_or in Ho as [Ho|[<-|[]]].
    + rewrite (items_of_none new), app_nil_r; [apply Hcount, Ho|].
      intros i Hi. apply Hnew in Hi as [-> _].
      assert (Hin : In (Generator.OrderRec.order_id o)
                       (map Generator.OrderRec.order_id (Generator.orders os)))
        by (apply in_map, Ho).
      rewrite Hoids in Hin. apply In_range in Hin. lia.
    + rewrite items_of_none, items_of_all; simpl.
      * lia.
      * intros i Hi. apply Hnew, Hi.
      * intros i Hi. apply Hio in Hi. simpl. lia.
Qed.

Lemma customer_orders_wellformed customers products cust_id os draws rest os' :
  orders_wellformed customers products os →
  Generator.customer_orders customers products cust_id os draws = Some (rest, Ok os') →
  orders_wellformed customers products os'.
Proof.
  intros Hinv H. unfold Generator.customer_orders in H.
  apply g_bind_ok in H as (cust & d1 & Hcust & H).
  apply g_bind_ok in H as (behavior_type & d2 & _ & H).
  apply g_bind_ok in H as (num_orders & d3 & _ & H).
  apply g_bind_ok in H as ([last os1] & d4 & Hloop & H).
  apply g_ret_ok in H as [-> _].
  apply iloc0_where_In in Hcust as [Hcust Hid]. apply Z.eqb_eq in Hid.
  apply (for_each_break_inv
           (λ st, Generator.CustomerRec.registration_date cust ≤ fst st
                  ∧ orders_wellformed customers products (snd st))) in Hloop.
  - apply Hloop.
  - intros x st dr rs out Hst Hb.
    eapply order_body_wellformed; [exact Hcust|exact Hid|reflexivity|exact Hst|exact Hb].
  - split; [simpl; lia|exact Hinv].
Qed.

Lemma generate_wellformed draws rest t :
  Generator.generate draws = Some (rest, Ok t) →
  ∃ os, orders_wellformed (Generator.df_customers t) (Generator.df_products t) os
    ∧ Generator.df_orders t = Generator.orders os
    ∧ Generator.df_order_items t = Generator.order_items os.
Proof.
  intros H. unfold Generator.generate in H.
  apply g_bind_ok in H as (customers & d1 & _ & H).
  apply g_bind_ok in H as (products & d2 & _ & H).
  apply g_bind_ok in H as (os & d3 & Hloop & H).
  apply g_ret_ok in H as [-> _]. exists os. split; [|auto]. simpl.
  apply (for_each_inv (orders_wellformed customers products)) in Hloop; [exact Hloop| |].
  - intros x s dr rs s' Hs Hb. eapply customer_orders_wellformed; eassumption.
  - unfold orders_wellformed. simpl.
    split; [split; [lia|reflexivity]|].
    split; [split; [lia|reflexivity]|].
    split; [constructor|]. split; [constructor|]. split; intros ? [].
Qed.

(** X15: the orders table of a run has the order ids 1, 2, ... in this
    order; every order belongs to a customer of the customers table, is
    dated from that customer's registration to the end of the window, is
    shipped one to five days later and is Completed. *)
Theorem orders_table (draws rest : list Z) (t : Generator.tables)
    (Hrun : Generator.generate draws = Some (rest, Ok t)) :
  map Generator.OrderRec.order_id (Generator.df_orders t)
  = Generator.range 1 (Z.of_nat (length (Generator.df_orders t)) + 1)
  ∧ ∀ o, In o (Generator.df_orders t) →
      order_fields_ok (Generator.df_customers t) o.
Proof.
  apply generate_wellformed in Hrun as (os & Hinv & -> & _).
  destruct Hinv as ((H1 & Hids) & _ & Hof & _). split.
  - rewrite Hids. f_equal.
    rewrite <- (length_map Generator.OrderRec.order_id), Hids, length_range. lia.
  - rewrite List.Forall_forall in Hof. exact Hof.
Qed.

Lemma orders_table_witness :
  ∃ t, map Generator.OrderRec.order_id (Generator.df_orders t)
       = Generator.range 1 (Z.of_nat (length (Generator.df_orders t)) + 1).
Proof.
  destruct crafted_run as (t & Hrun & _). exists t.
  exact (proj1 (orders_table crafted_draws [] t Hrun)).
Defined.

(** X16: the order lines of a run have the ids 1, 2, ... in this order;
    every line has a quantity from 1 to 3, one of the discounts 0, 5, 10
    and 15 per cent, a product of the products table with that product's
    unit price, and an order of the orders table; every order has from one
    to five lines. *)
Theorem order_items_table (draws rest : list Z) (t : Generator.tables)
    (Hrun : Generator.generate draws = Some (rest, Ok t)) :
  map Generator.ItemRec.order_item_id (Generator.df_order_items t)
  = Generator.range 1 (Z.of_nat (length (Generator.df_order_items t)) + 1)
  ∧ (∀ i, In i (Generator.df_order_items t) →
       item_fields_ok (Generator.df_products t) i
       ∧ ∃ o, In o (Generator.df_orders t)
              ∧ Generator.OrderRec.order_id o = Generator.ItemRec.order_id i)
  ∧ (∀ o, In o (Generator.df_orders t) →
       (1 ≤ length (items_of (Generator.df_order_items t) o) ≤ 5)%nat).
Proof.
  apply generate_wellformed in Hrun as (os & Hinv & -> & ->).
  destruct Hinv as ((_ & Hoids) & (H1 & Hids) & _ & Hif & Hio & Hcount).
  split; [|split; [|exact Hcount]].
  - rewrite Hids. f_equal.
    rewrite <- (length_map Generator.ItemRec.order_item_id), Hids, length_range. lia.
  - intros i Hi. rewrite List.Forall_forall in Hif. split; [apply Hif, Hi|].
    apply Hio in Hi.
    assert (Hin : In (Generator.ItemRec.order_id i)
                     (map Generator.OrderRec.order_id (Generator.orders os)))
      by (rewrite Hoids; apply In_range; exact Hi).
    apply in_map_iff in Hin as (o & Ho & Hin). eauto.
Qed.

Lemma order_items_table_witness :
  ∃ t, map Generator.ItemRec.order_item_id (Generator.df_order_items t)
       = Generator.range 1 (Z.of_nat (length (Generator.df_order_items t)) + 1).
Proof.
  destruct crafted_run as (t & Hrun & _). exists t.
  exact (proj1 (order_items_table crafted_draws [] t Hrun)).
Defined.

(** ** The order of the orders table *)






(** ** Sampling the products of an order *)

Lemma g_bind_inv {A B} (m : Generator.G A) (k : A → Generator.G B) draws rest r :
  (m ≫= k) draws = Some (rest, r) →
  (∃ e, m draws = Some (rest, Raise e) ∧ r = Raise e)
  ∨ ∃ a mid, m draws = Some (mid, Ok a) ∧ k a mid = Some (rest, r).
Proof.
  unfold mbind, Generator.G_bind, Generator.g_bind.
  destruct (m draws) as [[mid [a|e]]|]; try discriminate.
  - right. eauto.
  - intros [= -> <-]. left. eauto.
Qed.

Lemma draw_unselected_spec n selected : ∀ draws rest r,
  0 < n → Generator.draw_unselected n selected draws = Some (rest, r) →
  ∃ j, r = Ok j ∧ 0 ≤ j < n ∧ ¬ In j selected.
Proof.
  induction draws as [|x draws IH]; intros rest r Hn H; simpl in H; [discriminate|].
  destruct (existsb (Z.eqb (x mod n)) selected) eqn:E.
  - apply (IH rest r Hn H).
  - injection H as <- <-. exists (x mod n). split; [reflexivity|].
    split; [apply Z.mod_pos_bound, Hn|].
    intros Hin. assert (existsb (Z.eqb (x mod n)) selected = true); [|congruence].
    apply existsb_exists. exists (x mod n). split; [exact Hin|apply Z.eqb_refl].
Qed.

Lemma sample_set_spec k : ∀ n population selected draws rest r,
  0 < n → Generator.sample_set k n population selected draws = Some (rest, r) →
  ∃ js, r = Ok (map (λ j, nth (Z.to_nat j) population 0) js)
    ∧ length js = k ∧ List.NoDup js
    ∧ ∀ j, In j js → 0 ≤ j < n ∧ ¬ In j selected.
Proof.
  induction k as [|k IH]; intros n population selected draws rest r Hn H; simpl in H.
  - injection H as <- <-. exists [].
    split; [reflexivity|]. split; [reflexivity|]. split; [constructor|intros ? []].
  - apply g_bind_inv in H as [(e & H & _)|(j & d1 & Hj & H)].
    { apply draw_unselected_spec in H as (? & ? & _); [discriminate|exact Hn]. }
    apply draw_unselected_spec in Hj as (j' & [= <-] & Hrange & Hsel); [|exact Hn].
    apply g_bind_inv in H as [(e & H & _)|(l & d2 & Hl & H)].
    { apply IH in H as (? & ? & _); [discriminate|exact Hn]. }
    apply IH in Hl as (js & [= ->] & Hlen & Hnd & Hjs); [|exact Hn].
    injection H as <- <-. exists (j :: js). split; [reflexivity|].
    split; [simpl; lia|]. split.
    + constructor; [|exact Hnd]. intros Hin. apply Hjs in Hin as [_ Hin].
      apply Hin. now left.
    + intros j0 [<-|Hin]; [auto|]. apply Hjs in Hin as [? Hin]. split; [assumption|].
      intros Hs. apply Hin. now right.
Qed.

Lemma NoDup_map_on {A B} (f : A → B) l :
  (∀ x y, In x l → In y l → f x = f y → x = y) → List.NoDup l → List.NoDup (map f l).
Proof.
  intros Hinj Hnd. induction Hnd as [|x l Hx Hnd IH]; simpl; constructor.
  - intros Hin. apply in_map_iff in Hin as (y & E & Hy).
    assert (y = x) by (apply Hinj; [now right|now left|exact E]). subst. exact (Hx Hy).
  - apply IH. intros a b Ha Hb. apply Hinj; now right.
Qed.

(** [random.sample(range(1, n + 1), k)] from more than 21 values: [k]
    distinct values between 1 and [n], and never an exception. *)
Lemma sample_range_spec n k draws rest r :
  21 < n → 0 ≤ k ≤ n →
  Generator.sample (Generator.range 1 (n + 1)) k draws = Some (rest, r) →
  ∃ l, r = Ok l ∧ length l = Z.to_nat k ∧ List.NoDup l ∧ ∀ x, In x l → 1 ≤ x ≤ n.
Proof.
  intros Hn Hk H. unfold Generator.sample in H. rewrite length_range in H.
  replace (Z.of_nat (Z.to_nat (n + 1 - 1))) with n in H by lia.
  destruct (k <? 0) eqn:E1; [lia|]. destruct (n <? k) eqn:E2; [lia|].
  destruct (n <=? 21) eqn:E3; [lia|]. simpl in H.
  apply sample_set_spec in H as (js & -> & Hlen & Hnd & Hjs); [|lia].
  assert (Hnth : ∀ j, In j js →
            nth (Z.to_nat j) (Generator.range 1 (n + 1)) 0 = 1 + j).
  { intros j Hj. apply Hjs in Hj as [Hj _]. rewrite nth_range by lia. lia. }
  eexists. split; [reflexivity|]. split; [rewrite length_map; exact Hlen|]. split.
  - apply NoDup_map_on; [|exact Hnd]. intros x y Hx Hy E.
    rewrite (Hnth x Hx), (Hnth y Hy) in E. lia.
  - intros x Hx. apply in_map_iff in Hx as (j & <- & Hj). rewrite (Hnth j Hj).
    apply Hjs in Hj as [Hj _]. lia.
Qed.

Lemma items_loop_products products oid : ∀ prods acc items0 id0 draws rest total items' id',
  Generator.for_each prods (Generator.items_body products oid) (acc, items0, id0) draws
  = Some (rest, Ok (total, items', id')) →
  ∃ new, items' = items0 ++ new
    ∧ map Generator.ItemRec.product_id new = prods
    ∧ ∀ i, In i new → Generator.ItemRec.order_id i = oid.
Proof.
  induction prods as [|prod prods IH]; intros acc items0 id0 draws rest total items' id' H;
    simpl in H.
  - apply g_ret_ok in H as [[= -> -> ->] _]. exists []. rewrite app_nil_r.
    split; [reflexivity|]. split; [reflexivity|]. intros ? [].
  - apply g_bind_ok in H as ([[acc1 items1] id1] & d1 & Hbody & H).
    unfold Generator.items_body in Hbody.
    apply g_bind_ok in Hbody as (product & d2 & _ & Hbody).
    apply g_bind_ok in Hbody as (quantity & d3 & _ & Hbody).
    apply g_bind_ok in Hbody as (discount & d4 & _ & Hbody).
    apply g_ret_ok in Hbody as [[= -> -> ->] _].
    apply IH in H as (new & -> & <- & Hnew).
    eexists (_ :: new). rewrite <- app_assoc. split; [reflexivity|].
    split; [reflexivity|]. intros i [<-|Hi]; [reflexivity|apply Hnew, Hi].
Qed.

Lemma order_body_distinct products cust_id cust_reg_date order_num st draws rest out :
  21 < Z.of_nat (length products) →
  orders_distinct (snd st) →
  Generator.order_body products cust_id cust_reg_date order_num st draws
  = Some (rest, Ok out) →
  match out with inl st' | inr st' => orders_distinct (snd st') end.
Proof.
  intros Hlen Hinv H. destruct st as [last os]. unfold Generator.order_body in H.
  apply g_bind_ok in H as (order_date & d1 & _ & H).
  destruct (Generator.END_DATE <? order_date).
  { apply g_ret_ok in H as [-> _]. exact Hinv. }
  apply g_bind_ok in H as (days & d2 & _ & H).
  apply g_bind_ok in H as (num_items & d3 & Hnum & H).
  apply g_bind_ok in H as (order_products & d4 & Hsample & H).
  apply g_bind_ok in H as ([[total items] id] & d5 & Hitems & H).
  apply g_ret_ok in H as [-> _].
  apply randint_range in Hnum; [|lia].
  apply sample_range_spec in Hsample as (l & [= <-] & _ & Hnd & _); [|lia|lia].
  apply items_loop_products in Hitems as (new & -> & Hprods & Hnew).
  destruct Hinv as (Ho & Hi & Hd). unfold orders_distinct.
  cbn [snd Generator.orders Generator.order_items Generator.order_id] in *.
  split; [|split].
  - intros o Hin. apply in_app_or in Hin as [Hin|[<-|[]]]; [apply Ho in Hin|simpl]; lia.
  - intros i Hin. apply in_app_or in Hin as [Hin|Hin]; [apply Hi in Hin; lia|].
    rewrite (Hnew i Hin). lia.
  - intros o Hin. rewrite items_of_app. apply in_app_or in Hin as [Hin|[<-|[]]].
    + rewrite (items_of_none new), app_nil_r; [apply Hd, Hin|].
      intros i Hi'. rewrite (Hnew i Hi'). apply Ho in Hin. lia.
    + rewrite items_of_none, items_of_all; simpl.
      * rewrite Hprods. exact Hnd.
      * intros i Hi'. apply Hnew, Hi'.
      * intros i Hi'. apply Hi in Hi'. simpl. lia.
Qed.

Lemma customer_orders_distinct customers products cust_id os draws rest os' :
  21 < Z.of_nat (length products) →
  orders_distinct os →
  Generator.customer_orders customers products cust_id os draws = Some (rest, Ok os') →
  orders_distinct os'.
Proof.
  intros Hlen Hinv H. unfold Generator.customer_orders in H.
  apply g_bind_ok in H as (cust & d1 & _ & H).
  apply g_bind_ok in H as (behavior_type & d2 & _ & H).
  apply g_bind_ok in H as (num_orders & d3 & _ & H).
  apply g_bind_ok in H as ([last os1] & d4 & Hloop & H).
  apply g_ret_ok in H as [-> _].
  apply (for_each_break_inv (λ st, orders_distinct (snd st))) in Hloop;
    [exact Hloop| |exact Hinv].
  intros x st dr rs out Hst Hb. eapply order_body_distinct; eassumption.
Qed.

(** X18: the products of an order are sampled without replacement: no
    product appears on two lines of one order. *)
Theorem order_products_distinct (draws rest : list Z) (t : Generator.tables)
    (o : Generator.OrderRec.t)
    (Hrun : Generator.generate draws = Some (rest, Ok t))
    (Ho : In o (Generator.df_orders t)) :
  List.NoDup (map Generator.ItemRec.product_id (items_of (Generator.df_order_items t) o)).
Proof.
  unfold Generator.generate in Hrun.
  apply g_bind_ok in Hrun as (customers & d1 & _ & H).
  apply g_bind_ok in H as (products & d2 & Hp & H).
  apply g_bind_ok in H as (os & d3 & Hloop & H).
  apply g_ret_ok in H as [-> _].
  cbn [Generator.df_orders Generator.df_order_items] in *.
  apply products_loop_spec in Hp as [Hids _].
  assert (Hlen : 21 < Z.of_nat (length products)).
  { rewrite <- (length_map Generator.ProductRec.product_id), Hids, length_range. lia. }
  apply (for_each_inv orders_distinct) in Hloop.
  - destruct Hloop as (_ & _ & Hd). apply Hd, Ho.
  - intros x s dr rs s' Hs Hb. eapply customer_orders_distinct; eassumption.
  - split; [|split]; simpl; intros ? [].
Qed.

Lemma order_products_distinct_witness :
  ∃ t o, In o (Generator.df_orders t)
    ∧ List.NoDup (map Generator.ItemRec.product_id
                      (items_of (Generator.df_order_items t) o)).
Proof.
  destruct crafted_run as (t & Hrun & _ & Ho & _).
  assert (Hin : In (Generator.OrderRec.mk 1 1 Generator.START_DATE (Generator.START_DATE + 1)
                      (Float.decimal 9546 100) "Completed") (Generator.df_orders t))
    by (rewrite Ho; now left).
  eexists t, _. split; [exact Hin|].
  exact (order_products_distinct crafted_draws [] t _ Hrun Hin).
Defined.

(** ** The script raises no exception *)

Lemma g_bind_raise {A B} (m : Generator.G A) (k : A → Generator.G B) draws rest e :
  (m ≫= k) draws = Some (rest, Raise e) →
  m draws = Some (rest, Raise e)
  ∨ ∃ a mid, m draws = Some (mid, Ok a) ∧ k a mid = Some (rest, Raise e).
Proof.
  intros H. apply g_bind_inv in H as [(e' & H & [= ->])|H]; [left; exact H|right; exact H].
Qed.

Lemma g_ret_raise {A} (a : A) draws rest e :
  (mret a : Generator.G A) draws = Some (rest, Raise e) → False.
Proof. cbv [mret Generator.G_ret Generator.g_ret]. discriminate. Qed.

Lemma next_raw_raise draws rest e : Generator.next_raw draws = Some (rest, Raise e) → False.
Proof. destruct draws; simpl; discriminate. Qed.

Lemma randbelow_raise n draws rest e :
  Generator._randbelow n draws = Some (rest, Raise e) → False.
Proof.
  unfold Generator._randbelow. intros H.
  apply g_bind_raise in H as [H|(r & mid & _ & H)];
    [exact (next_raw_raise _ _ _ H)|exact (g_ret_raise _ _ _ _ H)].
Qed.

Lemma randint_raise a b draws rest e :
  Generator.randint a b draws = Some (rest, Raise e) → False.
Proof.
  unfold Generator.randint. intros H.
  apply g_bind_raise in H as [H|(r & mid & _ & H)];
    [exact (randbelow_raise _ _ _ _ H)|exact (g_ret_raise _ _ _ _ H)].
Qed.

Lemma random_raise draws rest e : Generator.random draws = Some (rest, Raise e) → False.
Proof.
  unfold Generator.random. intros H.
  apply g_bind_raise in H as [H|(r & mid & _ & H)];
    [exact (next_raw_raise _ _ _ H)|exact (g_ret_raise _ _ _ _ H)].
Qed.

Lemma uniform_raise a b draws rest e :
  Generator.uniform a b draws = Some (rest, Raise e) → False.
Proof.
  unfold Generator.uniform. intros H.
  apply g_bind_raise in H as [H|(r & mid & _ & H)];
    [exact (random_raise _ _ _ H)|exact (g_ret_raise _ _ _ _ H)].
Qed.

Lemma choice_raise {A} (seq : list A) draws rest e :
  seq ≠ [] → Generator.choice seq draws = Some (rest, Raise e) → False.
Proof.
  destruct seq as [|x seq']; [congruence|]. intros _ H. unfold Generator.choice in H.
  apply g_bind_raise in H as [H|(r & mid & _ & H)];
    [exact (randbelow_raise _ _ _ _ H)|exact (g_ret_raise _ _ _ _ H)].
Qed.

Lemma dict_get_raise {V} (dict : list (string * V)) k v draws rest e :
  In (k, v) dict → Generator.dict_get dict k draws = Some (rest, Raise e) → False.
Proof.
  intros Hin. unfold Generator.dict_get.
  destruct (List.find _ dict) as [[k' v']|] eqn:E.
  - apply g_ret_raise.
  - apply (find_none _ _ E) in Hin. rewrite String.eqb_refl in Hin. discriminate.
Qed.

Lemma iloc0_where_raise {A} (p : A → bool) df x draws rest e :
  In x df → p x = true → Generator.iloc0_where p df draws = Some (rest, Raise e) → False.
Proof.
  intros Hin Hp. unfold Generator.iloc0_where. destruct (List.find p df) eqn:E.
  - apply g_ret_raise.
  - apply (find_none _ _ E) in Hin. congruence.
Qed.

Lemma for_each_raise {A S} (I : S → Prop) (body : A → S → Generator.G S) xs :
  (∀ x s draws rest s', In x xs → I s → body x s draws = Some (rest, Ok s') → I s') →
  (∀ x s draws rest e, In x xs → I s → body x s draws = Some (rest, Raise e) → False) →
  ∀ s draws rest e,
    I s → Generator.for_each xs body s draws = Some (rest, Raise e) → False.
Proof.
  induction xs as [|x xs IH]; intros Hok Hraise s draws rest e Hs H; simpl in H.
  - exact (g_ret_raise _ _ _ _ H).
  - apply g_bind_raise in H as [H|(s1 & mid & H1 & H2)].
    + exact (Hraise x s draws rest e (or_introl eq_refl) Hs H).
    + apply (IH (λ y t d r t' Hy, Hok y t d r t' (or_intror Hy))
                (λ y t d r e' Hy, Hraise y t d r e' (or_intror Hy))
                s1 mid rest e); [|exact H2].
      exact (Hok x s draws mid s1 (or_introl eq_refl) Hs H1).
Qed.

Lemma for_each_break_raise {A S} (I : S → Prop) (body : A → S → Generator.G (S + S)) xs :
  (∀ x s draws rest o, I s → body x s draws = Some (rest, Ok o) →
     match o with inl s' | inr s' => I s' end) →
  (∀ x s draws rest e, I s → body x s draws = Some (rest, Raise e) → False) →
  ∀ s draws rest e,
    I s → Generator.for_each_break xs body s draws = Some (rest, Raise e) → False.
Proof.
  intros Hok Hraise. induction xs as [|x xs IH]; intros s draws rest e Hs H; simpl in H.
  - exact (g_ret_raise _ _ _ _ H).
  - apply g_bind_raise in H as [H|(o & mid & H1 & H2)].
    + exact (Hraise x s draws rest e Hs H).
    + pose proof (Hok _ _ _ _ _ Hs H1) as Hb. destruct o as [s1|s1].
      * exact (g_ret_raise _ _ _ _ H2).
      * exact (IH s1 mid rest e Hb H2).
Qed.

(** Every country has its cities, every category its price range. *)
Lemma country_has_cities country :
  In country Generator.countries →
  ∃ towns, In (country, towns) Generator.cities.
Proof.
  unfold Generator.countries, Generator.cities. intros H.
  repeat (destruct H as [<-|H]; [eexists; simpl; eauto 10|]). destruct H.
Qed.

Lemma cities_not_empty country towns :
  In (country, towns) Generator.cities → towns ≠ [].
Proof.
  unfold Generator.cities. intros H.
  repeat (destruct H as [[= <- <-]|H]; [discriminate|]). destruct H.
Qed.

Lemma category_has_prices category subs :
  In (category, subs) Generator.categories →
  ∃ range, In (category, range) Generator.price_ranges.
Proof.
  unfold Generator.categories, Generator.price_ranges. intros H.
  repeat (destruct H as [[= <- <-]|H]; [eexists; simpl; eauto 10|]). destruct H.
Qed.

Lemma customers_body_raise i customers draws rest e :
  Generator.customers_body i customers draws = Some (rest, Raise e) → False.
Proof.
  unfold Generator.customers_body. intros H.
  apply g_bind_raise in H as [H|(country & d1 & Hcountry & H)].
  { apply choice_raise in H; [exact H|discriminate]. }
  apply choice_In in Hcountry.
  destruct (country_has_cities _ Hcountry) as [towns0 Htowns0].
  apply g_bind_raise in H as [H|(towns & d2 & Htowns & H)].
  { exact (dict_get_raise _ _ _ _ _ _ Htowns0 H). }
  apply dict_get_In in Htowns.
  apply g_bind_raise in H as [H|(city & d3 & _ & H)].
  { exact (choice_raise _ _ _ _ (cities_not_empty _ _ Htowns) H). }
  apply g_bind_raise in H as [H|(days & d4 & _ & H)].
  { exact (randint_raise _ _ _ _ _ H). }
  exact (g_ret_raise _ _ _ _ H).
Qed.

Lemma products_body_raise category subs sub i st draws rest e :
  In (category, subs) Generator.categories →
  Generator.products_body category sub i st draws = Some (rest, Raise e) → False.
Proof.
  intros Hcat H. destruct st as [products id]. unfold Generator.products_body in H.
  destruct (category_has_prices _ _ Hcat) as [range Hrange].
  apply g_bind_raise in H as [H|([lo hi] & d1 & _ & H)].
  { exact (dict_get_raise _ _ _ _ _ _ Hrange H). }
  apply g_bind_raise in H as [H|(price & d2 & _ & H)].
  { exact (uniform_raise _ _ _ _ _ H). }
  exact (g_ret_raise _ _ _ _ H).
Qed.

Lemma products_loop_raise draws rest e :
  Generator.products_loop draws = Some (rest, Raise e) → False.
Proof.
  unfold Generator.products_loop. intros H.
  apply g_bind_raise in H as [H|([products id] & d1 & _ & H)];
    [|exact (g_ret_raise _ _ _ _ H)].
  refine (for_each_raise (λ _, True) _ _ _ _ _ _ _ _ I H).
  - auto.
  - intros [category subs] s d r e' Hcat _ Hb.
    refine (for_each_raise (λ _, True) _ _ _ _ _ _ _ _ I Hb); [auto|].
    intros sub s1 d1' r1 e1 _ _ Hb1.
    refine (for_each_raise (λ _, True) _ _ _ _ _ _ _ _ I Hb1); [auto|].
    intros i s2 d2 r2 e2 _ _ Hb2. exact (products_body_raise _ _ _ _ _ _ _ _ Hcat Hb2).
Qed.

Lemma choices1_behavior_raise draws rest e :
  Generator.choices1 ["champion"; "loyal"; "occasional"; "one_time"]%string
    [Float.decimal 15 100; Float.decimal 25 100; Float.decimal 35 100;
     Float.decimal 25 100] draws
  = Some (rest, Raise e) → False.
Proof.
  unfold Generator.choices1.
  match goal with
  | |- context [if ?c then _ else _] =>
      let b := eval vm_compute in c in change c with b
  end.
  cbn iota.
  match goal with
  | |- context [if ?c then _ else _] =>
      let b := eval vm_compute in c in change c with b
  end.
  cbn iota. intros H.
  apply g_bind_raise in H as [H|(u & mid & _ & H)];
    [exact (random_raise _ _ _ H)|exact (g_ret_raise _ _ _ _ H)].
Qed.

Lemma find_by_id {A} (id : A → Z) (l : list A) k :
  In k (map id l) → ∃ x, In x l ∧ (id x =? k) = true.
Proof.
  intros H. apply in_map_iff in H as (x & <- & Hx). exists x.
  split; [exact Hx|apply Z.eqb_refl].
Qed.

Lemma items_body_raise products oid prod st draws rest e :
  In prod (map Generator.ProductRec.product_id products) →
  Generator.items_body products oid prod st draws = Some (rest, Raise e) → False.
Proof.
  intros Hprod H. destruct st as [[acc items] id]. unfold Generator.items_body in H.
  destruct (find_by_id _ _ _ Hprod) as (p & Hp & Hid).
  apply g_bind_raise in H as [H|(product & d2 & _ & H)].
  { exact (iloc0_where_raise _ _ _ _ _ _ Hp Hid H). }
  apply g_bind_raise in H as [H|(quantity & d3 & _ & H)].
  { exact (randint_raise _ _ _ _ _ H). }
  apply g_bind_raise in H as [H|(discount & d4 & _ & H)].
  { apply choice_raise in H; [exact H|discriminate]. }
  exact (g_ret_raise _ _ _ _ H).
Qed.

Lemma order_body_raise products cust_id cust_reg_date order_num st draws rest e :
  map Generator.ProductRec.product_id products = Generator.range 1 190 →
  Generator.order_body products cust_id cust_reg_date order_num st draws
  = Some (rest, Raise e) → False.
Proof.
  intros Hids H. destruct st as [last os]. unfold Generator.order_body in H.
  assert (Hlen : Z.of_nat (length products) = 189).
  { rewrite <- (length_map Generator.ProductRec.product_id), Hids, length_range. lia. }
  apply g_bind_raise in H as [H|(order_date & d1 & _ & H)].
  { destruct (order_num =? 0);
      (apply g_bind_raise in H as [H|(x & mid & _ & H)];
       [exact (randint_raise _ _ _ _ _ H)|exact (g_ret_raise _ _ _ _ H)]). }
  destruct (Generator.END_DATE <? order_date); [exact (g_ret_raise _ _ _ _ H)|].
  apply g_bind_raise in H as [H|(days & d2 & _ & H)].
  { exact (randint_raise _ _ _ _ _ H). }
  apply g_bind_raise in H as [H|(num_items & d3 & Hnum & H)].
  { exact (randint_raise _ _ _ _ _ H). }
  apply randint_range in Hnum; [|lia].
  rewrite Hlen in H.
  apply g_bind_raise in H as [H|(order_products & d4 & Hsample & H)].
  { apply (sample_range_spec 189) in H as (l & [=] & _); lia. }
  apply (sample_range_spec 189) in Hsample as (l & [= <-] & _ & _ & Hin); [|lia|lia].
  apply g_bind_raise in H as [H|([[total items] id] & d5 & _ & H)];
    [|exact (g_ret_raise _ _ _ _ H)].
  refine (for_each_raise (λ _, True) _ _ _ _ _ _ _ _ I H); [auto|].
  intros prod s d r e' Hprod _ Hb.
  apply (items_body_raise _ _ _ _ _ _ _ ) in Hb; [exact Hb|].
  rewrite Hids. apply In_range. apply Hin in Hprod. lia.
Qed.

Lemma customer_orders_raise customers products cust_id os draws rest e :
  In cust_id (map Generator.CustomerRec.customer_id customers) →
  map Generator.ProductRec.product_id products = Generator.range 1 190 →
  Generator.customer_orders customers products cust_id os draws
  = Some (rest, Raise e) → False.
Proof.
  intros Hcust Hids H. unfold Generator.customer_orders in H.
  destruct (find_by_id _ _ _ Hcust) as (c & Hc & Hid).
  apply g_bind_raise in H as [H|(cust & d1 & _ & H)].
  { exact (iloc0_where_raise _ _ _ _ _ _ Hc Hid H). }
  apply g_bind_raise in H as [H|(behavior_type & d2 & _ & H)].
  { exact (choices1_behavior_raise _ _ _ H). }
  apply g_bind_raise in H as [H|(num_orders & d3 & _ & H)].
  { repeat match type of H with
           | (if ?c then _ else _) _ = _ => destruct c
           end;
      try exact (randint_raise _ _ _ _ _ H); exact (g_ret_raise _ _ _ _ H). }
  apply g_bind_raise in H as [H|([last os1] & d4 & _ & H)];
    [|exact (g_ret_raise _ _ _ _ H)].
  refine (for_each_break_raise (λ _, True) _ _ _ _ _ _ _ _ I H).
  - intros x s d r [o|o] _ _; exact I.
  - intros x s d r e' _ Hb. exact (order_body_raise _ _ _ _ _ _ _ _ Hids Hb).
Qed.

Lemma customers_loop_ids draws rest customers :
  Generator.customers_loop draws = Some (rest, Ok customers) →
  map Generator.CustomerRec.customer_id customers
  = Generator.range 1 (Generator.NUM_CUSTOMERS + 1).
Proof.
  unfold Generator.customers_loop. intros H.
  exact (proj1 (for_each_seen _ Generator.customers_body customers_body_spec
                  _ [] [] _ _ _ (conj eq_refl (Forall_nil_2 _)) H)).
Qed.

(** X19: the script raises no exception. Whatever the random source
    gives, a run either uses up the given outputs of the source or ends
    with the four tables: every dictionary lookup finds its key, every
    customer and product looked up by id is in its table, and every
    sample fits its population. *)
Theorem generate_never_raises (draws : list Z) :
  Generator.generate draws = None
  ∨ ∃ rest t, Generator.generate draws = Some (rest, Ok t).
Proof.
  destruct (Generator.generate draws) as [[rest [t|e]]|] eqn:E; [eauto|exfalso|auto].
  unfold Generator.generate in E.
  apply g_bind_raise in E as [H|(customers & d1 & Hc & H)].
  { unfold Generator.customers_loop in H.
    refine (for_each_raise (λ _, True) _ _ _ _ _ _ _ _ I H); [auto|].
    intros i s d r e' _ _ Hb. exact (customers_body_raise _ _ _ _ _ Hb). }
  apply customers_loop_ids in Hc.
  apply g_bind_raise in H as [H|(products & d2 & Hp & H)].
  { exact (products_loop_raise _ _ _ H). }
  apply products_loop_spec in Hp as [Hids _].
  apply g_bind_raise in H as [H|(os & d3 & _ & H)]; [|exact (g_ret_raise _ _ _ _ H)].
  refine (for_each_raise (λ _, True) _ _ _ _ _ _ _ _ I H); [auto|].
  intros cust_id s d r e' Hin _ Hb.
  apply (customer_orders_raise customers products) in Hb; [exact Hb| |exact Hids].
  rewrite Hc. exact Hin.
Qed.
